(** * x3f_extract: extraction planning, path building and safe commit

    A shallow embedding of [src/x3f_extract.cpp] (the command line
    front end of the X3F tools) and the properties of its option
    resolution, path construction, section loading, encoder dispatch,
    temp-file commit and exit status.

    Conventions of the embedding.
    - A [char] array, and the memory a [char *] points into (from the
      pointer to the end of its array), is the list of its cells.  Reading
      or writing past the end of the list is undefined behaviour and is
      modelled by [None].
    - [int] variables are [Z]; the flags of [main] keep their C encoding
      (0, 1 and -1 for the spatial gain tri-state).
    - What the program does to the outside (calls into the X3F library,
      the C runtime and the file system, and what it prints) is recorded,
      in call order, in the [trace] of the [world]; regular files live in
      a finite map from path to contents.
    - The X3F library and the operating system are interfaces
      ([X3fLib], [Host]); every theorem holds for all their instances. *)

From Stdlib Require Import ZArith Ascii String List Lia Bool.
From stdpp Require Import base option list gmap strings.

Local Open Scope string_scope.
Local Open Scope list_scope.
Local Open Scope Z_scope.

(** ** Return codes, verbosity levels, events *)

(** [x3f_return_t] (declared in x3f_io.h): only [X3F_OK] is named by the
    program; every other value is a failure. *)
Variant x3f_return_t := X3F_OK | X3F_FAILURE (code : positive).

Definition is_ok (r : x3f_return_t) : bool :=
  match r with X3F_OK => true | X3F_FAILURE _ => false end.

(** The verbosity levels of x3f_printf.h that the program uses. *)
Variant x3f_verbosity_t := ERR | INFO | DEBUG.

Variant x3f_color_encoding_t := NONE | SRGB | ARGB | PPRGB | UNPROCESSED | QTOP.

Variant output_file_type_t :=
  META | JPEG | RAW | TIFF | DNG | PPMP3 | PPMP6 | HISTOGRAM.

Definition Desc_text : string := "usage: x3f_extract <SWITCHES> <file1> ...\n".

(** [extension[]], indexed by the file type. *)
Definition extension (t : output_file_type_t) : string :=
  match t with
  | META => ".meta"
  | JPEG => ".jpg"
  | RAW => ".raw"
  | TIFF => ".tif"
  | DNG => ".dng"
  | PPMP3 => ".ppm"
  | PPMP6 => ".ppm"
  | HISTOGRAM => ".csv"
  end.

(** Arguments of a [x3f_printf] call: a [char *] (possibly NULL), an
    [int], or the text of a return code ([x3f_err(ret)]). *)
Variant printf_arg :=
| ArgS (s : option string)
| ArgD (n : Z)
| ArgErr (r : x3f_return_t).

(** What is streamed to [std::cerr]: the options description [desc], a
    string, or [std::endl]. *)
Variant cerr_item := Desc | Text (s : string) | Endl.

Variant std_stream := Stdout | Stderr.

(** The encoder calls of the [switch], with the arguments [main] passes
    besides the handle and the temp path. *)
Variant dump_call :=
| dump_meta_data
| dump_jpeg
| dump_raw_data
| dump_raw_data_as_tiff (color_encoding : x3f_color_encoding_t)
    (crop fix_bad denoise sgain : Z) (wb : option string) (compress : Z)
| dump_raw_data_as_dng (fix_bad denoise sgain : Z) (wb : option string)
    (compress : Z)
| dump_raw_data_as_ppm (color_encoding : x3f_color_encoding_t)
    (crop fix_bad denoise sgain : Z) (wb : option string) (binary : Z)
| dump_raw_data_as_histogram (color_encoding : x3f_color_encoding_t)
    (crop fix_bad denoise sgain : Z) (wb : option string) (log_hist : Z).

(** A directory entry of the container is identified by its index in the
    directory; [None] is the NULL pointer. *)
Definition directory_entry := nat.

(** One event per call that leaves [main]; results are recorded where the
    program looks at them. *)
Variant event :=
| E_x3f_printf (level : x3f_verbosity_t) (fmt : string) (args : list printf_arg)
| E_cerr (items : list cerr_item)
| E_setvbuf (stream : std_stream)
| E_stat (path : string) (ret : Z)
| E_x3f_set_use_opencl (flag : Z)
| E_fopen (path mode : string) (opened : bool)
| E_x3f_new_from_file (created : bool)
| E_x3f_get_thumb_jpeg (de : option directory_entry)
| E_x3f_get_prop (de : option directory_entry)
| E_x3f_get_camf (de : option directory_entry)
| E_x3f_get_raw (de : option directory_entry)
| E_x3f_load_data (de : option directory_entry) (ret : x3f_return_t)
| E_x3f_load_image_block (de : option directory_entry) (ret : x3f_return_t)
| E_unlink (path : string)
| E_x3f_dump (call : dump_call) (path : string) (ret : x3f_return_t)
| E_rename (oldpath newpath : string) (ret : Z)
| E_x3f_delete (null : bool)
| E_fclose
| E_fprintf (stream : std_stream) (fmt : string)
(* the call of [make_paths], a function of the program itself, recorded
   to keep its place among the calls *)
| E_make_paths (inpath : string) (outdir : option string) (ext : string).

(** ** The world *)

(** The globals of the X3F library that the options set.  Their
    declarations are in the headers of the library: [auto_legacy_offset]
    and [legacy_offset] are [int]s, [max_printed_matrix_elements] is a
    [uint32_t], whose values are kept in the range 0 .. 2^32 - 1. *)
Record globals := {
  x3f_printf_level : option x3f_verbosity_t; (* None: the library default *)
  auto_legacy_offset : Z;
  legacy_offset : Z;
  max_printed_matrix_elements : Z
}.

(** The conversion of an [int] to [uint32_t]. *)
Definition to_uint32 (n : Z) : Z := n mod 2 ^ 32.

Record world := {
  fs : gmap string (list Byte.byte);
  trace : list event;
  glob : globals
}.

(** State passing with undefined behaviour: [None] is a memory error. *)
Definition M (A : Type) : Type := world -> option (A * world).

Definition ret {A} (a : A) : M A := fun w => Some (a, w).

Definition bind {A B} (m : M A) (k : A -> M B) : M B :=
  fun w => match m w with
           | Some (a, w') => k a w'
           | None => None
           end.

Definition undefined {A} : M A := fun _ => None.

Notation "'do' x <- m ; k" := (bind m (fun x => k))
  (at level 10, x name, m at level 100, k at level 200).
Notation "'do' ' p <- m ; k" := (bind m (fun x => let 'p := x in k))
  (at level 10, p pattern, m at level 100, k at level 200).
Notation "m ;; k" := (bind m (fun _ => k))
  (at level 100, k at level 200, right associativity).

Definition emit (e : event) : M unit :=
  fun w => Some (tt, {| fs := fs w; trace := trace w ++ [e]; glob := glob w |}).

Definition get_fs : M (gmap string (list Byte.byte)) :=
  fun w => Some (fs w, w).

Definition set_fs (f : gmap string (list Byte.byte)) : M unit :=
  fun w => Some (tt, {| fs := f; trace := trace w; glob := glob w |}).

Definition set_glob (f : globals -> globals) : M unit :=
  fun w => Some (tt, {| fs := fs w; trace := trace w; glob := f (glob w) |}).

Definition x3f_printf (level : x3f_verbosity_t) (fmt : string)
    (args : list printf_arg) : M unit :=
  emit (E_x3f_printf level fmt args).

(** Lifting a memory access that may be out of bounds. *)
Definition access {A} (o : option A) : M A :=
  match o with Some a => ret a | None => undefined end.

(** ** C strings *)

Definition NUL : ascii := Ascii.zero.

Definition is_nul (c : ascii) : bool := Ascii.eqb c NUL.

(** [std::string::c_str()]: the characters followed by the terminator. *)
Definition c_str (s : string) : list ascii := list_ascii_of_string s ++ [NUL].

(** The characters of the C string that starts a piece of memory. *)
Fixpoint cstring (m : list ascii) : list ascii :=
  match m with
  | [] => []
  | c :: m' => if is_nul c then [] else c :: cstring m'
  end.

(** The C string in a buffer, as a path. *)
Definition path_of (m : list ascii) : string := string_of_list_ascii (cstring m).

Fixpoint strlen (s : list ascii) : option nat :=
  match s with
  | [] => None
  | c :: s' => if is_nul c then Some 0%nat else S <$> strlen s'
  end.

Fixpoint strnlen (s : list ascii) (maxlen : nat) : option nat :=
  match maxlen with
  | O => Some 0%nat
  | S n =>
      match s with
      | [] => None
      | c :: s' => if is_nul c then Some 0%nat else S <$> strnlen s' n
      end
  end.

(** [strchr(s, c)]: offset of the first [c] in the string, the terminator
    included. *)
Fixpoint strchr (s : list ascii) (c : ascii) : option (option nat) :=
  match s with
  | [] => None
  | a :: s' =>
      if Ascii.eqb a c then Some (Some 0%nat)
      else if is_nul a then Some None
      else option_map (option_map S) (strchr s' c)
  end.

(** [strrchr(s, c)]: offset of the last [c] in the string, the terminator
    included. *)
Fixpoint strrchr (s : list ascii) (c : ascii) : option (option nat) :=
  match s with
  | [] => None
  | a :: s' =>
      if is_nul a then Some (if Ascii.eqb a c then Some 0%nat else None)
      else
        match strrchr s' c with
        | None => None
        | Some (Some i) => Some (Some (S i))
        | Some None => Some (if Ascii.eqb a c then Some 0%nat else None)
        end
  end.

(** [strcpy(dst, src)]: the string and its terminator overwrite the start
    of [dst]; the cells behind keep their contents. *)
Definition strcpy (dst src : list ascii) : option (list ascii) :=
  n ← strlen src;
  if (n + 1 <=? length dst)%nat
  then Some (take n src ++ NUL :: drop (n + 1) dst)
  else None.

(** [strcat(dst, src)]: the string and its terminator are written from the
    terminator of [dst] on. *)
Definition strcat (dst src : list ascii) : option (list ascii) :=
  d ← strlen dst;
  n ← strlen src;
  if (d + n + 1 <=? length dst)%nat
  then Some (take d dst ++ take n src ++ NUL :: drop (d + n + 1) dst)
  else None.

Definition MAXPATH : nat := 1000.
Definition EXTMAX : nat := 10.
Definition MAXOUTPATH : nat := MAXPATH + EXTMAX.
Definition MAXTMPPATH : nat := MAXOUTPATH + EXTMAX.

(** [safecpy]: [dst_size] is a positive constant at every call, so its
    conversion to [size_t] in the comparison is the identity.  Returns the
    status and the new contents of [dst]. *)
Definition safecpy (dst src : list ascii) (dst_size : nat) : M (Z * list ascii) :=
  do n <- access (strnlen src (dst_size + 1));
  if (dst_size <? n)%nat then
    x3f_printf DEBUG "safecpy: String too large\n" [] ;;
    ret (1, dst)
  else
    do dst' <- access (strcpy dst src);
    ret (0, dst').

Definition safecat (dst src : list ascii) (dst_size : nat) : M (Z * list ascii) :=
  do d <- access (strnlen dst (dst_size + 1));
  do n <- access (strnlen src (dst_size + 1));
  if (dst_size <? d + n)%nat then
    x3f_printf DEBUG "safecat: String too large\n" [] ;;
    ret (1, dst)
  else
    do dst' <- access (strcat dst src);
    ret (0, dst').

(** The two branches of the [#if defined(_WIN32) || defined(_WIN64)]. *)
Variant platform := Posix | Windows.

Definition PATHSEP (p : platform) : string :=
  match p with Posix => "/" | Windows => "\" end.

Definition pathseps (p : platform) : string :=
  match p with Posix => PATHSEP p | Windows => PATHSEP p +:+ "/:" end.

(** The [for (sep=pathseps; *sep; sep++)] loop of [make_paths]: [seps] is
    the memory from [sep] on, [ptr] the offset into [inpath]. *)
Fixpoint basename_loop (inpath seps : list ascii) (ptr : nat) : option nat :=
  match seps with
  | [] => None
  | sep :: seps' =>
      if is_nul sep then Some ptr
      else
        p ← strrchr inpath sep;
        basename_loop inpath seps'
          (match p with
           | Some p => if (ptr <? p + 1)%nat then (p + 1)%nat else ptr
           | None => ptr
           end)
  end.

(** [make_paths]: [outdir] is [None] for NULL.  Returns [err] and the new
    contents of [tmppath] and [outpath]. *)
Definition make_paths (pf : platform) (inpath : list ascii)
    (outdir : option (list ascii)) (ext : list ascii)
    (tmppath outpath : list ascii) : M (Z * list ascii * list ascii) :=
  let err := 0 in
  do given <- match outdir with
           | None => ret None
           | Some dir =>
               do c <- access (head dir);
               ret (if is_nul c then None else Some dir)
           end;
  do '(err, outpath) <-
    match given with
    | Some dir =>
        do ptr <- access (basename_loop inpath (c_str (pathseps pf)) 0);
        do '(r, outpath) <- safecpy outpath dir MAXOUTPATH;
        let err := err + r in
        do len <- access (strlen dir);
        do last <- access (if (len =? 0)%nat then None else dir !! (len - 1)%nat);
        do found <- access (strchr (c_str (pathseps pf)) last);
        do '(err, outpath) <-
          (if found is None then
             do '(r, outpath) <- safecat outpath (c_str (PATHSEP pf)) MAXOUTPATH;
             ret (err + r, outpath)
           else ret (err, outpath));
        do '(r, outpath) <- safecat outpath (drop ptr inpath) MAXOUTPATH;
        ret (err + r, outpath)
    | None =>
        do '(r, outpath) <- safecpy outpath inpath MAXOUTPATH;
        ret (err + r, outpath)
    end;
  do '(r, outpath) <- safecat outpath ext MAXOUTPATH;
  let err := err + r in
  do '(r, tmppath) <- safecpy tmppath outpath MAXTMPPATH;
  let err := err + r in
  do '(r, tmppath) <- safecat tmppath (c_str ".tmp") MAXTMPPATH;
  let err := err + r in
  ret (err, tmppath, outpath).

(** ** The outside: operating system and X3F library *)

(** What [main] observes of the operating system and the C runtime. *)
Class Host := {
  (* which branch of the path separator [#if] was compiled *)
  pf : platform;
  (* [stat]: [None] when it fails, else whether the path is a directory *)
  host_stat : string -> option bool;
  (* whether [fopen(path, "rb")] is granted for an existing file *)
  host_readable : string -> bool;
  host_unlink_permitted : string -> bool;
  host_rename_permitted : string -> string -> bool;
  (* the cells of the uninitialised arrays [tmpfile] and [outfile] *)
  tmpfile_cells : nat -> ascii;
  outfile_cells : nat -> ascii
}.

(** What [main] observes of the X3F library.  The handle [x3f_t *] points
    to a state that the load calls change; the encoders answer with a
    return code and with what they leave at the path they were given. *)
Class X3fLib := {
  x3f_t : Type;
  version : string;
  (* the macro of x3f_io.h *)
  X3F_VERSION_4_0 : Z;
  header_version : x3f_t -> Z;
  lib_new_from_file : list Byte.byte -> option x3f_t;
  lib_get_thumb_jpeg : x3f_t -> option directory_entry;
  lib_get_prop : x3f_t -> option directory_entry;
  lib_get_camf : x3f_t -> option directory_entry;
  lib_get_raw : x3f_t -> option directory_entry;
  lib_load_data : x3f_t -> option directory_entry -> x3f_return_t * x3f_t;
  lib_load_image_block :
    x3f_t -> option directory_entry -> x3f_return_t * x3f_t;
  lib_dump :
    x3f_t -> dump_call -> string -> x3f_return_t * option (list Byte.byte)
}.

(** ** The command line *)

(** The [variables_map] that [boost::program_options] hands to [main]:
    [count] of a switch is its truth value, of a valued option whether it
    is [Some]. *)
Record variables_map := {
  opt_help : bool;
  opt_output : option string;
  opt_debug : bool;
  opt_quiet : bool;
  opt_format : option string;
  opt_color : option string;
  opt_noCrop : bool;
  opt_noDenoise : bool;
  opt_noSGain : bool;
  opt_sgain : bool;
  opt_noFixBad : bool;
  opt_whiteBalance : option string;
  opt_compress : bool;
  opt_ocl : bool;
  opt_offset : option Z;
  opt_matrixmax : option Z;
  opt_input : option string
}.

(** The local variables of [main] that the options set.  The two
    [char *], [wb] and [outdir], are NULL ([None]) or point to the
    [c_str()] of the option's string. *)
Record locals := {
  extract_jpg : Z;
  extract_raw : Z;
  extract_unconverted_raw : Z;
  crop : Z;
  fix_bad : Z;
  denoise : Z;
  apply_sgain : Z;
  file_type : output_file_type_t;
  color_encoding : x3f_color_encoding_t;
  log_hist : Z;
  wb : option (list ascii);
  compress : Z;
  use_opencl : Z;
  outdir : option (list ascii)
}.

(** The initialisers of lines 203-221. *)
Definition initial_locals : locals := {|
  extract_jpg := 0;
  extract_raw := 1;
  extract_unconverted_raw := 0;
  crop := 1;
  fix_bad := 1;
  denoise := 1;
  apply_sgain := -1;
  file_type := DNG;
  color_encoding := SRGB;
  log_hist := 0;
  wb := None;
  compress := 0;
  use_opencl := 0;
  outdir := None
|}.

(** The assignments [main] makes to its locals. *)
Variant assignment :=
| set_extract_jpg (v : Z)
| set_extract_raw (v : Z)
| set_extract_unconverted_raw (v : Z)
| set_crop (v : Z)
| set_fix_bad (v : Z)
| set_denoise (v : Z)
| set_apply_sgain (v : Z)
| set_file_type (v : output_file_type_t)
| set_color_encoding (v : x3f_color_encoding_t)
| set_log_hist (v : Z)
| set_wb (v : option (list ascii))
| set_compress (v : Z)
| set_use_opencl (v : Z)
| set_outdir (v : option (list ascii)).

Definition assign (l : locals) (a : assignment) : locals :=
  let 'Build_locals j r u c f d s t e h w z o dir := l in
  match a with
  | set_extract_jpg v => Build_locals v r u c f d s t e h w z o dir
  | set_extract_raw v => Build_locals j v u c f d s t e h w z o dir
  | set_extract_unconverted_raw v => Build_locals j r v c f d s t e h w z o dir
  | set_crop v => Build_locals j r u v f d s t e h w z o dir
  | set_fix_bad v => Build_locals j r u c v d s t e h w z o dir
  | set_denoise v => Build_locals j r u c f v s t e h w z o dir
  | set_apply_sgain v => Build_locals j r u c f d v t e h w z o dir
  | set_file_type v => Build_locals j r u c f d s v e h w z o dir
  | set_color_encoding v => Build_locals j r u c f d s t v h w z o dir
  | set_log_hist v => Build_locals j r u c f d s t e v w z o dir
  | set_wb v => Build_locals j r u c f d s t e h v z o dir
  | set_compress v => Build_locals j r u c f d s t e h w v o dir
  | set_use_opencl v => Build_locals j r u c f d s t e h w z v dir
  | set_outdir v => Build_locals j r u c f d s t e h w z o v
  end.

(** [l <: [a; b]] performs the assignments from left to right. *)
Definition assigns (l : locals) (al : list assignment) : locals :=
  fold_left assign al l.

Notation "l <: al" := (assigns l al) (at level 50, left associativity).

(** The macro [Z]. *)
Definition Z_macro : list assignment :=
  [set_extract_jpg 0; set_extract_raw 0; set_extract_unconverted_raw 0].

(** C truth value of an [int]. *)
Definition truthy (z : Z) : bool := negb (z =? 0).

(** The format [if] chain of lines 244-261, after the macro [Z]: the
    assignments of the matching branch, [None] for the final [else]. *)
Definition format_assignments (fmt : string) : option (list assignment) :=
  if String.eqb fmt "jpg" then Some [set_extract_jpg 1; set_file_type JPEG]
  else if String.eqb fmt "meta" then Some [set_file_type META]
  else if String.eqb fmt "raw" then
    Some [set_extract_unconverted_raw 1; set_file_type RAW]
  else if String.eqb fmt "tiff" then Some [set_extract_raw 1; set_file_type TIFF]
  else if String.eqb fmt "dng" then Some [set_extract_raw 1; set_file_type DNG]
  else if String.eqb fmt "ppm-ascii" then
    Some [set_extract_raw 1; set_file_type PPMP3]
  else if String.eqb fmt "ppm" then Some [set_extract_raw 1; set_file_type PPMP6]
  else if String.eqb fmt "histogram" then
    Some [set_extract_raw 1; set_file_type HISTOGRAM]
  else if String.eqb fmt "loghist" then
    Some [set_extract_raw 1; set_file_type HISTOGRAM; set_log_hist 1]
  else None.

(** The color [if] chain of lines 262-275. *)
Definition color_assignment (spc : string) : option x3f_color_encoding_t :=
  if String.eqb spc "none" then Some NONE
  else if String.eqb spc "sRGB" then Some SRGB
  else if String.eqb spc "AdobeRGB" then Some ARGB
  else if String.eqb spc "ProPhotoRGB" then Some PPRGB
  else if String.eqb spc "unprocessed" then Some UNPROCESSED
  else if String.eqb spc "qtop" then Some QTOP
  else None.

(** [extract_meta], lines 315-319. *)
Definition compute_extract_meta (l : locals) : Z :=
  Z.b2z
    (match file_type l with META => true | _ => false end
     || match file_type l with DNG => true | _ => false end
     || (truthy (extract_raw l)
         && (truthy (crop l)
             || (match color_encoding l with UNPROCESSED => false | _ => true end
                 && match color_encoding l with QTOP => false | _ => true end)))).

(** ** Calls to the outside *)

Definition cerr (items : list cerr_item) : M unit := emit (E_cerr items).

Definition setvbuf (stream : std_stream) : M unit := emit (E_setvbuf stream).

Definition fprintf (stream : std_stream) (fmt : string) : M unit :=
  emit (E_fprintf stream fmt).

Definition x3f_set_use_opencl (flag : Z) : M unit :=
  emit (E_x3f_set_use_opencl flag).

Section Program.
Context `{Host} `{X3fLib}.

(** [stat]: 0 and the directory bit, or -1. *)
Definition stat (path : string) : M (Z * bool) :=
  let r := match host_stat path with
           | Some isdir => (0, isdir)
           | None => (-1, false)
           end in
  emit (E_stat path r.1) ;; ret r.

(** [check_dir], lines 122-136. *)
Definition check_dir (Path : string) : M Z :=
  do '(ret_, isdir) <- stat Path;
  if negb (ret_ =? 0) then ret ret_
  else if negb isdir then ret (-1)
  else ret 0.

(** [fopen(path, "rb")]: the stream is the contents of the file; [None] is
    NULL. *)
Definition fopen (path mode : string) : M (option (list Byte.byte)) :=
  do files <- get_fs;
  let f := if host_readable path then files !! path else None in
  emit (E_fopen path mode (bool_decide (is_Some f))) ;; ret f.

Definition fclose : M unit := emit E_fclose.

Definition x3f_new_from_file (f_in : list Byte.byte) : M (option x3f_t) :=
  let x := lib_new_from_file f_in in
  emit (E_x3f_new_from_file (bool_decide (is_Some x))) ;; ret x.

Definition x3f_get_thumb_jpeg (x : x3f_t) : M (option directory_entry) :=
  emit (E_x3f_get_thumb_jpeg (lib_get_thumb_jpeg x)) ;;
  ret (lib_get_thumb_jpeg x).

Definition x3f_get_prop (x : x3f_t) : M (option directory_entry) :=
  emit (E_x3f_get_prop (lib_get_prop x)) ;; ret (lib_get_prop x).

Definition x3f_get_camf (x : x3f_t) : M (option directory_entry) :=
  emit (E_x3f_get_camf (lib_get_camf x)) ;; ret (lib_get_camf x).

Definition x3f_get_raw (x : x3f_t) : M (option directory_entry) :=
  emit (E_x3f_get_raw (lib_get_raw x)) ;; ret (lib_get_raw x).

(** The load calls return the code and the new state behind the handle. *)
Definition x3f_load_data (x : x3f_t) (de : option directory_entry)
    : M (x3f_return_t * x3f_t) :=
  emit (E_x3f_load_data de (lib_load_data x de).1) ;; ret (lib_load_data x de).

Definition x3f_load_image_block (x : x3f_t) (de : option directory_entry)
    : M (x3f_return_t * x3f_t) :=
  emit (E_x3f_load_image_block de (lib_load_image_block x de).1) ;;
  ret (lib_load_image_block x de).

(** [x3f_delete(x3f)]; the handle may be NULL. *)
Definition x3f_delete (x : option x3f_t) : M unit :=
  emit (E_x3f_delete (bool_decide (x = None :> option x3f_t))).

(** [unlink(path)]; its result is not looked at. *)
Definition unlink (path : string) : M unit :=
  do files <- get_fs;
  (if host_unlink_permitted path then set_fs (delete path files) else ret tt) ;;
  emit (E_unlink path).

(** [rename(old, new)]: 0 when [old] exists and the host grants it, and
    then [new] holds what [old] held; -1 and no change otherwise. *)
Definition rename (oldpath newpath : string) : M Z :=
  do files <- get_fs;
  match files !! oldpath with
  | Some bytes =>
      if host_rename_permitted oldpath newpath then
        set_fs (<[newpath := bytes]> (delete oldpath files)) ;;
        emit (E_rename oldpath newpath 0) ;; ret 0
      else emit (E_rename oldpath newpath (-1)) ;; ret (-1)
  | None => emit (E_rename oldpath newpath (-1)) ;; ret (-1)
  end.

(** Modelled from the spec: the encoders ([x3f_dump_meta_data],
    [x3f_dump_jpeg], [x3f_dump_raw_data], [x3f_dump_raw_data_as_tiff],
    [..._as_dng], [..._as_ppm], [..._as_histogram]) are not part of the
    source file; an encoder call writes to the path it is given, and to
    no other path, and reports success or failure.  What it leaves at the
    path, if anything, is the library's answer. *)
Definition x3f_dump (x : x3f_t) (call : dump_call) (path : string)
    : M x3f_return_t :=
  let '(r, written) := lib_dump x call path in
  do files <- get_fs;
  (if written is Some bytes then set_fs (<[path := bytes]> files) else ret tt) ;;
  emit (E_x3f_dump call path r) ;; ret r.

(** ** [main] *)

(** An uninitialised [char] array of [n] cells. *)
Definition uninitialised (cells : nat -> ascii) (n : nat) : list ascii :=
  map cells (seq 0 n).

(** A block that may leave the enclosing code: [None] is the early exit
    ([return 1] among the options, [goto found_error] in the processing of
    the file), [Some] falls through to the next statement. *)
Definition bind_exit {A B} (m : M (option A)) (k : A -> M (option B))
    : M (option B) :=
  do r <- m;
  match r with
  | Some a => k a
  | None => ret None
  end.

Notation "'try' x <- m ; k" := (bind_exit m (fun x => k))
  (at level 10, x name, m at level 100, k at level 200).

(** Line 242. *)
Definition parse_help (vm : variables_map) : M unit :=
  if opt_help vm then cerr [Desc] else ret tt.

(** Lines 244-261. *)
Definition parse_format (vm : variables_map) (l : locals) : M (option locals) :=
  match opt_format vm with
  | Some fmt =>
      let l := l <: Z_macro in
      match format_assignments fmt with
      | Some al => ret (Some (l <: al))
      | None =>
          cerr [Desc; Endl] ;;
          cerr [Text "Unknown format : "; Text fmt; Endl] ;;
          ret None
      end
  | None => ret (Some l)
  end.

(** Lines 262-275. *)
Definition parse_color (vm : variables_map) (l : locals) : M (option locals) :=
  match opt_color vm with
  | Some spc =>
      match color_assignment spc with
      | Some c => ret (Some (l <: [set_color_encoding c]))
      | None =>
          cerr [Desc; Endl] ;;
          cerr [Text "Unknown color encoding: "; Text spc; Endl] ;;
          ret None
      end
  | None => ret (Some l)
  end.

(** Lines 276-277. *)
Definition parse_verbosity (vm : variables_map) : M unit :=
  (if opt_debug vm then
     set_glob (fun g => Build_globals (Some DEBUG) (auto_legacy_offset g)
                          (legacy_offset g) (max_printed_matrix_elements g))
   else ret tt) ;;
  (if opt_quiet vm then
     set_glob (fun g => Build_globals (Some ERR) (auto_legacy_offset g)
                          (legacy_offset g) (max_printed_matrix_elements g))
   else ret tt).

(** Lines 278-288: the switches that only set locals. *)
Definition parse_switches (vm : variables_map) (l : locals) : locals :=
  let l := if opt_noCrop vm then l <: [set_crop 0] else l in
  let l := if opt_noFixBad vm then l <: [set_fix_bad 0] else l in
  let l := if opt_noDenoise vm then l <: [set_denoise 0] else l in
  let l := if opt_noSGain vm then l <: [set_apply_sgain 0] else l in
  let l := if opt_sgain vm then l <: [set_apply_sgain 1] else l in
  let l := if opt_whiteBalance vm is Some whiteBalance
           then l <: [set_wb (Some (c_str whiteBalance))] else l in
  let l := if opt_compress vm then l <: [set_compress 1] else l in
  let l := if opt_ocl vm then l <: [set_use_opencl 1] else l in
  l.

(** Lines 289-295.  The [int] that [--matrixmax] gives is converted to
    the type of the global it is assigned to. *)
Definition parse_tuning (vm : variables_map) : M unit :=
  (if opt_offset vm is Some offset then
     set_glob (fun g => Build_globals (x3f_printf_level g) 0 offset
                          (max_printed_matrix_elements g))
   else ret tt) ;;
  (if opt_matrixmax vm is Some matrixmax then
     set_glob (fun g => Build_globals (x3f_printf_level g)
                          (auto_legacy_offset g) (legacy_offset g)
                          (to_uint32 matrixmax))
   else ret tt).

(** Lines 296-302. *)
Definition parse_output (vm : variables_map) (l : locals) : M locals :=
  if opt_output vm is Some soutdir then
    let l := l <: [set_outdir (Some (c_str soutdir))] in
    do r <- check_dir (path_of (c_str soutdir));
    (if negb (r =? 0) then cerr [Desc; Endl] else ret tt) ;;
    ret l
  else ret l.

(** Lines 303-307. *)
Definition parse_input (vm : variables_map) (l : locals) : M (option locals) :=
  if opt_input vm is None then
    cerr [Desc; Endl] ;;
    x3f_printf ERR "Could not find outdir %s\n" [ArgS (path_of <$> outdir l)] ;;
    ret None
  else ret (Some l).

(** Lines 242-307: the options are turned into the locals; [None] is
    [return 1]. *)
Definition parse_options (vm : variables_map) : M (option locals) :=
  parse_help vm ;;
  try l <- parse_format vm initial_locals;
  try l <- parse_color vm l;
  parse_verbosity vm ;;
  let l := parse_switches vm l in
  parse_tuning vm ;;
  do l <- parse_output vm l;
  parse_input vm l.

(** [goto found_error]. *)
Definition goto_found_error {A} : M (option A) := ret None.

(** Lines 348-354. *)
Definition load_jpg (l : locals) (infile : string) (x : x3f_t)
    : M (option x3f_t) :=
  if truthy (extract_jpg l) then
    do de <- x3f_get_thumb_jpeg x;
    do '(r, x) <- x3f_load_data x de;
    if negb (is_ok r) then
      x3f_printf ERR "Could not load JPEG thumbnail from %s (%s)\n"
        [ArgS (Some infile); ArgErr r] ;;
      goto_found_error
    else ret (Some x)
  else ret (Some x).

(** Lines 356-372. *)
Definition load_meta (extract_meta : Z) (infile : string) (x : x3f_t)
    : M (option x3f_t) :=
  if truthy extract_meta then
    do DE <- x3f_get_prop x;
    do camf <- x3f_get_camf x;
    do '(r, x) <- x3f_load_data x camf;
    if negb (is_ok r) then
      x3f_printf ERR "Could not load CAMF from %s (%s)\n"
        [ArgS (Some infile); ArgErr r] ;;
      goto_found_error
    else if DE is Some _ then
      do '(r, x) <- x3f_load_data x DE;
      if negb (is_ok r) then
        x3f_printf ERR "Could not load PROP from %s (%s)\n"
          [ArgS (Some infile); ArgErr r] ;;
        goto_found_error
      else ret (Some x)
    else ret (Some x)
  else ret (Some x).

(** Lines 374-387. *)
Definition load_raw (l : locals) (infile : string) (x : x3f_t)
    : M (option x3f_t) :=
  if truthy (extract_raw l) then
    do DE <- x3f_get_raw x;
    if DE is None then
      x3f_printf ERR "Could not find any matching RAW format\n" [] ;;
      goto_found_error
    else
      do '(r, x) <- x3f_load_data x DE;
      if negb (is_ok r) then
        x3f_printf ERR "Could not load RAW from %s (%s)\n"
          [ArgS (Some infile); ArgErr r] ;;
        goto_found_error
      else ret (Some x)
  else ret (Some x).

(** Lines 389-402. *)
Definition load_unconverted_raw (l : locals) (infile : string) (x : x3f_t)
    : M (option x3f_t) :=
  if truthy (extract_unconverted_raw l) then
    do DE <- x3f_get_raw x;
    if DE is None then
      x3f_printf ERR "Could not find any matching RAW format\n" [] ;;
      goto_found_error
    else
      do '(r, x) <- x3f_load_image_block x DE;
      if negb (is_ok r) then
        x3f_printf ERR "Could not load unconverted RAW from %s (%s)\n"
          [ArgS (Some infile); ArgErr r] ;;
        goto_found_error
      else ret (Some x)
  else ret (Some x).

(** Lines 348-402: the loads, in program order. *)
Definition load_sections (l : locals) (extract_meta : Z) (infile : string)
    (x : x3f_t) : M (option x3f_t) :=
  try x <- load_jpg l infile x;
  try x <- load_meta extract_meta infile x;
  try x <- load_raw l infile x;
  load_unconverted_raw l infile x.

(** Lines 415-416. *)
Definition resolve_sgain (l : locals) (x : x3f_t) : Z :=
  if apply_sgain l =? -1
  then Z.b2z (header_version x <? X3F_VERSION_4_0)
  else apply_sgain l.

(** The [switch] of lines 418-459. *)
Definition dispatch (l : locals) (x : x3f_t) (sgain : Z)
    (tmpfile outfile : string) : M x3f_return_t :=
  let wb := path_of <$> wb l in
  match file_type l with
  | META =>
      x3f_printf INFO "Dump META DATA to %s\n" [ArgS (Some outfile)] ;;
      x3f_dump x dump_meta_data tmpfile
  | JPEG =>
      x3f_printf INFO "Dump JPEG to %s\n" [ArgS (Some outfile)] ;;
      x3f_dump x dump_jpeg tmpfile
  | RAW =>
      x3f_printf INFO "Dump RAW block to %s\n" [ArgS (Some outfile)] ;;
      x3f_dump x dump_raw_data tmpfile
  | TIFF =>
      x3f_printf INFO "Dump RAW as TIFF to %s\n" [ArgS (Some outfile)] ;;
      x3f_dump x
        (dump_raw_data_as_tiff (color_encoding l)
           (crop l) (fix_bad l) (denoise l) sgain wb (compress l))
        tmpfile
  | DNG =>
      x3f_printf INFO "Dump RAW as DNG to %s\n" [ArgS (Some outfile)] ;;
      x3f_dump x
        (dump_raw_data_as_dng (fix_bad l) (denoise l) sgain wb (compress l))
        tmpfile
  | PPMP3 | PPMP6 =>
      x3f_printf INFO "Dump RAW as PPM to %s\n" [ArgS (Some outfile)] ;;
      x3f_dump x
        (dump_raw_data_as_ppm (color_encoding l)
           (crop l) (fix_bad l) (denoise l) sgain wb
           (Z.b2z (if file_type l is PPMP6 then true else false)))
        tmpfile
  | HISTOGRAM =>
      x3f_printf INFO "Dump RAW as CSV histogram to %s\n"
        [ArgS (Some outfile)] ;;
      x3f_dump x
        (dump_raw_data_as_histogram (color_encoding l)
           (crop l) (fix_bad l) (denoise l) sgain wb (log_hist l))
        tmpfile
  end.

(** Lines 404-469, from [make_paths] to the [goto clean_up]: the value is
    [errors] at the jump to [clean_up], [None] is [goto found_error]. *)
Definition dump_and_commit (l : locals) (infile : list ascii) (x : x3f_t)
    (errors : Z) : M (option Z) :=
  let tmpfile := uninitialised tmpfile_cells (MAXTMPPATH + 1) in
  let outfile := uninitialised outfile_cells (MAXOUTPATH + 1) in
  emit (E_make_paths (path_of infile) (path_of <$> outdir l)
          (extension (file_type l))) ;;
  do '(err, tmpfile, outfile) <-
    make_paths pf infile (outdir l) (c_str (extension (file_type l)))
      tmpfile outfile;
  if truthy err then
    x3f_printf ERR "Too large outfile path for infile %s and outdir %s\n"
      [ArgS (Some (path_of infile)); ArgS (path_of <$> outdir l)] ;;
    goto_found_error
  else
    unlink (path_of tmpfile) ;;
    let sgain := resolve_sgain l x in
    do ret_dump <- dispatch l x sgain (path_of tmpfile) (path_of outfile);
    if negb (is_ok ret_dump) then
      x3f_printf ERR "Could not dump to %s: %s\n"
        [ArgS (Some (path_of tmpfile)); ArgErr ret_dump] ;;
      ret (Some (errors + 1))
    else
      do r <- rename (path_of tmpfile) (path_of outfile);
      if negb (r =? 0) then
        x3f_printf ERR "Could not rename %s to %s\n"
          [ArgS (Some (path_of tmpfile)); ArgS (Some (path_of outfile))] ;;
        ret (Some (errors + 1))
      else ret (Some errors).

(** The label [clean_up], lines 477-482. *)
Definition clean_up (x3f : option x3f_t) (f_in : option (list Byte.byte))
    (errors : Z) : M Z :=
  x3f_delete x3f ;;
  (if f_in is Some _ then fclose else ret tt) ;;
  ret errors.

(** The label [found_error], lines 473-475, falls through to [clean_up]. *)
Definition found_error (x3f : option x3f_t) (f_in : option (list Byte.byte))
    (errors : Z) : M Z :=
  clean_up x3f f_in (errors + 1).

(** Lines 322-482: the processing of the input file; the value is
    [errors] after [clean_up]. *)
Definition extract_file (l : locals) (extract_meta : Z) (ifile : string)
    (errors : Z) : M Z :=
  let infile := c_str ifile in
  do f_in <- fopen (path_of infile) "rb";
  let x3f : option x3f_t := None in
  match f_in with
  | None =>
      x3f_printf ERR "Could not open infile %s\n"
        [ArgS (Some (path_of infile))] ;;
      found_error x3f f_in errors
  | Some stream =>
      x3f_printf INFO "READ THE X3F FILE %s\n"
        [ArgS (Some (path_of infile))] ;;
      do x3f <- x3f_new_from_file stream;
      match x3f with
      | None =>
          x3f_printf ERR "Could not read infile %s\n"
            [ArgS (Some (path_of infile))] ;;
          found_error x3f f_in errors
      | Some x =>
          do r <- (try x <- load_sections l extract_meta (path_of infile) x;
                   dump_and_commit l infile x errors);
          match r with
          | None => found_error x3f f_in errors
          | Some errors => clean_up x3f f_in errors
          end
      end
  end.

(** [main], lines 201-493; the value is the exit status. *)
Definition main (vm : variables_map) : M Z :=
  let files := 0 in
  let errors := 0 in
  x3f_printf INFO "X3F TOOLS VERSION = %s\n\n" [ArgS (Some version)] ;;
  setvbuf Stdout ;;
  setvbuf Stderr ;;
  do l <- parse_options vm;
  match l with
  | None => ret 1
  | Some l =>
      x3f_set_use_opencl (use_opencl l) ;;
      let extract_meta := compute_extract_meta l in
      (* [vm["input"].as<std::string>()] throws when the option is absent *)
      do ifile <- access (opt_input vm);
      let files := files + 1 in
      do errors <- extract_file l extract_meta ifile errors;
      (if files =? 0 then
         x3f_printf ERR "No files given\n" [] ;;
         fprintf Stderr Desc_text
       else ret tt) ;;
      x3f_printf INFO "Files processed: %d\terrors: %d\n"
        [ArgD files; ArgD errors] ;;
      ret (Z.b2z (0 <? errors))
  end.

End Program.

(** * Specification-level definitions *)

Definition log (w : world) (evs : list event) : world :=
  {| fs := fs w; trace := trace w ++ evs; glob := glob w |}.

Ltac msimpl :=
  cbv beta iota delta [bind ret access undefined]; simpl.

Ltac list_norm := repeat (progress (rewrite <- ?app_assoc; simpl)).

Definition nonnul (s : list ascii) : Prop := Forall (fun c => is_nul c = false) s.

(** The buffer [buf] of [cap + 1] cells holds the string [s]. *)
Definition holds (buf : list ascii) (cap : nat) (s : list ascii) : Prop :=
  nonnul s /\ length buf = S cap /\ exists r, buf = s ++ NUL :: r.

Definition dbg_cpy : event := E_x3f_printf DEBUG "safecpy: String too large\n" [].
Definition dbg_cat : event := E_x3f_printf DEBUG "safecat: String too large\n" [].

Definition is_debug (e : event) : Prop :=
  match e with E_x3f_printf DEBUG _ _ => True | _ => False end.

(** ** The path builder, as the specification words it *)

(** The separator characters of the platform. *)
Definition seps_of (p : platform) : list ascii := list_ascii_of_string (pathseps p).

Definition is_sep (seps : list ascii) (c : ascii) : bool :=
  existsb (Ascii.eqb c) seps.

(** The offset just behind the last separator of [s]; 0 without one. *)
Fixpoint after_last_sep (seps : list ascii) (s : list ascii) : nat :=
  match s with
  | [] => 0%nat
  | c :: s' =>
      match after_last_sep seps s' with
      | S k => S (S k)
      | O => if is_sep seps c then 1%nat else 0%nat
      end
  end.

(** The base name: what follows the last separator. *)
Definition base_name (p : platform) (s : list ascii) : list ascii :=
  drop (after_last_sep (seps_of p) s) s.

Definition ends_in_sep (p : platform) (d : list ascii) : bool :=
  match last d with
  | Some c => is_sep (seps_of p) c
  | None => false
  end.

(** The final path for a directory that is given and not empty. *)
Definition final_in_dir (p : platform) (inpath dir ext : list ascii) : list ascii :=
  dir ++ (if ends_in_sep p dir then [] else list_ascii_of_string (PATHSEP p))
      ++ base_name p inpath ++ ext.

(** The final path [make_paths] builds: NULL and the empty string both
    count as no directory. *)
Definition final_path (p : platform) (inpath : list ascii)
    (outdir : option (list ascii)) (ext : list ascii) : list ascii :=
  match outdir with
  | Some (c :: d) => final_in_dir p inpath (c :: d) ext
  | _ => inpath ++ ext
  end.

(** The offset of the last [c] in [s]. *)
Fixpoint last_index (c : ascii) (s : list ascii) : option nat :=
  match s with
  | [] => None
  | a :: s' =>
      match last_index c s' with
      | Some i => Some (S i)
      | None => if Ascii.eqb a c then Some 0%nat else None
      end
  end.

(** One round of the separator loop of [make_paths]. *)
Definition advance (s : list ascii) (ptr : nat) (sep : ascii) : nat :=
  match last_index sep s with
  | Some p => if (ptr <? p + 1)%nat then (p + 1)%nat else ptr
  | None => ptr
  end.

(** The common tail of [make_paths], from the extension on. *)
Definition make_paths_tail (ext tmppath : list ascii) (err : Z)
    (outpath : list ascii) : M (Z * list ascii * list ascii) :=
  do '(r, outpath) <- safecat outpath ext MAXOUTPATH;
  let err := err + r in
  do '(r, tmppath) <- safecpy tmppath outpath MAXTMPPATH;
  let err := err + r in
  do '(r, tmppath) <- safecat tmppath (c_str ".tmp") MAXTMPPATH;
  let err := err + r in
  ret (err, tmppath, outpath).

(** A piece of memory that starts with a terminated string. *)
Definition terminated (m : list ascii) : Prop :=
  exists s r, m = s ++ NUL :: r /\ nonnul s.

Definition nul_free (s : string) : Prop := nonnul (list_ascii_of_string s).

(** The final path, on strings. *)
Definition final_path_of (p : platform) (inpath : string)
    (outdir : option string) (ext : string) : string :=
  string_of_list_ascii
    (final_path p (list_ascii_of_string inpath)
       (list_ascii_of_string <$> outdir) (list_ascii_of_string ext)).

(** ** What the option part computes and prints *)

(** The world after more events and with other globals. *)
Definition upd (w : world) (evs : list event) (g : globals) : world :=
  {| fs := fs w; trace := trace w ++ evs; glob := g |}.

(** [m] does not look at the world: it returns [v], prints [evs] and may
    set globals. *)
Definition denotes {A} (m : M A) (v : A) (evs : list event) : Prop :=
  forall w, exists g, m w = Some (v, upd w evs g).

Definition help_events (vm : variables_map) : list event :=
  if opt_help vm then [E_cerr [Desc]] else [].

Definition format_result (vm : variables_map) (l : locals) : option locals :=
  match opt_format vm with
  | Some fmt => (fun al => l <: Z_macro <: al) <$> format_assignments fmt
  | None => Some l
  end.

Definition format_events (vm : variables_map) : list event :=
  match opt_format vm with
  | Some fmt =>
      if format_assignments fmt is None
      then [E_cerr [Desc; Endl];
            E_cerr [Text "Unknown format : "; Text fmt; Endl]]
      else []
  | None => []
  end.

Definition color_result (vm : variables_map) (l : locals) : option locals :=
  match opt_color vm with
  | Some spc => (fun c => l <: [set_color_encoding c]) <$> color_assignment spc
  | None => Some l
  end.

Definition color_events (vm : variables_map) : list event :=
  match opt_color vm with
  | Some spc =>
      if color_assignment spc is None
      then [E_cerr [Desc; Endl];
            E_cerr [Text "Unknown color encoding: "; Text spc; Endl]]
      else []
  | None => []
  end.

Definition output_result (vm : variables_map) (l : locals) : locals :=
  if opt_output vm is Some soutdir
  then l <: [set_outdir (Some (c_str soutdir))] else l.

Definition input_events (vm : variables_map) (l : locals) : list event :=
  if opt_input vm is None
  then [E_cerr [Desc; Endl];
        E_x3f_printf ERR "Could not find outdir %s\n" [ArgS (path_of <$> outdir l)]]
  else [].

(** The locals at line 308; [None] when [main] has returned 1. *)
Definition parse_result (vm : variables_map) : option locals :=
  l ← format_result vm initial_locals;
  l ← color_result vm l;
  if opt_input vm is None then None
  else Some (output_result vm (parse_switches vm l)).

Section OptionEvents.
Context `{Host}.

(** The value of [check_dir]. *)
Definition check_dir_result (path : string) : Z :=
  match host_stat path with
  | Some true => 0
  | Some false => -1
  | None => -1
  end.

Definition output_events (vm : variables_map) : list event :=
  if opt_output vm is Some soutdir then
    let path := path_of (c_str soutdir) in
    E_stat path (if host_stat path is Some _ then 0 else -1)
    :: (if check_dir_result path =? 0 then [] else [E_cerr [Desc; Endl]])
  else [].

(** What lines 242-307 print. *)
Definition parse_events (vm : variables_map) : list event :=
  help_events vm ++ format_events vm ++
  match format_result vm initial_locals with
  | None => []
  | Some l =>
      color_events vm ++
      match color_result vm l with
      | None => []
      | Some l =>
          output_events vm
          ++ input_events vm (output_result vm (parse_switches vm l))
      end
  end.

End OptionEvents.

(** ** The load orchestrator, as the specification words it *)

Variant section := Preview | Metadata | RawDecoded | RawUndecoded.

(** The fixed order of the sections. *)
Definition fixed_order : list section :=
  [Preview; Metadata; RawDecoded; RawUndecoded].

(** Whether the plan asks for a section. *)
Definition needed (l : locals) (extract_meta : Z) (sec : section) : bool :=
  match sec with
  | Preview => truthy (extract_jpg l)
  | Metadata => truthy extract_meta
  | RawDecoded => truthy (extract_raw l)
  | RawUndecoded => truthy (extract_unconverted_raw l)
  end.

(** The sections a plan asks for, in the fixed order. *)
Definition plan (l : locals) (extract_meta : Z) : list section :=
  List.filter (needed l extract_meta) fixed_order.

Section Orchestrator.
Context `{X3fLib}.

(** A load that failed prints its message; the handle state is kept only
    when the load succeeded. *)
Definition loaded (r : x3f_return_t) (x : x3f_t) (fmt : string)
    (infile : string) : list event * option x3f_t :=
  if is_ok r then ([], Some x)
  else ([E_x3f_printf ERR fmt [ArgS (Some infile); ArgErr r]], None).

(** The raw section: without a matching directory entry nothing is
    loaded. *)
Definition load_raw_with
    (load : x3f_t -> option directory_entry -> x3f_return_t * x3f_t)
    (record : option directory_entry -> x3f_return_t -> event)
    (fmt infile : string) (x : x3f_t) : list event * option x3f_t :=
  let de := lib_get_raw x in
  match de with
  | None =>
      ([E_x3f_get_raw None;
        E_x3f_printf ERR "Could not find any matching RAW format\n" []], None)
  | Some _ =>
      let '(r, x') := load x de in
      let '(msg, res) := loaded r x' fmt infile in
      ([E_x3f_get_raw de; record de r] ++ msg, res)
  end.

(** The calls one section costs, and the handle state after it; [None]
    when the section failed. *)
Definition load_one (sec : section) (infile : string) (x : x3f_t)
    : list event * option x3f_t :=
  match sec with
  | Preview =>
      let de := lib_get_thumb_jpeg x in
      let '(r, x') := lib_load_data x de in
      let '(msg, res) :=
        loaded r x' "Could not load JPEG thumbnail from %s (%s)\n" infile in
      ([E_x3f_get_thumb_jpeg de; E_x3f_load_data de r] ++ msg, res)
  | Metadata =>
      let prop := lib_get_prop x in
      let camf := lib_get_camf x in
      let '(r, x') := lib_load_data x camf in
      let '(msg, res) := loaded r x' "Could not load CAMF from %s (%s)\n" infile in
      let calls := [E_x3f_get_prop prop; E_x3f_get_camf camf;
                    E_x3f_load_data camf r] in
      match res, prop with
      | Some x', Some _ =>
          (* the property block is present: it is loaded too *)
          let '(r, x'') := lib_load_data x' prop in
          let '(msg, res) :=
            loaded r x'' "Could not load PROP from %s (%s)\n" infile in
          (calls ++ E_x3f_load_data prop r :: msg, res)
      | _, _ => (calls ++ msg, res)
      end
  | RawDecoded =>
      load_raw_with lib_load_data E_x3f_load_data
        "Could not load RAW from %s (%s)\n" infile x
  | RawUndecoded =>
      load_raw_with lib_load_image_block E_x3f_load_image_block
        "Could not load unconverted RAW from %s (%s)\n" infile x
  end.

(** The sections are loaded one after the other; the first failure stops
    the sequence. *)
Fixpoint orchestrate (secs : list section) (infile : string) (x : x3f_t)
    : list event * option x3f_t :=
  match secs with
  | [] => ([], Some x)
  | sec :: rest =>
      let '(evs, res) := load_one sec infile x in
      match res with
      | None => (evs, None)
      | Some x' =>
          let '(evs', res') := orchestrate rest infile x' in
          (evs ++ evs', res')
      end
  end.

(** A section that is loaded only when the plan asks for it, and one
    step followed by another. *)
Definition load_if (b : bool) (sec : section) (infile : string) (x : x3f_t)
    : list event * option x3f_t :=
  if b then load_one sec infile x else ([], Some x).

Definition and_then (f g : x3f_t -> list event * option x3f_t) (x : x3f_t)
    : list event * option x3f_t :=
  match (f x).2 with
  | Some x' => ((f x).1 ++ (g x').1, (g x').2)
  | None => ((f x).1, None)
  end.

End Orchestrator.

(** ** The processing of the file, exit path by exit path *)

Definition dump_message (t : output_file_type_t) : string :=
  match t with
  | META => "Dump META DATA to %s\n"
  | JPEG => "Dump JPEG to %s\n"
  | RAW => "Dump RAW block to %s\n"
  | TIFF => "Dump RAW as TIFF to %s\n"
  | DNG => "Dump RAW as DNG to %s\n"
  | PPMP3 | PPMP6 => "Dump RAW as PPM to %s\n"
  | HISTOGRAM => "Dump RAW as CSV histogram to %s\n"
  end.

(** The encoder call of the [switch], given the resolved spatial gain. *)
Definition dump_call_of (l : locals) (sgain : Z) : dump_call :=
  let wb := path_of <$> wb l in
  match file_type l with
  | META => dump_meta_data
  | JPEG => dump_jpeg
  | RAW => dump_raw_data
  | TIFF =>
      dump_raw_data_as_tiff (color_encoding l) (crop l) (fix_bad l) (denoise l)
        sgain wb (compress l)
  | DNG => dump_raw_data_as_dng (fix_bad l) (denoise l) sgain wb (compress l)
  | PPMP3 =>
      dump_raw_data_as_ppm (color_encoding l) (crop l) (fix_bad l) (denoise l)
        sgain wb 0
  | PPMP6 =>
      dump_raw_data_as_ppm (color_encoding l) (crop l) (fix_bad l) (denoise l)
        sgain wb 1
  | HISTOGRAM =>
      dump_raw_data_as_histogram (color_encoding l) (crop l) (fix_bad l)
        (denoise l) sgain wb (log_hist l)
  end.

(** The world with other files and more events. *)
Definition moved (w : world) (files : gmap string (list Byte.byte))
    (evs : list event) : world :=
  {| fs := files; trace := trace w ++ evs; glob := glob w |}.

Variant exit_path :=
| OpenFailure | ReadFailure | LoadFailure | PathOverflow
| EncodeFailure | RenameFailure | Success.

Section FileRuns.
Context `{Host} `{X3fLib}.

(** The files after [unlink(tmp)], and after the encoder call that
    follows it. *)
Definition after_unlink (files : gmap string (list Byte.byte)) (tmp : string)
    : gmap string (list Byte.byte) :=
  if host_unlink_permitted tmp then delete tmp files else files.

Definition after_dump (files : gmap string (list Byte.byte)) (x : x3f_t)
    (call : dump_call) (tmp : string) : gmap string (list Byte.byte) :=
  match (lib_dump x call tmp).2 with
  | Some bytes => <[tmp := bytes]> (after_unlink files tmp)
  | None => after_unlink files tmp
  end.

(** What [rename(tmp, out)] finds to move, if it is granted. *)
Definition renamed (files : gmap string (list Byte.byte)) (tmp out : string)
    : option (list Byte.byte) :=
  if host_rename_permitted tmp out then files !! tmp else None.

(** The events up to the moment the handle exists. *)
Definition opened_events (p : string) : list event :=
  [E_fopen p "rb" true;
   E_x3f_printf INFO "READ THE X3F FILE %s\n" [ArgS (Some p)];
   E_x3f_new_from_file true].

(** The events from [unlink] to the return of the encoder. *)
Definition dump_events (l : locals) (x : x3f_t) (tmp out : string) : list event :=
  let call := dump_call_of l (resolve_sgain l x) in
  [E_unlink tmp;
   E_x3f_printf INFO (dump_message (file_type l)) [ArgS (Some out)];
   E_x3f_dump call tmp (lib_dump x call tmp).1].

Definition paths_call (l : locals) (ifile : string) : event :=
  E_make_paths (path_of (c_str ifile)) (path_of <$> outdir l)
    (extension (file_type l)).

(** [file_run l em ifile files path evs n files']: the processing of
    [ifile] under the locals [l], started with the files [files], may
    leave by [path], having made the calls [evs], added [n] to
    [errors], and left the files [files']. *)
Inductive file_run (l : locals) (em : Z) (ifile : string)
    (files : gmap string (list Byte.byte))
    : exit_path -> list event -> Z -> gmap string (list Byte.byte) -> Prop :=
| run_open_failure :
    let p := path_of (c_str ifile) in
    (if host_readable p then files !! p else None) = None ->
    file_run l em ifile files OpenFailure
      [E_fopen p "rb" false;
       E_x3f_printf ERR "Could not open infile %s\n" [ArgS (Some p)];
       E_x3f_delete true]
      1 files
| run_read_failure bytes :
    let p := path_of (c_str ifile) in
    (if host_readable p then files !! p else None) = Some bytes ->
    lib_new_from_file bytes = None ->
    file_run l em ifile files ReadFailure
      [E_fopen p "rb" true;
       E_x3f_printf INFO "READ THE X3F FILE %s\n" [ArgS (Some p)];
       E_x3f_new_from_file false;
       E_x3f_printf ERR "Could not read infile %s\n" [ArgS (Some p)];
       E_x3f_delete true; E_fclose]
      1 files
| run_load_failure bytes x levs :
    let p := path_of (c_str ifile) in
    (if host_readable p then files !! p else None) = Some bytes ->
    lib_new_from_file bytes = Some x ->
    orchestrate (plan l em) p x = (levs, None) ->
    file_run l em ifile files LoadFailure
      (opened_events p ++ levs ++ [E_x3f_delete false; E_fclose])
      1 files
| run_path_overflow bytes x levs x' w0 err tmpb outb dbg :
    let p := path_of (c_str ifile) in
    (if host_readable p then files !! p else None) = Some bytes ->
    lib_new_from_file bytes = Some x ->
    orchestrate (plan l em) p x = (levs, Some x') ->
    make_paths pf (c_str ifile) (outdir l) (c_str (extension (file_type l)))
      (uninitialised tmpfile_cells (MAXTMPPATH + 1))
      (uninitialised outfile_cells (MAXOUTPATH + 1)) w0
    = Some ((err, tmpb, outb), log w0 dbg) ->
    err <> 0 ->
    file_run l em ifile files PathOverflow
      (opened_events p ++ levs ++ paths_call l ifile :: dbg
       ++ [E_x3f_printf ERR
             "Too large outfile path for infile %s and outdir %s\n"
             [ArgS (Some p); ArgS (path_of <$> outdir l)];
           E_x3f_delete false; E_fclose])
      1 files
| run_encode_failure bytes x levs x' w0 tmpb outb :
    let p := path_of (c_str ifile) in
    let tmp := path_of tmpb in
    let out := path_of outb in
    let call := dump_call_of l (resolve_sgain l x') in
    (if host_readable p then files !! p else None) = Some bytes ->
    lib_new_from_file bytes = Some x ->
    orchestrate (plan l em) p x = (levs, Some x') ->
    make_paths pf (c_str ifile) (outdir l) (c_str (extension (file_type l)))
      (uninitialised tmpfile_cells (MAXTMPPATH + 1))
      (uninitialised outfile_cells (MAXOUTPATH + 1)) w0
    = Some ((0, tmpb, outb), w0) ->
    is_ok (lib_dump x' call tmp).1 = false ->
    file_run l em ifile files EncodeFailure
      (opened_events p ++ levs ++ paths_call l ifile :: dump_events l x' tmp out
       ++ [E_x3f_printf ERR "Could not dump to %s: %s\n"
             [ArgS (Some tmp); ArgErr (lib_dump x' call tmp).1];
           E_x3f_delete false; E_fclose])
      1 (after_dump files x' call tmp)
| run_rename_failure bytes x levs x' w0 tmpb outb :
    let p := path_of (c_str ifile) in
    let tmp := path_of tmpb in
    let out := path_of outb in
    let call := dump_call_of l (resolve_sgain l x') in
    (if host_readable p then files !! p else None) = Some bytes ->
    lib_new_from_file bytes = Some x ->
    orchestrate (plan l em) p x = (levs, Some x') ->
    make_paths pf (c_str ifile) (outdir l) (c_str (extension (file_type l)))
      (uninitialised tmpfile_cells (MAXTMPPATH + 1))
      (uninitialised outfile_cells (MAXOUTPATH + 1)) w0
    = Some ((0, tmpb, outb), w0) ->
    is_ok (lib_dump x' call tmp).1 = true ->
    renamed (after_dump files x' call tmp) tmp out = None ->
    file_run l em ifile files RenameFailure
      (opened_events p ++ levs ++ paths_call l ifile :: dump_events l x' tmp out
       ++ [E_rename tmp out (-1);
           E_x3f_printf ERR "Could not rename %s to %s\n"
             [ArgS (Some tmp); ArgS (Some out)];
           E_x3f_delete false; E_fclose])
      1 (after_dump files x' call tmp)
| run_success bytes x levs x' w0 tmpb outb written :
    let p := path_of (c_str ifile) in
    let tmp := path_of tmpb in
    let out := path_of outb in
    let call := dump_call_of l (resolve_sgain l x') in
    (if host_readable p then files !! p else None) = Some bytes ->
    lib_new_from_file bytes = Some x ->
    orchestrate (plan l em) p x = (levs, Some x') ->
    make_paths pf (c_str ifile) (outdir l) (c_str (extension (file_type l)))
      (uninitialised tmpfile_cells (MAXTMPPATH + 1))
      (uninitialised outfile_cells (MAXOUTPATH + 1)) w0
    = Some ((0, tmpb, outb), w0) ->
    is_ok (lib_dump x' call tmp).1 = true ->
    renamed (after_dump files x' call tmp) tmp out = Some written ->
    file_run l em ifile files Success
      (opened_events p ++ levs ++ paths_call l ifile :: dump_events l x' tmp out
       ++ [E_rename tmp out 0; E_x3f_delete false; E_fclose])
      0 (<[out := written]> (delete tmp (after_dump files x' call tmp))).

End FileRuns.

(** ** The whole run *)

Section WholeRun.
Context `{Host} `{X3fLib}.

(** What [main] prints before it looks at the options. *)
Definition intro_events : list event :=
  [E_x3f_printf INFO "X3F TOOLS VERSION = %s\n\n" [ArgS (Some version)];
   E_setvbuf Stdout; E_setvbuf Stderr].

(** The last line [main] prints. *)
Definition summary (files errors : Z) : event :=
  E_x3f_printf INFO "Files processed: %d\terrors: %d\n" [ArgD files; ArgD errors].

End WholeRun.

(** ** The plan resolver, as the specification words it *)

(** The table of section 4.2, one row per format token: the output kind
    and whether the preview, the decoded raw data and the undecoded raw
    block are needed. *)
Definition format_table : list (string * (output_file_type_t * (Z * Z * Z))) :=
  [("meta", (META, (0, 0, 0)));
   ("jpg", (JPEG, (1, 0, 0)));
   ("raw", (RAW, (0, 0, 1)));
   ("tiff", (TIFF, (0, 1, 0)));
   ("dng", (DNG, (0, 1, 0)));
   ("ppm-ascii", (PPMP3, (0, 1, 0)));
   ("ppm", (PPMP6, (0, 1, 0)));
   ("histogram", (HISTOGRAM, (0, 1, 0)));
   ("loghist", (HISTOGRAM, (0, 1, 0)))].

(** The color tokens of section 6. *)
Definition color_table : list (string * x3f_color_encoding_t) :=
  [("none", NONE); ("sRGB", SRGB); ("AdobeRGB", ARGB); ("ProPhotoRGB", PPRGB);
   ("unprocessed", UNPROCESSED); ("qtop", QTOP)].

Fixpoint table_lookup {V} (key : string) (t : list (string * V)) : option V :=
  match t with
  | [] => None
  | (k, v) :: t' => if String.eqb key k then Some v else table_lookup key t'
  end.

Arguments table_lookup : simpl never.

(** Calls on the container or on the file system: everything but
    printing, buffering, the OpenCL switch, the look at the output
    directory and the path builder. *)
Definition touches_file (e : event) : bool :=
  match e with
  | E_x3f_printf _ _ _ | E_cerr _ | E_setvbuf _ | E_stat _ _
  | E_x3f_set_use_opencl _ | E_fprintf _ _ | E_make_paths _ _ _ => false
  | _ => true
  end.

(** A load call that reported a failure. *)
Definition failed_load (e : event) : bool :=
  match e with
  | E_x3f_load_data _ r | E_x3f_load_image_block _ r => negb (is_ok r)
  | _ => false
  end.

(** After a failed load nothing follows but its one error message. *)
Fixpoint fail_fast (evs : list event) : Prop :=
  match evs with
  | [] => True
  | e :: rest =>
      (failed_load e = true ->
       exists fmt args, rest = [E_x3f_printf ERR fmt args])
      /\ fail_fast rest
  end.

(** ** Kinds of events *)

(** The calls of the load part: a look-up of a directory entry, a load,
    or an error message. *)
Definition loads_only (e : event) : bool :=
  match e with
  | E_x3f_get_thumb_jpeg _ | E_x3f_get_prop _ | E_x3f_get_camf _
  | E_x3f_get_raw _ | E_x3f_load_data _ _ | E_x3f_load_image_block _ _
  | E_x3f_printf ERR _ _ => true
  | _ => false
  end.


(** The calls that change files: [unlink], the encoders, [rename]. *)
Definition changes_files (e : event) : bool :=
  match e with
  | E_unlink _ | E_x3f_dump _ _ _ | E_rename _ _ _ => true
  | _ => false
  end.

(** The two release calls. *)
Definition releases (e : event) : bool :=
  match e with
  | E_x3f_delete _ | E_fclose => true
  | _ => false
  end.

Definition is_make_paths (e : event) : bool :=
  match e with
  | E_make_paths _ _ _ => true
  | _ => false
  end.

(** The spatial gain argument of an encoder call, for the encoders that
    take one. *)
Definition sgain_argument (c : dump_call) : option Z :=
  match c with
  | dump_meta_data | dump_jpeg | dump_raw_data => None
  | dump_raw_data_as_tiff _ _ _ _ sgain _ _
  | dump_raw_data_as_dng _ _ sgain _ _
  | dump_raw_data_as_ppm _ _ _ _ sgain _ _
  | dump_raw_data_as_histogram _ _ _ _ sgain _ _ => Some sgain
  end.

(** ** The commit protocol, exit path by exit path *)

Section CommitOutcome.
Context `{Host} `{X3fLib}.

(** Either the processing left before a final path was built, and then
    no file was touched; or the temp file was unlinked, the encoder
    called on it, and the run ended by one of the three last exit
    paths.  [staged] are the files as the encoder left them. *)
Definition commit_outcome (l : locals)
    (files : gmap string (list Byte.byte)) (path : exit_path)
    (evs : list event) (n : Z) (files' : gmap string (list Byte.byte)) : Prop :=
  (Forall (fun e => changes_files e = false) evs /\ files' = files /\ n = 1
   /\ In path [OpenFailure; ReadFailure; LoadFailure; PathOverflow])
  \/ exists x' tmp out pre post,
       let call := dump_call_of l (resolve_sgain l x') in
       let r := (lib_dump x' call tmp).1 in
       let staged := after_dump files x' call tmp in
       tmp = out +:+ ".tmp"
       /\ evs = pre ++ E_unlink tmp
                  :: E_x3f_printf INFO (dump_message (file_type l)) [ArgS (Some out)]
                  :: E_x3f_dump call tmp r :: post
       /\ Forall (fun e => changes_files e = false) pre
       /\ staged !! out = files !! out
       /\ match path with
          | Success =>
              is_ok r = true /\ n = 0
              /\ post = [E_rename tmp out 0; E_x3f_delete false; E_fclose]
              /\ exists written,
                   staged !! tmp = Some written
                   /\ files' = <[out := written]> (delete tmp staged)
                   /\ files' !! out = Some written /\ files' !! tmp = None
          | RenameFailure =>
              is_ok r = true /\ n = 1
              /\ post = [E_rename tmp out (-1);
                         E_x3f_printf ERR "Could not rename %s to %s\n"
                           [ArgS (Some tmp); ArgS (Some out)];
                         E_x3f_delete false; E_fclose]
              /\ files' = staged
          | EncodeFailure =>
              is_ok r = false /\ n = 1
              /\ post = [E_x3f_printf ERR "Could not dump to %s: %s\n"
                           [ArgS (Some tmp); ArgErr r];
                         E_x3f_delete false; E_fclose]
              /\ files' = staged
          | _ => False
          end.

End CommitOutcome.



(** ** Definitions for the further properties *)

(** [m] returns [v], prints [evs] and changes the globals by [f],
    whatever the world. *)
Definition performs {A} (m : M A) (v : A) (evs : list event)
    (f : globals -> globals) : Prop :=
  forall w, m w = Some (v, upd w evs (f (glob w))).

(** [m] leaves the globals of the library alone. *)
Definition keeps_glob {A} (m : M A) : Prop :=
  forall w a w', m w = Some (a, w') -> glob w' = glob w.

(** Whether the format and the color token, if given, are among those
    the two [if] chains know. *)
Definition tokens_accepted (vm : variables_map) : bool :=
  (if opt_format vm is Some fmt
   then (if format_assignments fmt is Some _ then true else false) else true)
  && (if opt_color vm is Some spc
      then (if color_assignment spc is Some _ then true else false) else true).

(** The globals as the options ask for them: [--quiet] wins over
    [--debug]; [--offset] also switches the automatic offset off; the
    value of [--matrixmax] is taken modulo 2^32. *)
Definition options_globals (vm : variables_map) (g : globals) : globals := {|
  x3f_printf_level :=
    if opt_quiet vm then Some ERR
    else if opt_debug vm then Some DEBUG else x3f_printf_level g;
  auto_legacy_offset :=
    if opt_offset vm is Some _ then 0 else auto_legacy_offset g;
  legacy_offset := default (legacy_offset g) (opt_offset vm);
  max_printed_matrix_elements :=
    default (max_printed_matrix_elements g) (to_uint32 <$> opt_matrixmax vm)
|}.

(** An error report: a message of level ERR, or a line on [std::cerr]
    that starts with a text of the program. *)
Definition is_error_report (e : event) : bool :=
  match e with
  | E_x3f_printf ERR _ _ => true
  | E_cerr (Text _ :: _) => true
  | _ => false
  end.

(** The two calls of the branch for [files == 0]. *)
Definition no_files_report (e : event) : bool :=
  match e with
  | E_x3f_printf ERR fmt _ => String.eqb fmt "No files given\n"
  | E_fprintf _ _ => true
  | _ => false
  end.

(** Two command lines that ask for the same files, the same format and
    the same settings of the library. *)
Definition same_request (vm vm' : variables_map) : Prop :=
  opt_help vm = opt_help vm' /\ opt_output vm = opt_output vm'
  /\ opt_debug vm = opt_debug vm' /\ opt_quiet vm = opt_quiet vm'
  /\ opt_format vm = opt_format vm' /\ opt_ocl vm = opt_ocl vm'
  /\ opt_offset vm = opt_offset vm' /\ opt_matrixmax vm = opt_matrixmax vm'
  /\ opt_input vm = opt_input vm'.

(** Two command lines with the same switches for the processing of the
    raw data, the crop apart. *)
Definition same_processing (vm vm' : variables_map) : Prop :=
  opt_noDenoise vm = opt_noDenoise vm' /\ opt_noSGain vm = opt_noSGain vm'
  /\ opt_sgain vm = opt_sgain vm' /\ opt_noFixBad vm = opt_noFixBad vm'
  /\ opt_whiteBalance vm = opt_whiteBalance vm'
  /\ opt_compress vm = opt_compress vm'.

(** How many error reports a run made. *)
Definition error_reports (evs : list event) : nat :=
  length (List.filter is_error_report evs).

(** The world with another record of calls. *)
Definition with_trace (t : list event) (w : world) : world :=
  {| fs := fs w; trace := t; glob := glob w |}.

(** What [m] does is the same whatever was recorded before: from given
    files and globals it is undefined on every record, or it returns the
    same value, leaves the same files and globals and adds the same
    calls to every record. *)
Definition framed {A} (m : M A) : Prop :=
  forall w,
    (forall t, m (with_trace t w) = None)
    \/ exists a f evs g,
         forall t, m (with_trace t w)
                   = Some (a, {| fs := f; trace := t ++ evs; glob := g |}).

(** The command line with [--help] added. *)
Definition with_help (vm : variables_map) : variables_map := {|
  opt_help := true; opt_output := opt_output vm; opt_debug := opt_debug vm;
  opt_quiet := opt_quiet vm; opt_format := opt_format vm;
  opt_color := opt_color vm; opt_noCrop := opt_noCrop vm;
  opt_noDenoise := opt_noDenoise vm; opt_noSGain := opt_noSGain vm;
  opt_sgain := opt_sgain vm; opt_noFixBad := opt_noFixBad vm;
  opt_whiteBalance := opt_whiteBalance vm; opt_compress := opt_compress vm;
  opt_ocl := opt_ocl vm; opt_offset := opt_offset vm;
  opt_matrixmax := opt_matrixmax vm; opt_input := opt_input vm
|}.


(** * An example environment *)

(** A POSIX host without directories, that grants every access, and
    whose stack holds 'x' where [tmpfile] will be and zeroes where
    [outfile] will be. *)
Definition example_host : Host := {|
  pf := Posix;
  host_stat := fun _ => None;
  host_readable := fun _ => true;
  host_unlink_permitted := fun _ => true;
  host_rename_permitted := fun _ _ => true;
  tmpfile_cells := fun _ => "x"%char;
  outfile_cells := fun _ => NUL
|}.

(** A library whose handle state is the header version: every file that
    is not empty is a version 3.0 container with a thumbnail, a CAMF
    block and raw data but without property block; every load and every
    encoder succeeds, and an encoder leaves one byte. *)
Definition example_lib : X3fLib := {|
  x3f_t := Z;
  version := "0.0";
  X3F_VERSION_4_0 := 262144;
  header_version := fun x => x;
  lib_new_from_file := fun bytes => if bytes is [] then None else Some 196608;
  lib_get_thumb_jpeg := fun _ => Some 0%nat;
  lib_get_prop := fun _ => None;
  lib_get_camf := fun _ => Some 1%nat;
  lib_get_raw := fun _ => Some 2%nat;
  lib_load_data := fun x _ => (X3F_OK, x);
  lib_load_image_block := fun x _ => (X3F_OK, x);
  lib_dump := fun _ _ _ => (X3F_OK, Some [Byte.x2a])
|}.

(** [x3f_extract photo.x3f] *)
Definition example_vm : variables_map := {|
  opt_help := false; opt_output := None; opt_debug := false;
  opt_quiet := false; opt_format := None; opt_color := None;
  opt_noCrop := false; opt_noDenoise := false; opt_noSGain := false;
  opt_sgain := false; opt_noFixBad := false; opt_whiteBalance := None;
  opt_compress := false; opt_ocl := false; opt_offset := None;
  opt_matrixmax := None; opt_input := Some "photo.x3f"
|}.

(** [x3f_extract -o /nowhere photo.x3f] *)
Definition example_vm_outdir : variables_map := {|
  opt_help := false; opt_output := Some "/nowhere"; opt_debug := false;
  opt_quiet := false; opt_format := None; opt_color := None;
  opt_noCrop := false; opt_noDenoise := false; opt_noSGain := false;
  opt_sgain := false; opt_noFixBad := false; opt_whiteBalance := None;
  opt_compress := false; opt_ocl := false; opt_offset := None;
  opt_matrixmax := None; opt_input := Some "photo.x3f"
|}.

(** [x3f_extract -f tiff] *)
Definition example_vm_no_input : variables_map := {|
  opt_help := false; opt_output := None; opt_debug := false;
  opt_quiet := false; opt_format := Some "tiff"; opt_color := None;
  opt_noCrop := false; opt_noDenoise := false; opt_noSGain := false;
  opt_sgain := false; opt_noFixBad := false; opt_whiteBalance := None;
  opt_compress := false; opt_ocl := false; opt_offset := None;
  opt_matrixmax := None; opt_input := None
|}.

(** A world with the one file [photo.x3f] and nothing printed yet. *)
Definition example_world : world := {|
  fs := {[ "photo.x3f" := [Byte.x00] ]};
  trace := [];
  glob := {| x3f_printf_level := None; auto_legacy_offset := 1;
             legacy_offset := 0; max_printed_matrix_elements := 100 |}
|}.


(** The two arrays of [main] on that host, before [make_paths]. *)
Definition example_tmpfile : list ascii :=
  uninitialised (fun _ => "x"%char) (MAXTMPPATH + 1).
Definition example_outfile : list ascii :=
  uninitialised (fun _ => NUL) (MAXOUTPATH + 1).

(** [x3f_extract -c qtop --noCrop photo.x3f] *)
Definition example_vm_color : variables_map := {|
  opt_help := false; opt_output := None; opt_debug := false;
  opt_quiet := false; opt_format := None; opt_color := Some "qtop";
  opt_noCrop := true; opt_noDenoise := false; opt_noSGain := false;
  opt_sgain := false; opt_noFixBad := false; opt_whiteBalance := None;
  opt_compress := false; opt_ocl := false; opt_offset := None;
  opt_matrixmax := None; opt_input := Some "photo.x3f"
|}.

(** [x3f_extract -f jpg photo.x3f] *)
Definition example_vm_jpg : variables_map := {|
  opt_help := false; opt_output := None; opt_debug := false;
  opt_quiet := false; opt_format := Some "jpg"; opt_color := None;
  opt_noCrop := false; opt_noDenoise := false; opt_noSGain := false;
  opt_sgain := false; opt_noFixBad := false; opt_whiteBalance := None;
  opt_compress := false; opt_ocl := false; opt_offset := None;
  opt_matrixmax := None; opt_input := Some "photo.x3f"
|}.

(** [x3f_extract -f jpg -c none -r --noDenoise --sgain -b -w Flash -z
    photo.x3f] *)
Definition example_vm_jpg_switches : variables_map := {|
  opt_help := false; opt_output := None; opt_debug := false;
  opt_quiet := false; opt_format := Some "jpg"; opt_color := Some "none";
  opt_noCrop := true; opt_noDenoise := true; opt_noSGain := false;
  opt_sgain := true; opt_noFixBad := true; opt_whiteBalance := Some "Flash";
  opt_compress := true; opt_ocl := false; opt_offset := None;
  opt_matrixmax := None; opt_input := Some "photo.x3f"
|}.

(** [x3f_extract -d -q --noSGain --sgain --offset 7 photo.x3f] *)
Definition example_vm_both : variables_map := {|
  opt_help := false; opt_output := None; opt_debug := true;
  opt_quiet := true; opt_format := None; opt_color := None;
  opt_noCrop := false; opt_noDenoise := false; opt_noSGain := true;
  opt_sgain := true; opt_noFixBad := false; opt_whiteBalance := None;
  opt_compress := false; opt_ocl := false; opt_offset := Some 7;
  opt_matrixmax := None; opt_input := Some "photo.x3f"
|}.

(** A world without any file. *)
Definition example_empty_world : world := {|
  fs := ∅;
  trace := [];
  glob := {| x3f_printf_level := None; auto_legacy_offset := 1;
             legacy_offset := 0; max_printed_matrix_elements := 100 |}
|}.

(** An input path of 1011 characters, and an [outfile] array whose cells
    all hold 'x'. *)
Definition example_long_path : string :=
  string_of_list_ascii (replicate (S MAXOUTPATH) "a"%char).
Definition example_dirty_outfile : list ascii :=
  uninitialised (fun _ => "x"%char) (MAXOUTPATH + 1).

(** [x3f_extract -d -q --offset 7 --matrixmax -1 photo.x3f] *)
Definition example_vm_tuning : variables_map := {|
  opt_help := false; opt_output := None; opt_debug := true;
  opt_quiet := true; opt_format := None; opt_color := None;
  opt_noCrop := false; opt_noDenoise := false; opt_noSGain := false;
  opt_sgain := false; opt_noFixBad := false; opt_whiteBalance := None;
  opt_compress := false; opt_ocl := false; opt_offset := Some 7;
  opt_matrixmax := Some (-1); opt_input := Some "photo.x3f"
|}.

(** [x3f_extract -f bmp photo.x3f] *)
Definition example_vm_bmp : variables_map := {|
  opt_help := false; opt_output := None; opt_debug := false;
  opt_quiet := false; opt_format := Some "bmp"; opt_color := None;
  opt_noCrop := false; opt_noDenoise := false; opt_noSGain := false;
  opt_sgain := false; opt_noFixBad := false; opt_whiteBalance := None;
  opt_compress := false; opt_ocl := false; opt_offset := None;
  opt_matrixmax := None; opt_input := Some "photo.x3f"
|}.



(** * Properties *)

(** ** The state monad *)

Lemma log_nil w : log w [] = w.
Proof. destruct w; unfold log; simpl. by rewrite app_nil_r. Qed.

Lemma log_log w a b : log (log w a) b = log w (a ++ b).
Proof. unfold log; simpl. by rewrite app_assoc. Qed.

Lemma bind_inv {A B} (m : M A) (k : A -> M B) w r :
  bind m k w = Some r -> exists a w1, m w = Some (a, w1) /\ k a w1 = Some r.
Proof.
  unfold bind. destruct (m w) as [[a w1]|]; [|done]. intros Hk. by exists a, w1.
Qed.

Lemma bind_eq {A B} (m : M A) (k : A -> M B) w a w1 :
  m w = Some (a, w1) -> bind m k w = k a w1.
Proof. unfold bind. by intros ->. Qed.

Lemma bind_access {A B} (o : option A) (k : A -> M B) w a :
  o = Some a -> bind (access o) k w = k a w.
Proof. by intros ->. Qed.

Lemma bind_cong_l {A B} (m m' : M A) (k : A -> M B) w :
  m w = m' w -> bind m k w = bind m' k w.
Proof. unfold bind. by intros ->. Qed.

Lemma bind_cong_r {A B} (m : M A) (k k' : A -> M B) w :
  (forall a w1, k a w1 = k' a w1) -> bind m k w = bind m k' w.
Proof. intros Hk. unfold bind. destruct (m w) as [[a w1]|]; [apply Hk|done]. Qed.

Lemma emit_eq e w : emit e w = Some (tt, log w [e]).
Proof. done. Qed.

Lemma x3f_printf_eq lvl fmt args w :
  x3f_printf lvl fmt args w = Some (tt, log w [E_x3f_printf lvl fmt args]).
Proof. done. Qed.

(** ** C strings *)

Lemma nonnul_app s t : nonnul (s ++ t) <-> nonnul s /\ nonnul t.
Proof. apply Forall_app. Qed.

Lemma strlen_app s r : nonnul s -> strlen (s ++ NUL :: r) = Some (length s).
Proof.
  induction 1 as [|c s Hc _ IH]; simpl; [done|].
  by rewrite Hc, IH.
Qed.

Lemma strlen_nonnul m : nonnul m -> strlen m = None.
Proof. induction 1 as [|c s Hc _ IH]; simpl; [done|]. by rewrite Hc, IH. Qed.

Lemma cstring_app s r : nonnul s -> cstring (s ++ NUL :: r) = s.
Proof. induction 1 as [|c s Hc _ IH]; simpl; [done|]. by rewrite Hc, IH. Qed.

Lemma strnlen_app s r k :
  nonnul s -> strnlen (s ++ NUL :: r) k = Some (length s `min` k)%nat.
Proof.
  intros Hs. revert k. induction Hs as [|c s Hc _ IH]; intros [|k]; simpl; try done.
  by rewrite Hc, IH.
Qed.

Lemma strnlen_nonnul m k :
  nonnul m -> strnlen m k = if (k <=? length m)%nat then Some k else None.
Proof.
  intros Hm. revert k. induction Hm as [|c s Hc _ IH]; intros [|k]; simpl; try done.
  rewrite Hc, IH. by destruct (k <=? length s)%nat.
Qed.

Lemma mem_cases m :
  (exists s r, m = s ++ NUL :: r /\ nonnul s) \/ nonnul m.
Proof.
  induction m as [|c m IH]; [right; constructor|].
  destruct (is_nul c) eqn:Hc.
  - left. exists [], m. split; [|constructor].
    apply Ascii.eqb_eq in Hc. by subst.
  - destruct IH as [(s & r & -> & Hs)|Hm].
    + left. exists (c :: s), r. split; [done|by constructor].
    + right. by constructor.
Qed.

Lemma holds_length buf cap s : holds buf cap s -> (length s <= cap)%nat.
Proof.
  intros (_ & Hlen & r & ->). rewrite length_app in Hlen. simpl in Hlen. lia.
Qed.

Lemma holds_cstring buf cap s : holds buf cap s -> cstring buf = s.
Proof. intros (Hs & _ & r & ->). by apply cstring_app. Qed.

Lemma strcpy_holds dst s r cap :
  nonnul s -> length dst = S cap -> (length s <= cap)%nat ->
  exists dst', strcpy dst (s ++ NUL :: r) = Some dst' /\ holds dst' cap s.
Proof.
  intros Hs Hlen Hle. unfold strcpy. rewrite strlen_app by done. simpl.
  destruct (Nat.leb_spec (length s + 1) (length dst)) as [_|?]; [|lia].
  eexists. split; [done|]. split; [done|]. split.
  - rewrite take_app_length, length_app. simpl. rewrite length_drop. lia.
  - rewrite take_app_length. by eexists.
Qed.

Lemma strcat_holds dst d s r cap :
  holds dst cap d -> nonnul s -> (length d + length s <= cap)%nat ->
  exists dst', strcat dst (s ++ NUL :: r) = Some dst' /\ holds dst' cap (d ++ s).
Proof.
  intros (Hd & Hlen & r' & ->) Hs Hle. unfold strcat.
  rewrite !strlen_app by done. simpl.
  destruct (Nat.leb_spec (length d + length s + 1) (length (d ++ NUL :: r')))
    as [_|?]; [|lia].
  rewrite !take_app_length.
  eexists. split; [done|]. split; [by apply nonnul_app|]. split.
  - rewrite !length_app. simpl. rewrite length_drop. lia.
  - eexists. by rewrite <- app_assoc.
Qed.

Lemma safecpy_fits dst s r cap w :
  nonnul s -> length dst = S cap -> (length s <= cap)%nat ->
  exists dst', safecpy dst (s ++ NUL :: r) cap w = Some ((0, dst'), w)
               /\ holds dst' cap s.
Proof.
  intros Hs Hlen Hle.
  destruct (strcpy_holds dst s r cap) as (dst' & Hcpy & Hh); [done..|].
  exists dst'. split; [|done]. unfold safecpy.
  rewrite strnlen_app by done. msimpl.
  destruct (Nat.ltb_spec cap (length s `min` (cap + 1))) as [?|_]; [lia|].
  by rewrite Hcpy.
Qed.

Lemma safecpy_too_large dst s r cap w :
  nonnul s -> (cap < length s)%nat ->
  safecpy dst (s ++ NUL :: r) cap w =
    Some ((1, dst), log w [E_x3f_printf DEBUG "safecpy: String too large\n" []]).
Proof.
  intros Hs Hlt. unfold safecpy. rewrite strnlen_app by done. msimpl.
  destruct (Nat.ltb_spec cap (length s `min` (cap + 1))) as [_|?]; [done|lia].
Qed.

Lemma safecat_fits dst d s r cap w :
  holds dst cap d -> nonnul s -> (length d + length s <= cap)%nat ->
  exists dst', safecat dst (s ++ NUL :: r) cap w = Some ((0, dst'), w)
               /\ holds dst' cap (d ++ s).
Proof.
  intros Hh Hs Hle.
  destruct (strcat_holds dst d s r cap) as (dst' & Hcat & Hh'); [done..|].
  exists dst'. split; [|done]. unfold safecat.
  destruct Hh as (Hd & Hlen & r' & ->).
  rewrite !strnlen_app by done. msimpl.
  destruct (Nat.ltb_spec cap (length d `min` (cap + 1) + length s `min` (cap + 1)))
    as [?|_]; [lia|].
  by rewrite Hcat.
Qed.

Lemma safecat_too_large dst d s r cap w :
  holds dst cap d -> nonnul s -> (cap < length d + length s)%nat ->
  safecat dst (s ++ NUL :: r) cap w =
    Some ((1, dst), log w [E_x3f_printf DEBUG "safecat: String too large\n" []]).
Proof.
  intros Hh Hs Hlt. pose proof (holds_length _ _ _ Hh) as Hd'.
  destruct Hh as (Hd & Hlen & r' & ->). unfold safecat.
  rewrite !strnlen_app by done. msimpl.
  destruct (Nat.ltb_spec cap (length d `min` (cap + 1) + length s `min` (cap + 1)))
    as [_|?]; [done|lia].
Qed.

(** On a buffer without terminator, [safecat] reports failure. *)
Lemma safecat_unterminated dst s r cap w :
  nonnul dst -> length dst = S cap -> nonnul s ->
  safecat dst (s ++ NUL :: r) cap w =
    Some ((1, dst), log w [E_x3f_printf DEBUG "safecat: String too large\n" []]).
Proof.
  intros Hd Hlen Hs. unfold safecat.
  rewrite strnlen_nonnul, strnlen_app by done. rewrite Hlen.
  destruct (Nat.leb_spec (cap + 1) (S cap)) as [_|?]; [|lia]. msimpl.
  destruct (Nat.ltb_spec cap (cap + 1 + length s `min` (cap + 1))) as [_|?]; [done|lia].
Qed.

Lemma strlen_Some m n :
  strlen m = Some n ->
  nonnul (cstring m) /\ length (cstring m) = n /\ take n m = cstring m
  /\ exists r, m = cstring m ++ NUL :: r.
Proof.
  revert n. induction m as [|c m IH]; intros n; simpl; [done|].
  destruct (is_nul c) eqn:Hc.
  - intros [= <-]. repeat split; [constructor|].
    exists m. apply Ascii.eqb_eq in Hc. by subst.
  - destruct (strlen m) as [k|] eqn:Hk; [|done]. simpl. intros [= <-].
    destruct (IH k eq_refl) as (Hn & Hl & Ht & r & Hr).
    repeat split; [by constructor|simpl; by rewrite Hl|simpl; by rewrite Ht|].
    exists r. simpl. by rewrite <- Hr.
Qed.

Lemma strcpy_cstring dst src dst' :
  strcpy dst src = Some dst' ->
  cstring dst' = cstring src /\ length dst' = length dst.
Proof.
  unfold strcpy. destruct (strlen src) as [n|] eqn:Hn; [|done]. simpl.
  destruct (Nat.leb_spec (n + 1) (length dst)) as [Hle|]; [|done].
  intros [= <-]. destruct (strlen_Some _ _ Hn) as (Hnn & Hl & Ht & _).
  rewrite Ht. split; [by apply cstring_app|].
  rewrite length_app. simpl. rewrite length_drop. lia.
Qed.

Lemma strcat_cstring dst src dst' :
  strcat dst src = Some dst' ->
  cstring dst' = cstring dst ++ cstring src /\ length dst' = length dst.
Proof.
  unfold strcat. destruct (strlen dst) as [d|] eqn:Hd; [|done]. simpl.
  destruct (strlen src) as [n|] eqn:Hn; [|done]. simpl.
  destruct (Nat.leb_spec (d + n + 1) (length dst)) as [Hle|]; [|done].
  intros [= <-]. destruct (strlen_Some _ _ Hn) as (Hnn & Hl & Ht & _).
  destruct (strlen_Some _ _ Hd) as (Hnd & Hld & Htd & _).
  rewrite Ht, Htd. split.
  - rewrite app_assoc. apply cstring_app. by apply nonnul_app.
  - rewrite !length_app. simpl. rewrite length_drop. lia.
Qed.

Lemma safecpy_any dst src cap w r dst' w' :
  safecpy dst src cap w = Some ((r, dst'), w') ->
  (r = 0 /\ w' = w /\ strcpy dst src = Some dst')
  \/ (r = 1 /\ dst' = dst /\ w' = log w [dbg_cpy]).
Proof.
  unfold safecpy. destruct (strnlen src (cap + 1)) as [n|]; msimpl; [|done].
  destruct (cap <? n)%nat; msimpl.
  - intros [= <- <- <-]. by right.
  - destruct (strcpy dst src) as [d|]; msimpl; [|done].
    intros [= <- <- <-]. by left.
Qed.

Lemma safecat_any dst src cap w r dst' w' :
  safecat dst src cap w = Some ((r, dst'), w') ->
  (r = 0 /\ w' = w /\ strcat dst src = Some dst')
  \/ (r = 1 /\ dst' = dst /\ w' = log w [dbg_cat]).
Proof.
  unfold safecat. destruct (strnlen dst (cap + 1)) as [d|]; msimpl; [|done].
  destruct (strnlen src (cap + 1)) as [n|]; msimpl; [|done].
  destruct (cap <? d + n)%nat; msimpl.
  - intros [= <- <- <-]. by right.
  - destruct (strcat dst src) as [d'|]; msimpl; [|done].
    intros [= <- <- <-]. by left.
Qed.

Lemma string_of_list_ascii_app a b :
  string_of_list_ascii (a ++ b) = string_of_list_ascii a +:+ string_of_list_ascii b.
Proof. induction a as [|c a IH]; simpl; [done|]. by rewrite IH. Qed.

Lemma cstring_c_str_tmp : cstring (c_str ".tmp") = list_ascii_of_string ".tmp".
Proof. reflexivity. Qed.

(** What every defined call of [make_paths] does, whatever its
    arguments: the world only gains debug messages, and a zero result
    leaves [tmppath] holding [outpath] followed by ".tmp". *)
Lemma make_paths_any pf inpath outdir ext tmpb outb w err t o w' :
  make_paths pf inpath outdir ext tmpb outb w = Some ((err, t, o), w') ->
  0 <= err
  /\ (exists dbg, w' = log w dbg /\ Forall is_debug dbg /\ (err = 0 -> dbg = []))
  /\ (err = 0 -> path_of t = path_of o +:+ ".tmp").
Proof.
  unfold make_paths. intros Hrun.
  apply bind_inv in Hrun as (given & w1 & Hgiven & Hrun).
  assert (w1 = w) as ->.
  { destruct outdir as [dir|]; [|by injection Hgiven].
    destruct (head dir); msimpl; [|done]. revert Hgiven. msimpl. by intros [= _ <-]. }
  clear Hgiven.
  apply bind_inv in Hrun as ([e1 o1] & w1 & Hout & Hrun).
  assert (0 <= e1 /\ exists dbg, w1 = log w dbg /\ Forall is_debug dbg
                                 /\ (e1 = 0 -> dbg = [])) as (He1 & dbg1 & -> & Hdbg1 & Hz1).
  { destruct given as [dir|].
    - apply bind_inv in Hout as (ptr & w2 & Hptr & Hout).
      assert (w2 = w) as ->.
      { revert Hptr. destruct basename_loop; msimpl; [|done]. by intros [= _ <-]. }
      apply bind_inv in Hout as ([r1 b1] & w2 & Hs1 & Hout). simpl in Hout.
      apply bind_inv in Hout as (len & w3 & Hlen & Hout).
      assert (w3 = w2) as ->.
      { revert Hlen. destruct (strlen dir); msimpl; [|done]. by intros [= _ <-]. }
      apply bind_inv in Hout as (lst & w3 & Hlst & Hout).
      assert (w3 = w2) as ->.
      { revert Hlst. destruct (if (len =? 0)%nat then _ else _); msimpl; [|done].
        by intros [= _ <-]. }
      apply bind_inv in Hout as (found & w3 & Hfound & Hout).
      assert (w3 = w2) as ->.
      { revert Hfound. destruct (strchr _ _); msimpl; [|done]. by intros [= _ <-]. }
      apply bind_inv in Hout as ([e2 b2] & w3 & Hsep & Hout). simpl in Hout.
      apply bind_inv in Hout as ([r3 b3] & w4 & Hs3 & Hout). simpl in Hout.
      injection Hout as <- <- <-.
      apply safecpy_any in Hs1 as [(-> & -> & _)|(-> & -> & ->)];
      (destruct found as [i|];
       [injection Hsep as <- <- <-
       |apply bind_inv in Hsep as ([r2 b2'] & w5 & Hs2 & Hsep); simpl in Hsep;
        injection Hsep as <- <- <-;
        apply safecat_any in Hs2 as [(-> & -> & _)|(-> & -> & ->)]]);
      apply safecat_any in Hs3 as [(-> & -> & _)|(-> & -> & ->)];
      rewrite ?log_log; simpl;
      (split; [lia|]); eexists; (split; [try reflexivity; by rewrite log_nil|]);
      (split; [repeat constructor|]); try done; try lia.
    - apply bind_inv in Hout as ([r1 b1] & w2 & Hs1 & Hout). simpl in Hout.
      injection Hout as <- <- <-.
      apply safecpy_any in Hs1 as [(-> & -> & _)|(-> & -> & ->)].
      + split; [lia|]. exists []. by rewrite log_nil.
      + split; [lia|]. eexists. split; [done|]. split; [repeat constructor|]. lia. }
  apply bind_inv in Hrun as ([r2 o2] & w2 & Hs2 & Hrun). simpl in Hrun.
  apply bind_inv in Hrun as ([r3 t3] & w3 & Hs3 & Hrun). simpl in Hrun.
  apply bind_inv in Hrun as ([r4 t4] & w4 & Hs4 & Hrun). simpl in Hrun.
  injection Hrun as <- <- <- <-.
  apply safecat_any in Hs2 as [(-> & -> & _)|(-> & -> & ->)];
  apply safecpy_any in Hs3 as [(-> & -> & Hcpy)|(-> & -> & ->)];
  apply safecat_any in Hs4 as [(-> & -> & Hcat)|(-> & -> & ->)];
  rewrite ?log_log; simpl;
  (split; [lia|]);
  (split; [eexists; split; [reflexivity|]; split;
           [repeat (apply Forall_app; split); try done; repeat constructor
           |intros; try lia; rewrite Hz1 by lia; done]|]);
  intros; try lia.
  apply strcpy_cstring in Hcpy as [Hcpy _].
  apply strcat_cstring in Hcat as [Hcat _].
  unfold path_of. rewrite Hcat, Hcpy, string_of_list_ascii_app. done.
Qed.
(** ** The base name *)

Lemma strrchr_app s r c :
  nonnul s -> is_nul c = false ->
  strrchr (s ++ NUL :: r) c = Some (last_index c s).
Proof.
  intros Hs Hc. induction Hs as [|a s Ha _ IH]; cbn [app strrchr last_index].
  - unfold is_nul in *. rewrite Ascii.eqb_refl, Ascii.eqb_sym, Hc. done.
  - rewrite Ha, IH. by destruct (last_index c s).
Qed.

Lemma basename_loop_app s r seps r' ptr :
  nonnul s -> nonnul seps ->
  basename_loop (s ++ NUL :: r) (seps ++ NUL :: r') ptr
  = Some (fold_left (advance s) seps ptr).
Proof.
  intros Hs Hseps. revert ptr.
  induction Hseps as [|sep seps Hsep _ IH]; intros ptr;
    cbn [app basename_loop fold_left].
  - unfold is_nul. by rewrite Ascii.eqb_refl.
  - rewrite Hsep, strrchr_app by done. simpl. rewrite IH. done.
Qed.

Lemma advance_0 s sep :
  advance s 0 sep = match last_index sep s with Some p => S p | None => 0%nat end.
Proof.
  unfold advance. destruct (last_index sep s) as [p|]; [|done].
  destruct (Nat.ltb_spec 0 (p + 1)); lia.
Qed.

Lemma after_last_sep_cons sep seps s :
  after_last_sep (sep :: seps) s
  = (advance s 0 sep `max` after_last_sep seps s)%nat.
Proof.
  rewrite advance_0. induction s as [|a s IH]; [done|].
  cbn [after_last_sep last_index is_sep existsb]. rewrite IH. clear IH.
  destruct (last_index sep s) as [i|], (after_last_sep seps s) as [|k];
    fold (is_sep seps a);
    destruct (Ascii.eqb a sep), (is_sep seps a); simpl; lia.
Qed.

Lemma advance_max s ptr sep : advance s ptr sep = (ptr `max` advance s 0 sep)%nat.
Proof.
  rewrite advance_0. unfold advance.
  destruct (last_index sep s) as [p|]; [|lia].
  destruct (Nat.ltb_spec ptr (p + 1)); lia.
Qed.

Lemma fold_advance s seps ptr :
  fold_left (advance s) seps ptr = (ptr `max` after_last_sep seps s)%nat.
Proof.
  revert ptr. induction seps as [|sep seps IH]; intros ptr; simpl.
  - assert (after_last_sep [] s = 0%nat) as ->; [|lia].
    induction s as [|a s IHs]; simpl; [done|]. by rewrite IHs.
  - rewrite IH, after_last_sep_cons, (advance_max s ptr). lia.
Qed.

Lemma after_last_sep_le seps s : (after_last_sep seps s <= length s)%nat.
Proof.
  induction s as [|a s IH]; simpl; [done|].
  destruct (after_last_sep seps s); [destruct (is_sep seps a)|]; lia.
Qed.

Lemma nonnul_list_ascii_of_string_pathseps p : nonnul (seps_of p).
Proof. destruct p; repeat constructor. Qed.

Lemma nonnul_PATHSEP p : nonnul (list_ascii_of_string (PATHSEP p)).
Proof. destruct p; repeat constructor. Qed.

Lemma strchr_app seps r c :
  nonnul seps -> is_nul c = false ->
  exists o, strchr (seps ++ NUL :: r) c = Some o
            /\ (if o is Some _ then true else false) = is_sep seps c.
Proof.
  intros Hseps Hc. unfold is_sep.
  induction Hseps as [|a seps Ha _ (o & IH & Ho)];
    cbn [app strchr existsb].
  - unfold is_nul in *. rewrite Ascii.eqb_refl, Ascii.eqb_sym, Hc.
    by exists None.
  - rewrite (Ascii.eqb_sym c a). destruct (Ascii.eqb a c); simpl.
    + by exists (Some 0%nat).
    + rewrite Ha, IH. simpl. exists (option_map S o). split; [done|].
      rewrite <- Ho. by destruct o.
Qed.
(** ** [make_paths] on well-formed arguments *)

Lemma strcpy_bound dst src dst' :
  strcpy dst src = Some dst' -> (length (cstring src) < length dst)%nat.
Proof.
  unfold strcpy. destruct (strlen src) as [n|] eqn:Hn; [|done]. simpl.
  destruct (Nat.leb_spec (n + 1) (length dst)) as [Hle|]; [|done].
  intros _. destruct (strlen_Some _ _ Hn) as (_ & Hl & _). lia.
Qed.

Lemma strcat_bound dst src dst' :
  strcat dst src = Some dst' ->
  (length (cstring dst) + length (cstring src) < length dst)%nat.
Proof.
  unfold strcat. destruct (strlen dst) as [d|] eqn:Hd; [|done]. simpl.
  destruct (strlen src) as [n|] eqn:Hn; [|done]. simpl.
  destruct (Nat.leb_spec (d + n + 1) (length dst)) as [Hle|]; [|done].
  intros _. destruct (strlen_Some _ _ Hn) as (_ & Hl & _).
  destruct (strlen_Some _ _ Hd) as (_ & Hld & _). lia.
Qed.

Lemma drop_terminated n s r :
  (n <= length s)%nat -> drop n (s ++ NUL :: r) = drop n s ++ NUL :: r.
Proof. intros Hn. by rewrite drop_app_le. Qed.

Lemma nonnul_drop n s : nonnul s -> nonnul (drop n s).
Proof. apply Forall_drop. Qed.

Lemma last_nonnul d c : nonnul d -> last d = Some c -> is_nul c = false.
Proof.
  intros Hd Hl. apply last_Some in Hl as [d' ->].
  apply nonnul_app in Hd as [_ Hc]. by inversion Hc.
Qed.

Lemma safecpy_range dst src cap w r dst' w' :
  safecpy dst src cap w = Some ((r, dst'), w') ->
  0 <= r <= 1 /\ length dst' = length dst.
Proof.
  intros [(-> & _ & Hc)|(-> & -> & _)]%safecpy_any; [|split; [lia|done]].
  apply strcpy_cstring in Hc as [_ ->]. split; [lia|done].
Qed.

Lemma safecat_range dst src cap w r dst' w' :
  safecat dst src cap w = Some ((r, dst'), w') ->
  0 <= r <= 1 /\ length dst' = length dst.
Proof.
  intros [(-> & _ & Hc)|(-> & -> & _)]%safecat_any; [|split; [lia|done]].
  apply strcat_cstring in Hc as [_ ->]. split; [lia|done].
Qed.

Lemma safecpy_zero dst s r cap w dst' w' :
  nonnul s -> length dst = S cap ->
  safecpy dst (s ++ NUL :: r) cap w = Some ((0, dst'), w') ->
  w' = w /\ (length s <= cap)%nat /\ holds dst' cap s.
Proof.
  intros Hs Hlen Hrun.
  destruct (Nat.le_gt_cases (length s) cap) as [Hle|Hgt].
  - destruct (safecpy_fits dst s r cap w Hs Hlen Hle) as (d' & Hd' & Hh).
    rewrite Hd' in Hrun. by injection Hrun as <- <-.
  - by rewrite safecpy_too_large in Hrun.
Qed.

Lemma safecat_zero dst d s r cap w dst' w' :
  holds dst cap d -> nonnul s ->
  safecat dst (s ++ NUL :: r) cap w = Some ((0, dst'), w') ->
  w' = w /\ (length d + length s <= cap)%nat /\ holds dst' cap (d ++ s).
Proof.
  intros Hh Hs Hrun.
  destruct (Nat.le_gt_cases (length d + length s) cap) as [Hle|Hgt].
  - destruct (safecat_fits dst d s r cap w Hh Hs Hle) as (d' & Hd' & Hh').
    rewrite Hd' in Hrun. by injection Hrun as <- <-.
  - by rewrite (safecat_too_large dst d) in Hrun.
Qed.

(** The first lines of the directory branch: the test [*outdir], the
    separator loop, and the look at the last character of [outdir]. *)
Lemma c_str_pathseps p : c_str (pathseps p) = seps_of p ++ [NUL].
Proof. done. Qed.

Lemma c_str_PATHSEP p : c_str (PATHSEP p) = list_ascii_of_string (PATHSEP p) ++ [NUL].
Proof. done. Qed.

Lemma base_name_ptr p inpath rin :
  nonnul inpath ->
  basename_loop (inpath ++ NUL :: rin) (c_str (pathseps p)) 0
  = Some (after_last_sep (seps_of p) inpath).
Proof.
  intros Hin. rewrite c_str_pathseps, basename_loop_app, fold_advance;
    [done|done|apply nonnul_list_ascii_of_string_pathseps].
Qed.

Lemma last_char_lookup (c : ascii) d rd :
  (c :: d ++ NUL :: rd) !! (length (c :: d) - 1)%nat = last (c :: d).
Proof.
  rewrite last_lookup. simpl. rewrite Nat.sub_0_r.
  change (c :: d ++ NUL :: rd) with ((c :: d) ++ NUL :: rd).
  rewrite lookup_app_l; [done|simpl; lia].
Qed.

Section MakePaths.
Variables (p : platform) (inpath ext rin rext : list ascii).
Variables (tmpb outb : list ascii).
Hypothesis Hin : nonnul inpath.
Hypothesis Hext : nonnul ext.
Hypothesis Htmpb : length tmpb = S MAXTMPPATH.
Hypothesis Houtb : length outb = S MAXOUTPATH.


Lemma make_paths_tail_fits o1 s w :
  holds o1 MAXOUTPATH s -> (length s + length ext <= MAXOUTPATH)%nat ->
  exists t o,
    make_paths_tail (ext ++ NUL :: rext) tmpb 0 o1 w = Some ((0, t, o), w)
    /\ holds o MAXOUTPATH (s ++ ext)
    /\ holds t MAXTMPPATH ((s ++ ext) ++ list_ascii_of_string ".tmp").
Proof.
  intros Ho1 Hfit. unfold make_paths_tail.
  destruct (safecat_fits o1 s ext rext MAXOUTPATH w) as (o2 & Hc2 & Ho2);
    [done..|].
  rewrite (bind_eq _ _ _ _ _ Hc2). cbv beta iota.
  pose proof (holds_length _ _ _ Ho2) as Hlen2.
  destruct Ho2 as (Hn2 & Hl2 & r2 & ->).
  destruct (safecpy_fits tmpb (s ++ ext) r2 MAXTMPPATH w) as (t1 & Ht1 & Hh1);
    [done|done|unfold MAXTMPPATH; lia|].
  change (c_str ".tmp") with (list_ascii_of_string ".tmp" ++ [NUL]).
  destruct (safecat_fits t1 (s ++ ext) (list_ascii_of_string ".tmp") [] MAXTMPPATH w)
    as (t2 & Ht2 & Hh2); [done|repeat constructor|
      unfold MAXTMPPATH, EXTMAX; simpl length; lia|].
  exists t2, ((s ++ ext) ++ NUL :: r2).
  rewrite (bind_eq _ _ _ _ _ Ht1). cbv beta iota.
  rewrite (bind_eq _ _ _ _ _ Ht2). cbv beta iota.
  split; [done|]. split; [|done]. split; [done|]. split; [done|by eexists].
Qed.

Lemma make_paths_tail_zero err o1 s w t o w' :
  holds o1 MAXOUTPATH s -> 0 <= err ->
  make_paths_tail (ext ++ NUL :: rext) tmpb err o1 w = Some ((0, t, o), w') ->
  err = 0 /\ (length s + length ext <= MAXOUTPATH)%nat.
Proof.
  intros Ho1 Herr Hrun. unfold make_paths_tail in Hrun.
  apply bind_inv in Hrun as ([r2 o2] & w2 & Hs2 & Hrun). simpl in Hrun.
  apply bind_inv in Hrun as ([r3 t3] & w3 & Hs3 & Hrun). simpl in Hrun.
  apply bind_inv in Hrun as ([r4 t4] & w4 & Hs4 & Hrun). simpl in Hrun.
  injection Hrun as Hsum <- <- <-.
  apply safecat_any in Hs2 as [(-> & -> & Hcat)|(-> & -> & ->)];
  apply safecpy_any in Hs3 as [(-> & -> & _)|(-> & -> & ->)];
  apply safecat_any in Hs4 as [(-> & -> & _)|(-> & -> & ->)]; try lia.
  split; [lia|]. apply strcat_bound in Hcat.
  rewrite (holds_cstring _ _ _ Ho1), cstring_app in Hcat by done.
  destruct Ho1 as (_ & Hl & _). lia.
Qed.

(** No directory: NULL or the empty string. *)
Lemma make_paths_nodir_given outdir w :
  outdir = None \/ (exists rd, outdir = Some (NUL :: rd)) ->
  make_paths p (inpath ++ NUL :: rin) outdir (ext ++ NUL :: rext) tmpb outb w
  = (do '(err, outpath) <-
       (do '(r, outpath) <- safecpy outb (inpath ++ NUL :: rin) MAXOUTPATH;
        ret (0 + r, outpath));
     make_paths_tail (ext ++ NUL :: rext) tmpb err outpath) w.
Proof. intros [->|[rd ->]]; reflexivity. Qed.

Lemma make_paths_nodir_fits outdir w :
  outdir = None \/ (exists rd, outdir = Some (NUL :: rd)) ->
  (length (inpath ++ ext) <= MAXOUTPATH)%nat ->
  exists t o,
    make_paths p (inpath ++ NUL :: rin) outdir (ext ++ NUL :: rext) tmpb outb w
      = Some ((0, t, o), w)
    /\ holds o MAXOUTPATH (inpath ++ ext)
    /\ holds t MAXTMPPATH ((inpath ++ ext) ++ list_ascii_of_string ".tmp").
Proof.
  intros Hdir Hfit. rewrite make_paths_nodir_given by done.
  rewrite length_app in Hfit.
  destruct (safecpy_fits outb inpath rin MAXOUTPATH w) as (o1 & Ho1 & Hh1);
    [done|done|lia|].
  destruct (make_paths_tail_fits o1 inpath w) as (t & o & Htail & Hh); [done|lia|].
  exists t, o. split; [|done].
  rewrite (bind_eq _ _ _ _ _ (bind_eq _ _ _ _ _ Ho1)). exact Htail.
Qed.

Lemma make_paths_nodir_zero outdir w t o w' :
  outdir = None \/ (exists rd, outdir = Some (NUL :: rd)) ->
  make_paths p (inpath ++ NUL :: rin) outdir (ext ++ NUL :: rext) tmpb outb w
    = Some ((0, t, o), w') ->
  (length (inpath ++ ext) <= MAXOUTPATH)%nat.
Proof.
  intros Hdir. rewrite make_paths_nodir_given by done. intros Hrun.
  apply bind_inv in Hrun as ([e1 o1] & w1 & Hstep & Hrun).
  apply bind_inv in Hstep as ([r1 b1] & w2 & Hs1 & Hstep). simpl in Hstep.
  injection Hstep as <- <- <-.
  destruct (Nat.le_gt_cases (length inpath) MAXOUTPATH) as [Hle|Hgt].
  - destruct (safecpy_fits outb inpath rin MAXOUTPATH w) as (o1 & Ho1 & Hh1);
      [done..|].
    rewrite Ho1 in Hs1. injection Hs1 as <- <- <-.
    apply make_paths_tail_zero with (s := inpath) in Hrun as [_ Hfit];
      [|done|lia]. by rewrite length_app.
  - rewrite safecpy_too_large in Hs1 by done. injection Hs1 as <- <- <-.
    destruct (mem_cases outb) as [(s & r & Hs & Hn)|Hn].
    + apply make_paths_tail_zero with (s := s) in Hrun as [? _]; [lia| |lia].
      split; [done|]. split; [done|by exists r].
    + exfalso. revert Hrun. unfold make_paths_tail.
      rewrite (bind_eq _ _ _ _ _ (safecat_unterminated _ _ _ _ _ Hn Houtb Hext)).
      cbv beta iota. unfold safecpy.
      rewrite strnlen_nonnul, Houtb by done.
      destruct (Nat.leb_spec (MAXTMPPATH + 1) (S MAXOUTPATH)) as [Hc|_];
        [unfold MAXTMPPATH, EXTMAX in Hc; lia|]. done.
Qed.

(** A directory is given: [dir] is its text, not empty. *)
Lemma make_paths_dir_given c d rd w :
  nonnul (c :: d) ->
  make_paths p (inpath ++ NUL :: rin) (Some ((c :: d) ++ NUL :: rd))
    (ext ++ NUL :: rext) tmpb outb w
  = (do '(err, outpath) <-
       (do '(r, outpath) <- safecpy outb ((c :: d) ++ NUL :: rd) MAXOUTPATH;
        do '(err, outpath) <-
          (if ends_in_sep p (c :: d) then ret (0 + r, outpath)
           else
             do '(r', outpath) <- safecat outpath (c_str (PATHSEP p)) MAXOUTPATH;
             ret (0 + r + r', outpath));
        do '(r, outpath) <-
          safecat outpath (base_name p inpath ++ NUL :: rin) MAXOUTPATH;
        ret (err + r, outpath));
     make_paths_tail (ext ++ NUL :: rext) tmpb err outpath) w.
Proof.
  intros Hd. unfold make_paths.
  rewrite (bind_eq _ _ w (Some ((c :: d) ++ NUL :: rd)) w); cycle 1.
  { cbn [app head]. msimpl. inversion Hd as [|? ? Hc _]. by rewrite Hc. }
  cbv beta iota. apply bind_cong_l.
  rewrite (bind_access _ _ _ _ (base_name_ptr p inpath rin Hin)).
  apply bind_cong_r. intros [r1 o1] w1.
  rewrite (bind_access _ _ _ _ (strlen_app _ rd Hd)).
  cbn [length Nat.eqb].
  change (S (length d)) with (length (c :: d)).
  change ((c :: d) ++ NUL :: rd) with (c :: d ++ NUL :: rd).
  rewrite last_char_lookup.
  destruct (proj2 (last_is_Some (c :: d))) as [lc Hlast]; [done|].
  rewrite Hlast.
  pose proof (last_nonnul _ _ Hd Hlast) as Hlc.
  destruct (strchr_app (seps_of p) [] lc) as (o & Ho & Hsep);
    [apply nonnul_list_ascii_of_string_pathseps|done|].
  rewrite (bind_access _ _ _ _ eq_refl).
  rewrite c_str_pathseps, (bind_access _ _ _ _ Ho).
  unfold ends_in_sep. rewrite Hlast, <- Hsep.
  unfold base_name. rewrite drop_terminated by apply after_last_sep_le.
  destruct o; reflexivity.
Qed.

Lemma make_paths_dir_fits c d rd w :
  nonnul (c :: d) ->
  (length (final_in_dir p inpath (c :: d) ext) <= MAXOUTPATH)%nat ->
  exists t o,
    make_paths p (inpath ++ NUL :: rin) (Some ((c :: d) ++ NUL :: rd))
      (ext ++ NUL :: rext) tmpb outb w = Some ((0, t, o), w)
    /\ holds o MAXOUTPATH (final_in_dir p inpath (c :: d) ext)
    /\ holds t MAXTMPPATH
         (final_in_dir p inpath (c :: d) ext ++ list_ascii_of_string ".tmp").
Proof.
  intros Hd Hfit. rewrite make_paths_dir_given by done.
  unfold final_in_dir in *. rewrite !length_app in Hfit.
  destruct (safecpy_fits outb (c :: d) rd MAXOUTPATH w) as (o1 & Ho1 & Hh1);
    [done|done|lia|].
  assert (exists o2,
    (if ends_in_sep p (c :: d) then ret (0 + 0, o1)
     else do '(r', outpath) <- safecat o1 (c_str (PATHSEP p)) MAXOUTPATH;
          ret (0 + 0 + r', outpath)) w = Some ((0, o2), w)
    /\ holds o2 MAXOUTPATH
         ((c :: d) ++ (if ends_in_sep p (c :: d) then []
                       else list_ascii_of_string (PATHSEP p))))
    as (o2 & Ho2 & Hh2).
  { destruct (ends_in_sep p (c :: d)).
    - exists o1. split; [done|]. by rewrite app_nil_r.
    - rewrite c_str_PATHSEP.
      destruct (safecat_fits o1 (c :: d) (list_ascii_of_string (PATHSEP p)) []
                  MAXOUTPATH w) as (o2 & Hs2 & Hh2);
        [done|apply nonnul_PATHSEP|lia|].
      exists o2. split; [|done]. by rewrite (bind_eq _ _ _ _ _ Hs2). }
  set (dirsep := (c :: d) ++ (if ends_in_sep p (c :: d) then [] else _)) in *.
  destruct (safecat_fits o2 dirsep (base_name p inpath) rin MAXOUTPATH w)
    as (o3 & Hs3 & Hh3);
    [done|apply nonnul_drop, Hin|unfold dirsep; rewrite length_app; lia|].
  destruct (make_paths_tail_fits o3 (dirsep ++ base_name p inpath) w)
    as (t & o & Htail & Hho & Hht);
    [done|unfold dirsep; rewrite !length_app; lia|].
  exists t, o.
  replace ((c :: d) ++ (if ends_in_sep p (c :: d) then []
                        else list_ascii_of_string (PATHSEP p))
             ++ base_name p inpath ++ ext)
    with ((dirsep ++ base_name p inpath) ++ ext)
    by (unfold dirsep; by rewrite <- !app_assoc).
  split; [|done].
  rewrite (bind_eq _ _ w (0, o3) w); [exact Htail|].
  rewrite (bind_eq _ _ _ _ _ Ho1). cbv beta iota.
  rewrite (bind_eq _ _ _ _ _ Ho2). cbv beta iota.
  by rewrite (bind_eq _ _ _ _ _ Hs3).
Qed.

Lemma make_paths_tail_zero_any err o1 w t o w' :
  length o1 = S MAXOUTPATH -> 0 <= err ->
  make_paths_tail (ext ++ NUL :: rext) tmpb err o1 w = Some ((0, t, o), w') ->
  err = 0 /\ exists s, holds o1 MAXOUTPATH s
                       /\ (length s + length ext <= MAXOUTPATH)%nat.
Proof.
  intros Hlen Herr Hrun.
  destruct (mem_cases o1) as [(s & r & Hs & Hn)|Hn].
  - assert (holds o1 MAXOUTPATH s) as Hh by (split; [done|]; split; [done|by exists r]).
    destruct (make_paths_tail_zero err o1 s w t o w' Hh Herr Hrun) as [-> Hfit].
    split; [done|]. by exists s.
  - exfalso. revert Hrun. unfold make_paths_tail.
    rewrite (bind_eq _ _ _ _ _ (safecat_unterminated _ _ _ _ _ Hn Hlen Hext)).
    cbv beta iota. unfold safecpy.
    rewrite strnlen_nonnul, Hlen by done.
    destruct (Nat.leb_spec (MAXTMPPATH + 1) (S MAXOUTPATH)) as [Hc|_];
      [unfold MAXTMPPATH, EXTMAX in Hc; lia|]. done.
Qed.

Lemma make_paths_dir_zero c d rd w t o w' :
  nonnul (c :: d) ->
  make_paths p (inpath ++ NUL :: rin) (Some ((c :: d) ++ NUL :: rd))
    (ext ++ NUL :: rext) tmpb outb w = Some ((0, t, o), w') ->
  (length (final_in_dir p inpath (c :: d) ext) <= MAXOUTPATH)%nat.
Proof.
  intros Hd. rewrite make_paths_dir_given by done. intros Hrun.
  apply bind_inv in Hrun as ([e o3] & w3 & Hblock & Hrun).
  apply bind_inv in Hblock as ([r1 o1] & w1 & Hs1 & Hblock). cbv beta iota in Hblock.
  apply bind_inv in Hblock as ([e2 o2] & w2 & Hsep & Hblock). cbv beta iota in Hblock.
  apply bind_inv in Hblock as ([r3 o3'] & w4 & Hs3 & Hblock). cbv beta iota in Hblock.
  injection Hblock as <- <- <-.
  pose proof (safecpy_range _ _ _ _ _ _ _ Hs1) as [Hr1 Hl1].
  pose proof (safecat_range _ _ _ _ _ _ _ Hs3) as [Hr3 Hl3].
  assert (0 <= e2 - r1 <= 1 /\ length o2 = length o1) as [Hr2 Hl2].
  { destruct (ends_in_sep p (c :: d)).
    - injection Hsep as <- <- <-. split; [lia|done].
    - apply bind_inv in Hsep as ([r2 o2'] & w5 & Hs2 & Hsep). cbv beta iota in Hsep.
      injection Hsep as <- <- <-.
      pose proof (safecat_range _ _ _ _ _ _ _ Hs2) as [Hr2 Hl2]. split; [lia|done]. }
  assert (length o3' = S MAXOUTPATH) as Hl3' by congruence.
  assert (0 <= e2 + r3) as He by lia.
  destruct (make_paths_tail_zero_any _ _ _ _ _ _ Hl3' He Hrun)
    as (Hz & s3 & Hh3 & Hfit3).
  assert (r1 = 0) as -> by lia. assert (r3 = 0) as -> by lia.
  assert (e2 = 0) as -> by lia.
  apply safecpy_zero in Hs1 as (-> & Hfit1 & Hh1); [|done..].
  assert (holds o2 MAXOUTPATH
            ((c :: d) ++ (if ends_in_sep p (c :: d) then []
                          else list_ascii_of_string (PATHSEP p)))
          /\ w2 = w) as [Hh2 ->].
  { destruct (ends_in_sep p (c :: d)).
    - injection Hsep as <- <-. by rewrite app_nil_r.
    - apply bind_inv in Hsep as ([r2 o2'] & w5 & Hs2 & Hsep). cbv beta iota in Hsep.
      injection Hsep as Hr <- <-. assert (r2 = 0) as -> by lia.
      rewrite c_str_PATHSEP in Hs2.
      apply safecat_zero with (d := c :: d) in Hs2 as (-> & _ & Hh2);
        [done|done|apply nonnul_PATHSEP]. }
  destruct (safecat_zero _ _ _ _ _ _ _ _ Hh2 (nonnul_drop _ _ Hin) Hs3)
    as (Hw4 & _ & Hh3'). subst w4.
  rewrite <- (holds_cstring _ _ _ Hh3), (holds_cstring _ _ _ Hh3') in Hfit3.
  unfold final_in_dir, base_name in *. rewrite !length_app in *. lia.
Qed.

(** [make_paths] on well-formed arguments: it succeeds exactly when the
    final path fits in [MAXOUTPATH] characters, and then the buffers hold
    the final path and the final path followed by ".tmp". *)
Lemma make_paths_fits outdir w :
  (forall m, outdir = Some m -> exists d rd, m = d ++ NUL :: rd /\ nonnul d) ->
  let final := final_path p inpath (cstring <$> outdir) ext in
  (length final <= MAXOUTPATH)%nat ->
  exists t o,
    make_paths p (inpath ++ NUL :: rin) outdir (ext ++ NUL :: rext) tmpb outb w
      = Some ((0, t, o), w)
    /\ holds o MAXOUTPATH final
    /\ holds t MAXTMPPATH (final ++ list_ascii_of_string ".tmp").
Proof.
  intros Hdir final Hfit. subst final.
  destruct outdir as [m|]; [|by apply make_paths_nodir_fits; [left|]].
  destruct (Hdir m eq_refl) as (d & rd & -> & Hd).
  simpl in Hfit |- *. rewrite cstring_app in Hfit |- * by done.
  destruct d as [|c d].
  - apply make_paths_nodir_fits; [right; by exists rd|done].
  - by apply make_paths_dir_fits.
Qed.

Lemma make_paths_zero outdir w t o w' :
  (forall m, outdir = Some m -> exists d rd, m = d ++ NUL :: rd /\ nonnul d) ->
  make_paths p (inpath ++ NUL :: rin) outdir (ext ++ NUL :: rext) tmpb outb w
    = Some ((0, t, o), w') ->
  (length (final_path p inpath (cstring <$> outdir) ext) <= MAXOUTPATH)%nat.
Proof.
  intros Hdir Hrun.
  destruct outdir as [m|]; [|by eapply make_paths_nodir_zero; [left|]].
  destruct (Hdir m eq_refl) as (d & rd & -> & Hd).
  simpl. rewrite cstring_app by done.
  destruct d as [|c d].
  - eapply make_paths_nodir_zero; [right; by exists rd|done].
  - by eapply make_paths_dir_zero.
Qed.

End MakePaths.
(** ** [make_paths] never reads or writes out of bounds when the
    [outpath] array starts out holding some terminated string *)

Lemma holds_terminated buf cap s : holds buf cap s -> terminated buf.
Proof. intros (Hs & _ & r & ->). by exists s, r. Qed.

Lemma safecpy_defined dst src cap w :
  terminated src -> length dst = S cap ->
  exists r dst' w',
    safecpy dst src cap w = Some ((r, dst'), w')
    /\ length dst' = S cap /\ (terminated dst -> terminated dst').
Proof.
  intros (s & r & -> & Hs) Hlen.
  destruct (Nat.le_gt_cases (length s) cap) as [Hle|Hgt].
  - destruct (safecpy_fits dst s r cap w Hs Hlen Hle) as (d' & Hd' & Hh).
    exists 0, d', w. split; [done|]. split; [apply Hh|].
    intros _. by eapply holds_terminated.
  - rewrite safecpy_too_large by done. by eexists _, _, _.
Qed.

Lemma safecat_defined dst src cap w :
  terminated src -> length dst = S cap ->
  exists r dst' w',
    safecat dst src cap w = Some ((r, dst'), w')
    /\ length dst' = S cap /\ (terminated dst -> terminated dst').
Proof.
  intros (s & r & -> & Hs) Hlen.
  destruct (mem_cases dst) as [(d & rd & Hd & Hn)|Hn].
  - assert (holds dst cap d) as Hh by (split; [done|]; split; [done|by exists rd]).
    destruct (Nat.le_gt_cases (length d + length s) cap) as [Hle|Hgt].
    + destruct (safecat_fits dst d s r cap w Hh Hs Hle) as (d' & Hd' & Hh').
      exists 0, d', w. split; [done|]. split; [apply Hh'|].
      intros _. by eapply holds_terminated.
    + rewrite (safecat_too_large dst d) by done. by eexists _, _, _.
  - rewrite safecat_unterminated by done. by eexists _, _, _.
Qed.

Lemma make_paths_tail_defined ext tmpb err o1 w :
  terminated ext -> length tmpb = S MAXTMPPATH -> length o1 = S MAXOUTPATH ->
  terminated o1 ->
  is_Some (make_paths_tail ext tmpb err o1 w).
Proof.
  intros Hext Htmpb Hl1 Ht1. unfold make_paths_tail.
  destruct (safecat_defined o1 ext MAXOUTPATH w Hext Hl1)
    as (r2 & o2 & w2 & Hs2 & Hl2 & Ht2).
  rewrite (bind_eq _ _ _ _ _ Hs2). cbv beta iota.
  destruct (safecpy_defined tmpb o2 MAXTMPPATH w2 (Ht2 Ht1) Htmpb)
    as (r3 & t3 & w3 & Hs3 & Hl3 & _).
  rewrite (bind_eq _ _ _ _ _ Hs3). cbv beta iota.
  destruct (safecat_defined t3 (c_str ".tmp") MAXTMPPATH w3)
    as (r4 & t4 & w4 & Hs4 & _); [|done|].
  { exists (list_ascii_of_string ".tmp"), []. split; [done|repeat constructor]. }
  rewrite (bind_eq _ _ _ _ _ Hs4). by eexists.
Qed.

Lemma make_paths_defined p inpath rin ext rext outdir tmpb outb w :
  nonnul inpath -> nonnul ext ->
  (forall m, outdir = Some m -> exists d rd, m = d ++ NUL :: rd /\ nonnul d) ->
  length tmpb = S MAXTMPPATH -> length outb = S MAXOUTPATH ->
  terminated outb ->
  is_Some (make_paths p (inpath ++ NUL :: rin) outdir (ext ++ NUL :: rext)
             tmpb outb w).
Proof.
  intros Hin Hext Hdir Htmpb Houtb Hterm.
  assert (terminated (ext ++ NUL :: rext)) as Hext' by by exists ext, rext.
  assert (forall o1 r1 w1,
    safecpy outb (inpath ++ NUL :: rin) MAXOUTPATH w = Some ((r1, o1), w1) ->
    length o1 = S MAXOUTPATH /\ terminated o1) as Hcpy.
  { intros o1 r1 w1 Hs.
    destruct (safecpy_defined outb (inpath ++ NUL :: rin) MAXOUTPATH w)
      as (r & o & w' & Hs' & Hl & Ht); [by exists inpath, rin|done|].
    rewrite Hs in Hs'. injection Hs' as <- <- <-. auto. }
  assert (outdir = None \/ (exists rd, outdir = Some (NUL :: rd))
          \/ exists c d rd, outdir = Some ((c :: d) ++ NUL :: rd) /\ nonnul (c :: d))
    as [Hnone|[Hempty|(c & d & rd & -> & Hd)]].
  { destruct outdir as [m|]; [|by left]. right.
    destruct (Hdir m eq_refl) as ([|c d] & rd & -> & Hd); [left|right]; eauto. }
  1,2: rewrite make_paths_nodir_given by auto;
    (destruct (safecpy_defined outb (inpath ++ NUL :: rin) MAXOUTPATH w)
       as (r & o & w' & Hs' & Hl & Ht); [by exists inpath, rin|done|]);
    rewrite (bind_eq _ _ _ _ _ (bind_eq _ _ _ _ _ Hs')); cbv beta iota;
    apply make_paths_tail_defined; auto.
  rewrite make_paths_dir_given by done.
  destruct (safecpy_defined outb ((c :: d) ++ NUL :: rd) MAXOUTPATH w)
    as (r1 & o1 & w1 & Hs1 & Hl1 & Ht1); [by exists (c :: d), rd|done|].
  assert (exists e2 o2 w2,
    (if ends_in_sep p (c :: d) then ret (0 + r1, o1)
     else do '(r', outpath) <- safecat o1 (c_str (PATHSEP p)) MAXOUTPATH;
          ret (0 + r1 + r', outpath)) w1 = Some ((e2, o2), w2)
    /\ length o2 = S MAXOUTPATH /\ terminated o2)
    as (e2 & o2 & w2 & Hs2 & Hl2 & Ht2).
  { destruct (ends_in_sep p (c :: d)); [by eexists _, _, _; eauto|].
    destruct (safecat_defined o1 (c_str (PATHSEP p)) MAXOUTPATH w1)
      as (r2 & o2 & w2 & Hs2 & Hl2 & Ht2); [|done|].
    { exists (list_ascii_of_string (PATHSEP p)), []. split; [done|].
      apply nonnul_PATHSEP. }
    rewrite (bind_eq _ _ _ _ _ Hs2). eexists _, _, _; eauto. }
  destruct (safecat_defined o2 (base_name p inpath ++ NUL :: rin) MAXOUTPATH w2)
    as (r3 & o3 & w3 & Hs3 & Hl3 & Ht3);
    [exists (base_name p inpath), rin; split; [done|by apply nonnul_drop]|done|].
  rewrite (bind_eq _ _ w (e2 + r3, o3) w3).
  - apply make_paths_tail_defined; auto.
  - rewrite (bind_eq _ _ _ _ _ Hs1). cbv beta iota.
    rewrite (bind_eq _ _ _ _ _ Hs2). cbv beta iota.
    by rewrite (bind_eq _ _ _ _ _ Hs3).
Qed.

(** ** The path builder (C4) *)

Lemma length_string_of_list_ascii l :
  String.length (string_of_list_ascii l) = length l.
Proof. induction l as [|c l IH]; simpl; [done|]. by rewrite IH. Qed.

Lemma cstring_c_str s : nul_free s -> cstring (c_str s) = list_ascii_of_string s.
Proof. intros Hs. unfold c_str. by apply cstring_app. Qed.

Lemma path_of_c_str s : nul_free s -> path_of (c_str s) = s.
Proof.
  intros Hs. unfold path_of. rewrite cstring_c_str by done.
  apply string_of_list_ascii_of_string.
Qed.

Lemma holds_path_of buf cap s : holds buf cap s -> path_of buf = string_of_list_ascii s.
Proof. intros Hh. unfold path_of. by rewrite (holds_cstring _ _ _ Hh). Qed.

(** ** The option part *)

Lemma upd_upd w e1 g1 e2 g2 : upd (upd w e1 g1) e2 g2 = upd w (e1 ++ e2) g2.
Proof. unfold upd; simpl. by rewrite app_assoc. Qed.

Lemma log_upd w evs : log w evs = upd w evs (glob w).
Proof. done. Qed.

Lemma denotes_ret {A} (v : A) : denotes (ret v) v [].
Proof.
  intros w. exists (glob w). unfold ret, upd. rewrite app_nil_r. by destruct w.
Qed.

Lemma denotes_emit e : denotes (emit e) tt [e].
Proof. intros w. by exists (glob w). Qed.

Lemma denotes_set_glob f : denotes (set_glob f) tt [].
Proof.
  intros w. exists (f (glob w)). unfold set_glob, upd. by rewrite app_nil_r.
Qed.

Lemma denotes_bind {A B} (m : M A) (k : A -> M B) a e1 b e2 :
  denotes m a e1 -> denotes (k a) b e2 -> denotes (bind m k) b (e1 ++ e2).
Proof.
  intros Hm Hk w. destruct (Hm w) as [g1 H1].
  destruct (Hk (upd w e1 g1)) as [g2 H2]. exists g2.
  by rewrite (bind_eq _ _ _ _ _ H1), H2, upd_upd.
Qed.

Lemma denotes_bind_exit {A B} (m : M (option A)) (k : A -> M (option B))
    r e1 b e2 :
  denotes m r e1 ->
  denotes (match r with Some a => k a | None => ret None end) b e2 ->
  denotes (bind_exit m k) b (e1 ++ e2).
Proof. intros Hm Hk. unfold bind_exit. by eapply denotes_bind. Qed.

Lemma denotes_eq {A} (m : M A) v evs v' evs' :
  denotes m v evs -> v = v' -> evs = evs' -> denotes m v' evs'.
Proof. by intros ? <- <-. Qed.

Section OptionPart.
Context `{Host}.

Lemma parse_help_denotes vm : denotes (parse_help vm) tt (help_events vm).
Proof.
  unfold parse_help, help_events.
  destruct (opt_help vm); [apply denotes_emit|apply denotes_ret].
Qed.

Lemma parse_format_denotes vm l :
  denotes (parse_format vm l) (format_result vm l) (format_events vm).
Proof.
  unfold parse_format, format_result, format_events.
  destruct (opt_format vm) as [fmt|]; [|apply denotes_ret].
  destruct (format_assignments fmt) as [al|]; [apply denotes_ret|].
  eapply denotes_eq;
    [eapply denotes_bind; [apply denotes_emit|];
     eapply denotes_bind; [apply denotes_emit|apply denotes_ret]|done..].
Qed.

Lemma parse_color_denotes vm l :
  denotes (parse_color vm l) (color_result vm l) (color_events vm).
Proof.
  unfold parse_color, color_result, color_events.
  destruct (opt_color vm) as [spc|]; [|apply denotes_ret].
  destruct (color_assignment spc) as [c|]; [apply denotes_ret|].
  eapply denotes_eq;
    [eapply denotes_bind; [apply denotes_emit|];
     eapply denotes_bind; [apply denotes_emit|apply denotes_ret]|done..].
Qed.

Lemma parse_verbosity_denotes vm : denotes (parse_verbosity vm) tt [].
Proof.
  unfold parse_verbosity.
  eapply denotes_eq;
    [eapply denotes_bind;
     [destruct (opt_debug vm); [apply denotes_set_glob|apply denotes_ret]
     |destruct (opt_quiet vm); [apply denotes_set_glob|apply denotes_ret]]
    |done..].
Qed.

Lemma parse_tuning_denotes vm : denotes (parse_tuning vm) tt [].
Proof.
  unfold parse_tuning.
  eapply denotes_eq;
    [eapply denotes_bind;
     [destruct (opt_offset vm); [apply denotes_set_glob|apply denotes_ret]
     |destruct (opt_matrixmax vm); [apply denotes_set_glob|apply denotes_ret]]
    |done..].
Qed.

Lemma check_dir_denotes path :
  denotes (check_dir path) (check_dir_result path)
    [E_stat path (if host_stat path is Some _ then 0 else -1)].
Proof.
  intros w. exists (glob w). unfold check_dir, stat, check_dir_result.
  by destruct (host_stat path) as [[]|].
Qed.

Lemma parse_output_denotes vm l :
  denotes (parse_output vm l) (output_result vm l) (output_events vm).
Proof.
  unfold parse_output, output_result, output_events.
  destruct (opt_output vm) as [d|]; [|apply denotes_ret].
  destruct (check_dir_result (path_of (c_str d)) =? 0) eqn:Hr.
  - eapply denotes_eq;
      [eapply denotes_bind; [apply check_dir_denotes|];
       eapply denotes_bind; [rewrite Hr; apply denotes_ret|apply denotes_ret]
      |done..].
  - eapply denotes_eq;
      [eapply denotes_bind; [apply check_dir_denotes|];
       eapply denotes_bind; [rewrite Hr; apply denotes_emit|apply denotes_ret]
      |done..].
Qed.

Lemma parse_input_denotes vm l :
  denotes (parse_input vm l) (if opt_input vm is None then None else Some l)
    (input_events vm l).
Proof.
  unfold parse_input, input_events.
  destruct (opt_input vm); [apply denotes_ret|].
  eapply denotes_eq;
    [eapply denotes_bind; [apply denotes_emit|];
     eapply denotes_bind; [apply denotes_emit|apply denotes_ret]|done..].
Qed.

(** Lines 242-307 do not look at the world: they compute [parse_result]
    and print [parse_events]. *)
Lemma parse_options_denotes vm :
  denotes (parse_options vm) (parse_result vm) (parse_events vm).
Proof.
  unfold parse_options, parse_result, parse_events.
  eapply denotes_bind; [apply parse_help_denotes|].
  eapply denotes_bind_exit; [apply parse_format_denotes|].
  destruct (format_result vm initial_locals) as [l1|]; [|apply denotes_ret].
  simpl.
  eapply denotes_bind_exit; [apply parse_color_denotes|].
  destruct (color_result vm l1) as [l2|]; [|apply denotes_ret]. simpl.
  eapply denotes_eq;
    [eapply denotes_bind; [apply parse_verbosity_denotes|];
     eapply denotes_bind; [apply parse_tuning_denotes|];
     eapply denotes_bind; [apply parse_output_denotes|];
     apply parse_input_denotes|done..].
Qed.

End OptionPart.
(** ** The loads *)

Lemma plan_unfold l em :
  plan l em
  = (if truthy (extract_jpg l) then [Preview] else [])
    ++ (if truthy em then [Metadata] else [])
    ++ (if truthy (extract_raw l) then [RawDecoded] else [])
    ++ (if truthy (extract_unconverted_raw l) then [RawUndecoded] else []).
Proof.
  unfold plan, fixed_order. simpl.
  by destruct (truthy (extract_jpg l)), (truthy em), (truthy (extract_raw l)),
    (truthy (extract_unconverted_raw l)).
Qed.

Section Loads.
Context `{Host} `{X3fLib}.

Lemma denotes_log {A} (m : M A) v evs :
  (forall w, m w = Some (v, log w evs)) -> denotes m v evs.
Proof. intros Hm w. exists (glob w). by rewrite Hm. Qed.

Lemma load_jpg_denotes l infile x :
  denotes (load_jpg l infile x)
    (load_if (truthy (extract_jpg l)) Preview infile x).2
    (load_if (truthy (extract_jpg l)) Preview infile x).1.
Proof.
  unfold load_jpg, load_if. destruct (truthy (extract_jpg l)); [|apply denotes_ret].
  apply denotes_log. intros w. unfold load_one, loaded.
  unfold x3f_get_thumb_jpeg, x3f_load_data, x3f_printf, goto_found_error.
  msimpl. destruct (lib_load_data x (lib_get_thumb_jpeg x)) as [[|code] x']; simpl;
    unfold log; simpl; by rewrite <- !app_assoc.
Qed.

Lemma load_meta_denotes em infile x :
  denotes (load_meta em infile x)
    (load_if (truthy em) Metadata infile x).2
    (load_if (truthy em) Metadata infile x).1.
Proof.
  unfold load_meta, load_if. destruct (truthy em); [|apply denotes_ret].
  apply denotes_log. intros w. unfold load_one, loaded.
  unfold x3f_get_prop, x3f_get_camf, x3f_load_data, x3f_printf, goto_found_error.
  msimpl. destruct (lib_load_data x (lib_get_camf x)) as [[|code] x']; simpl;
    [|unfold log; simpl; by rewrite <- !app_assoc].
  destruct (lib_get_prop x) as [de|]; simpl;
    [|unfold log; simpl; by rewrite <- !app_assoc].
  destruct (lib_load_data x' (Some de)) as [[|code] x'']; simpl;
    unfold log; simpl; by rewrite <- !app_assoc.
Qed.

Lemma load_raw_denotes l infile x :
  denotes (load_raw l infile x)
    (load_if (truthy (extract_raw l)) RawDecoded infile x).2
    (load_if (truthy (extract_raw l)) RawDecoded infile x).1.
Proof.
  unfold load_raw, load_if. destruct (truthy (extract_raw l)); [|apply denotes_ret].
  apply denotes_log. intros w. unfold load_one, load_raw_with, loaded.
  unfold x3f_get_raw, x3f_load_data, x3f_printf, goto_found_error.
  msimpl. destruct (lib_get_raw x) as [de|]; simpl;
    [|unfold log; simpl; by rewrite <- !app_assoc].
  destruct (lib_load_data x (Some de)) as [[|code] x']; simpl;
    unfold log; simpl; by rewrite <- !app_assoc.
Qed.

Lemma load_unconverted_raw_denotes l infile x :
  denotes (load_unconverted_raw l infile x)
    (load_if (truthy (extract_unconverted_raw l)) RawUndecoded infile x).2
    (load_if (truthy (extract_unconverted_raw l)) RawUndecoded infile x).1.
Proof.
  unfold load_unconverted_raw, load_if.
  destruct (truthy (extract_unconverted_raw l)); [|apply denotes_ret].
  apply denotes_log. intros w. unfold load_one, load_raw_with, loaded.
  unfold x3f_get_raw, x3f_load_image_block, x3f_printf, goto_found_error.
  msimpl. destruct (lib_get_raw x) as [de|]; simpl;
    [|unfold log; simpl; by rewrite <- !app_assoc].
  destruct (lib_load_image_block x (Some de)) as [[|code] x']; simpl;
    unfold log; simpl; by rewrite <- !app_assoc.
Qed.

Lemma denotes_and_then (m : M (option x3f_t)) (k : x3f_t -> M (option x3f_t))
    (f g : x3f_t -> list event * option x3f_t) x :
  denotes m (f x).2 (f x).1 ->
  (forall x', denotes (k x') (g x').2 (g x').1) ->
  denotes (bind_exit m k) (and_then f g x).2 (and_then f g x).1.
Proof.
  intros Hm Hk. unfold and_then.
  destruct (f x) as [e [x'|]] eqn:Hf; simpl in *.
  - eapply denotes_bind_exit; [done|]. apply Hk.
  - eapply denotes_eq;
      [eapply denotes_bind_exit; [done|apply denotes_ret]|done|apply app_nil_r].
Qed.

Lemma orchestrate_cons_if (b : bool) sec rest infile x :
  orchestrate ((if b then [sec] else []) ++ rest) infile x
  = and_then (load_if b sec infile) (orchestrate rest infile) x.
Proof.
  unfold and_then, load_if. destruct b; simpl.
  - destruct (load_one sec infile x) as [e [x'|]]; simpl; [|done].
    by destruct (orchestrate rest infile x').
  - by destruct (orchestrate rest infile x).
Qed.

Lemma orchestrate_last_if (b : bool) sec infile x :
  orchestrate (if b then [sec] else []) infile x = load_if b sec infile x.
Proof.
  unfold load_if. destruct b; simpl; [|done].
  destruct (load_one sec infile x) as [e [x'|]]; [|done]. by rewrite app_nil_r.
Qed.

(** The loads of [main] are the orchestrator run on the plan. *)
Lemma load_sections_denotes l em infile x :
  denotes (load_sections l em infile x)
    (orchestrate (plan l em) infile x).2 (orchestrate (plan l em) infile x).1.
Proof.
  unfold load_sections. rewrite plan_unfold, orchestrate_cons_if.
  apply denotes_and_then; [apply load_jpg_denotes|]. intros x1.
  rewrite orchestrate_cons_if.
  apply denotes_and_then; [apply load_meta_denotes|]. intros x2.
  rewrite orchestrate_cons_if.
  apply denotes_and_then; [apply load_raw_denotes|]. intros x3.
  rewrite orchestrate_last_if. apply load_unconverted_raw_denotes.
Qed.

End Loads.
(** ** The processing of the file *)

Lemma moved_moved w f1 e1 f2 e2 : moved (moved w f1 e1) f2 e2 = moved w f2 (e1 ++ e2).
Proof. unfold moved; simpl. by rewrite app_assoc. Qed.

Lemma log_moved w evs : log w evs = moved w (fs w) evs.
Proof. done. Qed.

Lemma moved_nil w : moved w (fs w) [] = w.
Proof. destruct w. unfold moved. simpl. by rewrite app_nil_r. Qed.

Section FileRun.
Context `{Host} `{X3fLib}.

Lemma fopen_run path mode w :
  fopen path mode w
  = Some (if host_readable path then fs w !! path else None,
          log w [E_fopen path mode
                   (bool_decide (is_Some (if host_readable path
                                          then fs w !! path else None)))]).
Proof. done. Qed.

Lemma unlink_run path w :
  unlink path w = Some (tt, moved w (after_unlink (fs w) path) [E_unlink path]).
Proof.
  unfold unlink, after_unlink, get_fs, set_fs, emit. msimpl.
  by destruct (host_unlink_permitted path).
Qed.

Lemma x3f_dump_run x call path w :
  x3f_dump x call path w
  = Some ((lib_dump x call path).1,
          moved w (if (lib_dump x call path).2 is Some bytes
                   then <[path := bytes]> (fs w) else fs w)
            [E_x3f_dump call path (lib_dump x call path).1]).
Proof.
  unfold x3f_dump, get_fs, set_fs, emit.
  destruct (lib_dump x call path) as [r [bytes|]]; msimpl; done.
Qed.

Lemma rename_run old new w :
  rename old new w
  = Some (match renamed (fs w) old new with
          | Some bytes =>
              (0, moved w (<[new := bytes]> (delete old (fs w))) [E_rename old new 0])
          | None => (-1, log w [E_rename old new (-1)])
          end).
Proof.
  unfold rename, renamed, get_fs, set_fs, emit. msimpl.
  destruct (fs w !! old) as [bytes|], (host_rename_permitted old new); done.
Qed.

Lemma dispatch_run l x sgain tmp out w :
  dispatch l x sgain tmp out w
  = Some ((lib_dump x (dump_call_of l sgain) tmp).1,
          moved w (if (lib_dump x (dump_call_of l sgain) tmp).2 is Some bytes
                   then <[tmp := bytes]> (fs w) else fs w)
            [E_x3f_printf INFO (dump_message (file_type l)) [ArgS (Some out)];
             E_x3f_dump (dump_call_of l sgain) tmp
               (lib_dump x (dump_call_of l sgain) tmp).1]).
Proof.
  unfold dispatch, dump_call_of, dump_message.
  destruct (file_type l);
    (erewrite bind_eq by apply x3f_printf_eq);
    rewrite x3f_dump_run; unfold moved, log; simpl; by rewrite <- app_assoc.
Qed.

(** Lines 404-469. *)
Lemma dump_and_commit_run l ifile x errors w r w' :
  dump_and_commit l (c_str ifile) x errors w = Some (r, w') ->
  exists w0 err tmpb outb dbg,
    make_paths pf (c_str ifile) (outdir l) (c_str (extension (file_type l)))
      (uninitialised tmpfile_cells (MAXTMPPATH + 1))
      (uninitialised outfile_cells (MAXOUTPATH + 1)) w0
    = Some ((err, tmpb, outb), log w0 dbg)
    /\ let tmp := path_of tmpb in
       let out := path_of outb in
       let call := dump_call_of l (resolve_sgain l x) in
       if decide (err = 0) then
         dbg = []
         /\ if is_ok (lib_dump x call tmp).1 then
              match renamed (after_dump (fs w) x call tmp) tmp out with
              | Some written =>
                  r = Some errors
                  /\ w' = moved w
                            (<[out := written]>
                               (delete tmp (after_dump (fs w) x call tmp)))
                            (paths_call l ifile :: dump_events l x tmp out
                             ++ [E_rename tmp out 0])
              | None =>
                  r = Some (errors + 1)
                  /\ w' = moved w (after_dump (fs w) x call tmp)
                            (paths_call l ifile :: dump_events l x tmp out
                             ++ [E_rename tmp out (-1);
                                 E_x3f_printf ERR "Could not rename %s to %s\n"
                                   [ArgS (Some tmp); ArgS (Some out)]])
              end
            else
              r = Some (errors + 1)
              /\ w' = moved w (after_dump (fs w) x call tmp)
                        (paths_call l ifile :: dump_events l x tmp out
                         ++ [E_x3f_printf ERR "Could not dump to %s: %s\n"
                               [ArgS (Some tmp); ArgErr (lib_dump x call tmp).1]])
       else
         r = None
         /\ w' = moved w (fs w)
                   (paths_call l ifile :: dbg
                    ++ [E_x3f_printf ERR
                          "Too large outfile path for infile %s and outdir %s\n"
                          [ArgS (Some (path_of (c_str ifile)));
                           ArgS (path_of <$> outdir l)]]).
Proof.
  unfold dump_and_commit. intros Hrun.
  rewrite (bind_eq _ _ _ _ _ (emit_eq _ w)) in Hrun.
  apply bind_inv in Hrun as ([[err tmpb] outb] & w1 & Hpaths & Hrun).
  cbv beta iota in Hrun.
  destruct (make_paths_any _ _ _ _ _ _ _ _ _ _ _ Hpaths)
    as (Herr & (dbg & -> & _ & Hdbg) & _).
  eexists _, err, tmpb, outb, dbg. split; [exact Hpaths|]. cbv zeta.
  unfold truthy in Hrun.
  destruct (decide (err = 0)) as [->|Hne].
  - rewrite Hdbg in * by done. split; [done|]. simpl in Hrun.
    rewrite (bind_eq _ _ _ _ _ (unlink_run _ _)) in Hrun.
    rewrite (bind_eq _ _ _ _ _ (dispatch_run _ _ _ _ _ _)) in Hrun.
    fold (paths_call l ifile) in Hrun.
    set (call := dump_call_of l (resolve_sgain l x)) in *.
    set (tmp := path_of tmpb) in *. set (out := path_of outb) in *.
    assert (forall evs,
      moved (moved (log (log w [paths_call l ifile]) [])
               (after_unlink (fs (log (log w [paths_call l ifile]) [])) tmp)
               [E_unlink tmp])
        (if (lib_dump x call tmp).2 is Some bytes
         then <[tmp := bytes]>
                (fs (moved (log (log w [paths_call l ifile]) [])
                      (after_unlink (fs (log (log w [paths_call l ifile]) [])) tmp)
                      [E_unlink tmp]))
         else fs (moved (log (log w [paths_call l ifile]) [])
                    (after_unlink (fs (log (log w [paths_call l ifile]) [])) tmp)
                    [E_unlink tmp]))
        evs
      = moved w (after_dump (fs w) x call tmp)
          (paths_call l ifile :: E_unlink tmp :: evs)) as Hworld.
    { intros evs. unfold after_dump, moved, log. simpl.
      rewrite <- ?app_assoc. simpl.
      by destruct ((lib_dump x call tmp).2). }
    rewrite Hworld in Hrun. clear Hworld.
    destruct (is_ok (lib_dump x call tmp).1); simpl in Hrun.
    + unfold bind at 1 in Hrun. rewrite rename_run in Hrun.
      simpl fs in Hrun.
      destruct (renamed (after_dump (fs w) x call tmp) tmp out) as [written|];
        simpl in Hrun.
      * injection Hrun as <- <-. split; [done|].
        rewrite moved_moved. unfold dump_events. fold call.
        by rewrite <- ?app_assoc.
      * rewrite (bind_eq _ _ _ _ _ (x3f_printf_eq _ _ _ _)) in Hrun.
        injection Hrun as <- <-. split; [done|].
        rewrite !log_moved, !moved_moved. unfold dump_events. fold call.
        simpl. by rewrite <- ?app_assoc.
    + rewrite (bind_eq _ _ _ _ _ (x3f_printf_eq _ _ _ _)) in Hrun.
      injection Hrun as <- <-. split; [done|].
      rewrite !log_moved, !moved_moved. unfold dump_events. fold call.
      simpl. by rewrite <- ?app_assoc.
  - assert ((err =? 0) = false) as Hz by lia. rewrite Hz in Hrun. simpl in Hrun.
    rewrite (bind_eq _ _ _ _ _ (x3f_printf_eq _ _ _ _)) in Hrun.
    injection Hrun as <- <-. split; [done|].
    rewrite !log_moved, !moved_moved. simpl. by rewrite <- ?app_assoc.
Qed.

End FileRun.
Section FileRun2.
Context `{Host} `{X3fLib}.

Lemma clean_up_run (x3f : option x3f_t) (f_in : option (list Byte.byte)) errors w :
  clean_up x3f f_in errors w
  = Some (errors,
          log w (E_x3f_delete (bool_decide (x3f = None))
                 :: if f_in is Some _ then [E_fclose] else [])).
Proof.
  unfold clean_up, x3f_delete, fclose, emit, log. msimpl.
  destruct f_in; msimpl; by rewrite <- ?app_assoc, ?app_nil_r.
Qed.

Lemma x3f_new_from_file_run f_in w :
  x3f_new_from_file f_in w
  = Some (lib_new_from_file f_in,
          log w [E_x3f_new_from_file (bool_decide (is_Some (lib_new_from_file f_in)))]).
Proof. done. Qed.

(** Every defined processing of the file leaves by one of the seven exit
    paths. *)
Lemma extract_file_run l em ifile errors w errors' w' :
  extract_file l em ifile errors w = Some (errors', w') ->
  exists path evs n files',
    file_run l em ifile (fs w) path evs n files'
    /\ errors' = errors + n /\ fs w' = files' /\ trace w' = trace w ++ evs.
Proof.
  unfold extract_file, found_error. intros Hrun.
  rewrite (bind_eq _ _ _ _ _ (fopen_run _ _ _)) in Hrun.
  set (p := path_of (c_str ifile)) in *.
  destruct (if host_readable p then fs w !! p else None) as [bytes|] eqn:Hopen.
  - rewrite (bind_eq _ _ _ _ _ (x3f_printf_eq _ _ _ _)) in Hrun.
    rewrite (bind_eq _ _ _ _ _ (x3f_new_from_file_run _ _)) in Hrun.
    destruct (lib_new_from_file bytes) as [x|] eqn:Hnew.
    + apply bind_inv in Hrun as (r & w1 & Hblock & Hrun).
      apply bind_inv in Hblock as (rl & w2 & Hload & Hblock).
      match type of Hload with
      | load_sections _ _ _ _ ?w0 = _ =>
          destruct (load_sections_denotes l em p x w0) as [g Hl]
      end.
      rewrite Hl in Hload. injection Hload as <- <-.
      destruct (orchestrate (plan l em) p x) as [levs [x'|]] eqn:Horch;
        simpl in Hblock.
      * apply dump_and_commit_run in Hblock
          as (w0 & err & tmpb & outb & dbg & Hpaths & Hcases).
        cbv zeta in Hcases. destruct (decide (err = 0)) as [->|Hne].
        -- destruct Hcases as [-> Hcases]. rewrite log_nil in Hpaths.
           destruct (is_ok _) eqn:Hok.
           ++ destruct (renamed _ _ _) as [written|] eqn:Hren;
                destruct Hcases as [-> ->]; rewrite clean_up_run in Hrun;
                injection Hrun as <- <-.
              ** eexists Success, _, 0, _.
                 split; [by eapply run_success|].
                 split; [lia|]. split; [done|]. simpl.
                 unfold opened_events. by list_norm.
              ** eexists RenameFailure, _, 1, _.
                 split; [by eapply run_rename_failure|].
                 split; [lia|]. split; [done|]. simpl.
                 unfold opened_events. by list_norm.
           ++ destruct Hcases as [-> ->]. rewrite clean_up_run in Hrun.
              injection Hrun as <- <-.
              eexists EncodeFailure, _, 1, _.
              split; [by eapply run_encode_failure|].
              split; [lia|]. split; [done|]. simpl.
              unfold opened_events. by list_norm.
        -- destruct Hcases as [-> ->]. rewrite clean_up_run in Hrun.
           injection Hrun as <- <-.
           eexists PathOverflow, _, 1, _.
           split; [eapply run_path_overflow;
                   [exact Hopen|exact Hnew|exact Horch|exact Hpaths|exact Hne]|].
           split; [lia|]. split; [done|]. simpl.
           unfold opened_events. by list_norm.
      * injection Hblock as <- <-. rewrite clean_up_run in Hrun.
        injection Hrun as <- <-.
        eexists LoadFailure, _, 1, _.
        split; [by eapply run_load_failure|].
        split; [lia|]. split; [done|]. simpl.
        unfold opened_events. by list_norm.
    + rewrite (bind_eq _ _ _ _ _ (x3f_printf_eq _ _ _ _)) in Hrun.
      rewrite clean_up_run in Hrun. injection Hrun as <- <-.
      eexists ReadFailure, _, 1, _.
      split; [by eapply run_read_failure|].
      split; [lia|]. split; [done|]. simpl. by list_norm.
  - rewrite (bind_eq _ _ _ _ _ (x3f_printf_eq _ _ _ _)) in Hrun.
    rewrite clean_up_run in Hrun. injection Hrun as <- <-.
    eexists OpenFailure, _, 1, _.
    split; [by eapply run_open_failure|].
    split; [lia|]. split; [done|]. simpl. by list_norm.
Qed.

End FileRun2.
(** ** The whole run *)

Section WholeRun.
Context `{Host} `{X3fLib}.

(** Every defined run of [main]: either the options make it return 1
    before any file is touched, or the one input file is processed and
    the summary is printed. *)
Lemma main_run vm w code w' :
  main vm w = Some (code, w') ->
  match parse_result vm with
  | None =>
      code = 1 /\ fs w' = fs w
      /\ trace w' = trace w ++ intro_events ++ parse_events vm
  | Some l =>
      exists ifile path evs n,
        opt_input vm = Some ifile
        /\ file_run l (compute_extract_meta l) ifile (fs w) path evs n (fs w')
        /\ trace w' = trace w ++ intro_events ++ parse_events vm
                      ++ E_x3f_set_use_opencl (use_opencl l) :: evs
                      ++ [summary 1 n]
        /\ code = Z.b2z (0 <? n)
  end.
Proof.
  unfold main. intros Hrun.
  rewrite (bind_eq _ _ _ _ _ (x3f_printf_eq _ _ _ _)) in Hrun.
  unfold setvbuf in Hrun.
  rewrite (bind_eq _ _ _ _ _ (emit_eq _ _)) in Hrun.
  rewrite (bind_eq _ _ _ _ _ (emit_eq _ _)) in Hrun.
  rewrite !log_log in Hrun. simpl app in Hrun. fold intro_events in Hrun.
  destruct (parse_options_denotes vm (log w intro_events)) as [g Hparse].
  rewrite (bind_eq _ _ _ _ _ Hparse) in Hrun. clear Hparse.
  destruct (parse_result vm) as [l|] eqn:Hres.
  - unfold x3f_set_use_opencl in Hrun.
    rewrite (bind_eq _ _ _ _ _ (emit_eq _ _)) in Hrun.
    assert (exists ifile, opt_input vm = Some ifile) as [ifile Hin].
    { unfold parse_result in Hres.
      destruct (format_result vm initial_locals); [|done]. simpl in Hres.
      destruct (color_result vm _); [|done]. simpl in Hres.
      destruct (opt_input vm); [by eexists|done]. }
    rewrite Hin in Hrun. rewrite (bind_access _ _ _ _ eq_refl) in Hrun.
    apply bind_inv in Hrun as (errors & w1 & Hfile & Hrun).
    apply extract_file_run in Hfile
      as (path & evs & n & files' & Hfr & -> & Hfs & Htr).
    unfold bind, ret, x3f_printf, emit in Hrun. simpl in Hrun.
    injection Hrun as <- <-.
    exists ifile, path, evs, n. split; [done|]. simpl.
    split; [by rewrite Hfs|]. split; [|done].
    rewrite Htr. simpl. by list_norm.
  - injection Hrun as <- <-. simpl. split; [done|]. split; [done|].
    by list_norm.
Qed.

End WholeRun.
(** ** The resolved request *)

Lemma parse_switches_fields vm l :
  let l' := parse_switches vm l in
  extract_jpg l' = extract_jpg l /\ extract_raw l' = extract_raw l
  /\ extract_unconverted_raw l' = extract_unconverted_raw l
  /\ file_type l' = file_type l /\ color_encoding l' = color_encoding l
  /\ log_hist l' = log_hist l /\ outdir l' = outdir l
  /\ crop l' = (if opt_noCrop vm then 0 else crop l)
  /\ apply_sgain l' = (if opt_sgain vm then 1
                       else if opt_noSGain vm then 0 else apply_sgain l).
Proof.
  destruct l. unfold parse_switches.
  destruct (opt_noCrop vm), (opt_noFixBad vm), (opt_noDenoise vm),
    (opt_noSGain vm), (opt_sgain vm), (opt_whiteBalance vm), (opt_compress vm),
    (opt_ocl vm); done.
Qed.

Lemma output_result_fields vm l :
  let l' := output_result vm l in
  extract_jpg l' = extract_jpg l /\ extract_raw l' = extract_raw l
  /\ extract_unconverted_raw l' = extract_unconverted_raw l
  /\ file_type l' = file_type l /\ color_encoding l' = color_encoding l
  /\ log_hist l' = log_hist l /\ crop l' = crop l
  /\ apply_sgain l' = apply_sgain l
  /\ outdir l' = (if opt_output vm is Some d then Some (c_str d) else outdir l).
Proof. destruct l. unfold output_result. by destruct (opt_output vm). Qed.

Lemma color_result_fields vm l l' :
  color_result vm l = Some l' ->
  extract_jpg l' = extract_jpg l /\ extract_raw l' = extract_raw l
  /\ extract_unconverted_raw l' = extract_unconverted_raw l
  /\ file_type l' = file_type l /\ log_hist l' = log_hist l
  /\ crop l' = crop l /\ apply_sgain l' = apply_sgain l /\ outdir l' = outdir l
  /\ color_encoding l'
     = default (color_encoding l) (opt_color vm ≫= color_assignment).
Proof.
  destruct l. unfold color_result. destruct (opt_color vm) as [spc|]; simpl.
  - destruct (color_assignment spc); simpl; [|done]. by intros [= <-].
  - by intros [= <-].
Qed.

(** The format chain against the table. *)
Lemma format_assignments_table fmt :
  match table_lookup fmt format_table with
  | Some (kind, (jpg, dec, undec)) =>
      exists al, format_assignments fmt = Some al
        /\ let l := initial_locals <: Z_macro <: al in
           file_type l = kind /\ extract_jpg l = jpg /\ extract_raw l = dec
           /\ extract_unconverted_raw l = undec
           /\ crop l = 1 /\ apply_sgain l = -1 /\ color_encoding l = SRGB
           /\ outdir l = None
  | None => format_assignments fmt = None
  end.
Proof.
  unfold format_assignments, format_table, table_lookup.
  repeat match goal with
         | |- context [String.eqb fmt ?k] =>
             destruct (String.eqb_spec fmt k) as [->|?]
         end; cbn; try done; eexists; (split; [reflexivity|]); done.
Qed.

Lemma color_assignment_table spc :
  color_assignment spc = table_lookup spc color_table.
Proof. reflexivity. Qed.

(** The resolved request in terms of the options. *)
Lemma parse_result_table vm :
  match table_lookup (default "dng" (opt_format vm)) format_table with
  | None => parse_result vm = None
  | Some (kind, (jpg, dec, undec)) =>
      match opt_color vm ≫= (fun spc => Some (table_lookup spc color_table)) with
      | Some None => parse_result vm = None
      | color =>
          match opt_input vm with
          | None => parse_result vm = None
          | Some _ =>
              exists l, parse_result vm = Some l
                /\ file_type l = kind /\ extract_jpg l = jpg
                /\ extract_raw l = dec /\ extract_unconverted_raw l = undec
                /\ color_encoding l = default SRGB (mjoin color)
                /\ crop l = (if opt_noCrop vm then 0 else 1)
                /\ apply_sgain l = (if opt_sgain vm then 1
                                    else if opt_noSGain vm then 0 else -1)
                /\ outdir l = c_str <$> opt_output vm
          end
      end
  end.
Proof.
  unfold parse_result, format_result.
  assert (match table_lookup (default "dng" (opt_format vm)) format_table with
          | Some (kind, (jpg, dec, undec)) =>
              exists l, (match opt_format vm with
                         | Some fmt => (fun al => initial_locals <: Z_macro <: al)
                                         <$> format_assignments fmt
                         | None => Some initial_locals
                         end) = Some l
                /\ file_type l = kind /\ extract_jpg l = jpg /\ extract_raw l = dec
                /\ extract_unconverted_raw l = undec
                /\ crop l = 1 /\ apply_sgain l = -1 /\ color_encoding l = SRGB
                /\ outdir l = None
          | None => (match opt_format vm with
                     | Some fmt => (fun al => initial_locals <: Z_macro <: al)
                                     <$> format_assignments fmt
                     | None => Some initial_locals
                     end) = None
          end) as Hfmt.
  { destruct (opt_format vm) as [fmt|];
      [change (default "dng" (Some fmt)) with fmt|simpl].
    - pose proof (format_assignments_table fmt) as Ht.
      destruct (table_lookup fmt format_table) as [[kind [[jpg dec] undec]]|].
      + cbv beta iota in Ht. destruct Ht as (al & -> & Hl). by eexists.
      + by rewrite Ht.
    - by eexists. }
  destruct (table_lookup (default "dng" (opt_format vm)) format_table)
    as [[kind [[jpg dec] undec]]|]; [|by rewrite Hfmt].
  destruct Hfmt as (l1 & -> & Hk & Hj & Hd & Hu & Hc & Hs & Hcol & Hout).
  cbn [mbind option_bind].
  pose proof (color_result_fields vm l1) as Hcr. unfold color_result in *.
  assert (forall l2,
    extract_jpg l2 = extract_jpg l1 /\ extract_raw l2 = extract_raw l1
    /\ extract_unconverted_raw l2 = extract_unconverted_raw l1
    /\ file_type l2 = file_type l1 /\ log_hist l2 = log_hist l1
    /\ crop l2 = crop l1 /\ apply_sgain l2 = apply_sgain l1
    /\ outdir l2 = outdir l1 ->
    let l := output_result vm (parse_switches vm l2) in
    file_type l = kind /\ extract_jpg l = jpg /\ extract_raw l = dec
    /\ extract_unconverted_raw l = undec
    /\ color_encoding l = color_encoding l2
    /\ crop l = (if opt_noCrop vm then 0 else 1)
    /\ apply_sgain l = (if opt_sgain vm then 1
                        else if opt_noSGain vm then 0 else -1)
    /\ outdir l = c_str <$> opt_output vm) as Hfields.
  { intros l2 (Hj' & Hd' & Hu' & Hk' & _ & Hc' & Hs' & Hout').
    pose proof (parse_switches_fields vm l2) as Hsw.
    pose proof (output_result_fields vm (parse_switches vm l2)) as Hor.
    cbv zeta in *.
    destruct Hsw as (Hs1 & Hs2 & Hs3 & Hs4 & Hs5 & _ & Hs7 & Hs8 & Hs9).
    destruct Hor as (-> & -> & -> & -> & -> & _ & -> & -> & ->).
    rewrite Hs1, Hs2, Hs3, Hs4, Hs5, Hs7, Hs8, Hs9.
    rewrite Hj', Hd', Hu', Hk', Hc', Hs', Hout', Hc, Hs, Hout.
    repeat split; try done; by destruct (opt_output vm). }
  destruct (opt_color vm) as [spc|]; cbn [mbind option_bind].
  - rewrite color_assignment_table in *.
    destruct (table_lookup spc color_table) as [c|];
      cbn [fmap option_fmap option_map mbind option_bind]; [|done].
    destruct (opt_input vm); [|done]. eexists. split; [done|].
    destruct (Hcr _ eq_refl) as (? & ? & ? & ? & ? & ? & ? & ? & Hcol').
    destruct (Hfields (l1 <: [set_color_encoding c]))
      as (? & ? & ? & ? & Hcol2 & ? & ? & ?); [done|].
    repeat split; try done. rewrite Hcol2. by destruct l1.
  - destruct (opt_input vm); [|done]. eexists. split; [done|].
    destruct (Hfields l1) as (? & ? & ? & ? & Hcol2 & ? & ? & ?); [done|].
    repeat split; try done. by rewrite Hcol2.
Qed.
Lemma table_lookup_In {V} key (t : list (string * V)) v :
  table_lookup key t = Some v -> In (key, v) t.
Proof.
  unfold table_lookup. induction t as [|[k v'] t IH]; [done|].
  destruct (String.eqb_spec key k) as [->|_].
  - intros [= ->]. by left.
  - intros Hv. right. by apply IH.
Qed.

(** What a resolved request looks like. *)
Lemma parse_result_Some vm l :
  parse_result vm = Some l ->
  exists kind jpg dec undec,
    In (default "dng" (opt_format vm), (kind, (jpg, dec, undec))) format_table
    /\ table_lookup (default "dng" (opt_format vm)) format_table
       = Some (kind, (jpg, dec, undec))
    /\ file_type l = kind /\ extract_jpg l = jpg
    /\ extract_raw l = dec /\ extract_unconverted_raw l = undec
    /\ color_encoding l
       = match opt_color vm with
         | Some spc => default SRGB (table_lookup spc color_table)
         | None => SRGB
         end
    /\ crop l = (if opt_noCrop vm then 0 else 1)
    /\ apply_sgain l = (if opt_sgain vm then 1
                        else if opt_noSGain vm then 0 else -1)
    /\ outdir l = c_str <$> opt_output vm
    /\ is_Some (opt_input vm).
Proof.
  intros Hres. pose proof (parse_result_table vm) as Ht.
  destruct (table_lookup (default "dng" (opt_format vm)) format_table)
    as [[kind [[jpg dec] undec]]|] eqn:Hrow; [|congruence].
  exists kind, jpg, dec, undec. split; [by apply table_lookup_In|].
  split; [done|].
  destruct (opt_color vm) as [spc|]; cbn [mbind option_bind] in Ht.
  - destruct (table_lookup spc color_table) as [c|]; [|congruence].
    destruct (opt_input vm); [|congruence].
    destruct Ht as (l' & Hl' & Hf). rewrite Hres in Hl'. injection Hl' as <-.
    destruct Hf as (? & ? & ? & ? & ? & ? & ? & ?). by repeat split.
  - destruct (opt_input vm); [|congruence].
    destruct Ht as (l' & Hl' & Hf). rewrite Hres in Hl'. injection Hl' as <-.
    destruct Hf as (? & ? & ? & ? & ? & ? & ? & ?). by repeat split.
Qed.

(** C2.  In every resolved request the metadata flag [extract_meta] is 1
    exactly when the output kind is [META] or [DNG], or when decoded raw
    data is extracted and either the crop is on or the color encoding is
    neither [UNPROCESSED] nor [QTOP]; otherwise it is 0.  No option sets
    it: two command lines with the same format, color and crop options
    resolve to the same flag, and the metadata section is in the plan
    exactly when the flag is 1. *)
Theorem extract_meta_derived (vm : variables_map) (l : locals) :
  parse_result vm = Some l ->
  let extract_meta := compute_extract_meta l in
  (extract_meta = 1 \/ extract_meta = 0)
  /\ (extract_meta = 1 <->
        file_type l = META \/ file_type l = DNG
        \/ (extract_raw l = 1
            /\ (crop l = 1
                \/ (color_encoding l <> UNPROCESSED /\ color_encoding l <> QTOP))))
  /\ (extract_raw l = 1 \/ extract_raw l = 0)
  /\ (crop l = 1 \/ crop l = 0)
  /\ (crop l = 1 <-> opt_noCrop vm = false)
  /\ (In Metadata (plan l extract_meta) <-> extract_meta = 1)
  /\ (forall vm' l',
        parse_result vm' = Some l' ->
        opt_format vm' = opt_format vm -> opt_color vm' = opt_color vm ->
        opt_noCrop vm' = opt_noCrop vm ->
        compute_extract_meta l' = extract_meta).
Proof.
  intros Hres em.
  destruct (parse_result_Some vm l Hres)
    as (kind & jpg & dec & undec & Hin & Hrow & Hk & _ & Hd & _ & Hcol & Hcrop & _).
  assert (dec = 1 \/ dec = 0) as Hdec.
  { unfold format_table in Hin. simpl in Hin.
    repeat (destruct Hin as [[= _ _ _ <- _]|Hin]; [auto|]). done. }
  assert (crop l = 1 \/ crop l = 0) as Hcrop01
    by (rewrite Hcrop; destruct (opt_noCrop vm); auto).
  assert (em = Z.b2z (truthy em)) as Hem.
  { unfold em, compute_extract_meta. by destruct (_ || _). }
  assert (em = 1 <->
          file_type l = META \/ file_type l = DNG
          \/ (extract_raw l = 1
              /\ (crop l = 1
                  \/ (color_encoding l <> UNPROCESSED /\ color_encoding l <> QTOP))))
    as Hiff.
  { unfold em, compute_extract_meta, truthy. rewrite Hd.
    destruct Hdec as [-> | ->], Hcrop01 as [-> | ->];
      destruct (file_type l), (color_encoding l); simpl;
      (split; [intros ?; try done; intuition congruence
              |intros [?|[?|[? [?|[? ?]]]]]; congruence]). }
  split; [unfold em, compute_extract_meta; destruct (_ || _); auto|].
  split; [exact Hiff|]. split; [by rewrite Hd|]. split; [done|].
  split; [rewrite Hcrop; by destruct (opt_noCrop vm)|].
  split.
  - rewrite plan_unfold. rewrite !in_app_iff.
    unfold em, compute_extract_meta.
    destruct (_ || _); simpl;
      destruct (truthy (extract_jpg l)), (truthy (extract_raw l)),
        (truthy (extract_unconverted_raw l)); simpl; intuition congruence.
  - intros vm' l' Hres' Hfmt Hcolor Hnocrop.
    destruct (parse_result_Some vm' l' Hres')
      as (kind' & jpg' & dec' & undec' & _ & Hrow' & Hk' & _ & Hd' & _ & Hcol'
          & Hcrop' & _).
    rewrite Hfmt, Hrow in Hrow'. injection Hrow' as <- _ <- _.
    rewrite Hcolor, <- Hcol in Hcol'. rewrite Hnocrop, <- Hcrop in Hcrop'.
    unfold em, compute_extract_meta. by rewrite Hk', Hk, Hd', Hd, Hcol', Hcrop'.
Qed.
Section Rejection.
Context `{Host} `{X3fLib}.

Lemma parse_events_quiet vm :
  Forall (fun e => touches_file e = false) (parse_events vm).
Proof.
  unfold parse_events.
  apply Forall_app; split;
    [unfold help_events; repeat case_match; repeat constructor|].
  apply Forall_app; split;
    [unfold format_events; repeat case_match; repeat constructor|].
  destruct (format_result vm initial_locals) as [l1|]; [|constructor].
  apply Forall_app; split;
    [unfold color_events; repeat case_match; repeat constructor|].
  destruct (color_result vm l1) as [l2|]; [|constructor].
  apply Forall_app; split;
    [unfold output_events|unfold input_events];
    repeat case_match; repeat constructor.
Qed.

Lemma intro_events_quiet : Forall (fun e => touches_file e = false) intro_events.
Proof. repeat constructor. Qed.

(** A request that the option part turns down ends the run at once: the
    run is defined, returns 1, and has only printed. *)
Lemma main_rejects vm w :
  parse_result vm = None ->
  exists g, main vm w = Some (1, upd w (intro_events ++ parse_events vm) g).
Proof.
  intros Hres. unfold main.
  rewrite (bind_eq _ _ _ _ _ (x3f_printf_eq _ _ _ _)).
  unfold setvbuf.
  rewrite (bind_eq _ _ _ _ _ (emit_eq _ _)).
  rewrite (bind_eq _ _ _ _ _ (emit_eq _ _)).
  rewrite !log_log. simpl app. fold intro_events.
  destruct (parse_options_denotes vm (log w intro_events)) as [g Hparse].
  rewrite (bind_eq _ _ _ _ _ Hparse), Hres. exists g.
  unfold ret. by rewrite log_upd, upd_upd.
Qed.

(** Tokens of the tables are not turned down when an input is given. *)
Lemma parse_result_accepts vm :
  is_Some (table_lookup (default "dng" (opt_format vm)) format_table) ->
  (forall spc, opt_color vm = Some spc ->
               is_Some (table_lookup spc color_table)) ->
  is_Some (opt_input vm) ->
  is_Some (parse_result vm).
Proof.
  pose proof (parse_result_table vm) as Ht.
  intros [row Hrow] Hcolor [ifile Hin]. rewrite Hrow in Ht.
  destruct row as [kind [[jpg dec] undec]]. rewrite Hin in Ht.
  destruct (opt_color vm) as [spc|]; cbn [mbind option_bind] in Ht.
  - destruct (Hcolor spc eq_refl) as [c Hc]. rewrite Hc in Ht.
    destruct Ht as (l & -> & _). by eexists.
  - destruct Ht as (l & -> & _). by eexists.
Qed.


End Rejection.
(** ** The load orchestrator (C7) *)

Section LoadOrder.
Context `{Host} `{X3fLib}.

Lemma fail_fast_app a b :
  Forall (fun e => failed_load e = false) a -> fail_fast b -> fail_fast (a ++ b).
Proof.
  induction 1 as [|e a He _ IH]; intros Hb; simpl; [done|].
  split; [by rewrite He|by apply IH].
Qed.

Lemma fail_fast_split evs pre e post :
  fail_fast evs -> evs = pre ++ e :: post -> failed_load e = true ->
  exists fmt args, post = [E_x3f_printf ERR fmt args].
Proof.
  intros Hff ->. induction pre as [|a pre IH]; simpl in Hff.
  - intros He. by apply Hff.
  - apply IH, Hff.
Qed.

Lemma load_one_events sec infile x :
  fail_fast (load_one sec infile x).1
  /\ match (load_one sec infile x).2 with
     | Some _ => Forall (fun e => failed_load e = false) (load_one sec infile x).1
     | None => True
     end.
Proof.
  destruct sec; unfold load_one, load_raw_with, loaded.
  - destruct (lib_load_data x (lib_get_thumb_jpeg x)) as [[|code] x']; simpl;
      repeat split; repeat constructor; try done; eauto.
  - destruct (lib_load_data x (lib_get_camf x)) as [[|code] x']; simpl.
    + destruct (lib_get_prop x) as [de|]; simpl.
      * destruct (lib_load_data x' (Some de)) as [[|code] x'']; simpl;
          repeat split; repeat constructor; try done; eauto.
      * repeat split; repeat constructor; done.
    + destruct (lib_get_prop x); simpl;
        repeat split; repeat constructor; try done; eauto.
  - destruct (lib_get_raw x) as [de|]; simpl.
    + destruct (lib_load_data x (Some de)) as [[|code] x']; simpl;
        repeat split; repeat constructor; try done; eauto.
    + repeat split; repeat constructor; done.
  - destruct (lib_get_raw x) as [de|]; simpl.
    + destruct (lib_load_image_block x (Some de)) as [[|code] x']; simpl;
        repeat split; repeat constructor; try done; eauto.
    + repeat split; repeat constructor; done.
Qed.

Lemma orchestrate_events secs infile x :
  fail_fast (orchestrate secs infile x).1
  /\ match (orchestrate secs infile x).2 with
     | Some _ => Forall (fun e => failed_load e = false) (orchestrate secs infile x).1
     | None => True
     end.
Proof.
  revert x. induction secs as [|sec secs IH]; intros x; simpl; [by split|].
  pose proof (load_one_events sec infile x) as [Hff Hok].
  destruct (load_one sec infile x) as [evs [x'|]]; simpl in *; [|done].
  destruct (IH x') as [Hff' Hok'].
  destruct (orchestrate secs infile x') as [evs' r']; simpl in *.
  split; [by apply fail_fast_app|].
  destruct r'; [|done]. by apply Forall_app.
Qed.

Lemma plan_sublist l em : sublist (plan l em) fixed_order.
Proof.
  rewrite plan_unfold. unfold fixed_order.
  destruct (truthy (extract_jpg l)), (truthy em), (truthy (extract_raw l)),
    (truthy (extract_unconverted_raw l)); simpl;
    repeat first [apply sublist_nil | apply sublist_skip | apply sublist_cons];
    try (apply sublist_skip; repeat first [apply sublist_nil | apply sublist_cons | apply sublist_skip]).
Qed.

(** C7.  The loads of [main] are the orchestrator run on the plan: the
    sections the plan asks for are loaded one after the other in the
    fixed order preview, metadata, decoded raw, undecoded raw, each at
    most once; a resolved request never asks for both raw variants; a
    load that fails is followed by nothing but its error message and
    makes the block jump to [found_error].  In the metadata section the
    failure of the CAMF load is an error, and a container without
    property block passes with the CAMF load alone. *)
Theorem load_orchestrator_order (l : locals) (em : Z) (infile : string)
    (x : x3f_t) (w : world) :
  let secs := plan l em in
  let evs := (orchestrate secs infile x).1 in
  let res := (orchestrate secs infile x).2 in
  (exists g, load_sections l em infile x w = Some (res, upd w evs g))
  /\ sublist secs fixed_order /\ NoDup secs
  /\ (forall vm, parse_result vm = Some l ->
                 ~ (In RawDecoded secs /\ In RawUndecoded secs))
  /\ (forall pre e post,
        evs = pre ++ e :: post -> failed_load e = true ->
        res = None /\ exists fmt args, post = [E_x3f_printf ERR fmt args])
  /\ (is_ok (lib_load_data x (lib_get_camf x)).1 = false ->
      exists g evs', load_meta 1 infile x w = Some (None, upd w evs' g))
  /\ (is_ok (lib_load_data x (lib_get_camf x)).1 = true ->
      lib_get_prop x = None ->
      exists g,
        load_meta 1 infile x w
        = Some (Some (lib_load_data x (lib_get_camf x)).2,
                upd w [E_x3f_get_prop None; E_x3f_get_camf (lib_get_camf x);
                       E_x3f_load_data (lib_get_camf x) X3F_OK] g)).
Proof.
  intros secs evs res.
  split; [apply load_sections_denotes|].
  split; [apply plan_sublist|].
  split; [apply (sublist_NoDup _ fixed_order); [|apply plan_sublist];
          unfold fixed_order;
          repeat (apply NoDup_cons_2;
                  [rewrite ?not_elem_of_cons; repeat split; try done;
                   apply not_elem_of_nil|]);
          apply NoDup_nil_2|].
  split.
  { intros vm Hres [Hdec Hundec].
    destruct (parse_result_Some vm l Hres)
      as (kind & jpg & dec & undec & Hin & _ & _ & _ & Hd & Hu & _).
    unfold secs in *. rewrite plan_unfold in Hdec, Hundec.
    rewrite !in_app_iff in Hdec, Hundec. unfold truthy in *.
    rewrite Hd, Hu in *.
    unfold format_table in Hin. simpl in Hin.
    repeat (destruct Hin as [[= _ _ _ <- <-]|Hin];
            [simpl in *; repeat case_match; simpl in *; intuition congruence|]).
    done. }
  split.
  { intros pre e post Hevs Hfail.
    pose proof (orchestrate_events secs infile x) as [Hff Hok].
    fold evs res in Hff, Hok. split.
    - destruct res; [|done]. rewrite Hevs in Hok.
      apply Forall_app in Hok as [_ Hok]. inversion Hok; congruence.
    - by eapply fail_fast_split. }
  destruct (load_meta_denotes 1 infile x w) as [g Hmeta].
  unfold load_if, load_one, loaded in Hmeta. simpl in Hmeta.
  split.
  - intros Hfail. rewrite Hmeta.
    destruct (lib_load_data x (lib_get_camf x)) as [r x']. simpl in *.
    rewrite Hfail. simpl. destruct (lib_get_prop x); eauto.
  - intros Hok Hprop. rewrite Hmeta.
    destruct (lib_load_data x (lib_get_camf x)) as [r x']. simpl in *.
    rewrite Hok, Hprop. simpl. destruct r; [|done]. eauto.
Qed.

End LoadOrder.
(** ** Kinds of events in a run *)

Section EventKinds.
Context `{Host} `{X3fLib}.

Lemma load_one_loads_only sec infile x :
  Forall (fun e => loads_only e = true) (load_one sec infile x).1.
Proof.
  destruct sec; unfold load_one, load_raw_with, loaded.
  - destruct (lib_load_data x (lib_get_thumb_jpeg x)) as [[|code] x']; simpl;
      repeat constructor.
  - destruct (lib_load_data x (lib_get_camf x)) as [[|code] x']; simpl.
    + destruct (lib_get_prop x) as [de|]; simpl.
      * destruct (lib_load_data x' (Some de)) as [[|code] x'']; simpl;
          repeat constructor.
      * repeat constructor.
    + destruct (lib_get_prop x); simpl; repeat constructor.
  - destruct (lib_get_raw x) as [de|]; simpl.
    + destruct (lib_load_data x (Some de)) as [[|code] x']; simpl;
        repeat constructor.
    + repeat constructor.
  - destruct (lib_get_raw x) as [de|]; simpl.
    + destruct (lib_load_image_block x (Some de)) as [[|code] x']; simpl;
        repeat constructor.
    + repeat constructor.
Qed.

Lemma orchestrate_loads_only secs infile x :
  Forall (fun e => loads_only e = true) (orchestrate secs infile x).1.
Proof.
  revert x. induction secs as [|sec secs IH]; intros x; simpl; [constructor|].
  pose proof (load_one_loads_only sec infile x) as Hone.
  destruct (load_one sec infile x) as [evs [x'|]]; simpl in *; [|done].
  specialize (IH x'). destruct (orchestrate secs infile x') as [evs' r'].
  simpl in *. by apply Forall_app.
Qed.

Lemma Forall_loads_only (P : event -> bool) evs :
  (forall e, loads_only e = true -> P e = false) ->
  Forall (fun e => loads_only e = true) evs -> Forall (fun e => P e = false) evs.
Proof. intros HP Hl. eapply Forall_impl; [exact Hl|exact HP]. Qed.

Lemma Forall_debug (P : event -> bool) evs :
  (forall lvl fmt args, P (E_x3f_printf lvl fmt args) = false) ->
  Forall is_debug evs -> Forall (fun e => P e = false) evs.
Proof.
  intros HP Hl. eapply Forall_impl; [exact Hl|].
  intros [] Hd; try done; apply HP.
Qed.

End EventKinds.

Lemma length_append_string s t :
  String.length (s +:+ t) = (String.length s + String.length t)%nat.
Proof. induction s as [|c s IH]; simpl; [done|]. by rewrite IH. Qed.

Lemma append_tmp_ne s : s +:+ ".tmp" <> s.
Proof.
  intros Heq. apply (f_equal String.length) in Heq.
  rewrite length_append_string in Heq. simpl in Heq. lia.
Qed.
(** ** The commit protocol (C1) *)

Section Commit.
Context `{Host} `{X3fLib}.

Lemma after_dump_other files x call tmp q :
  q <> tmp -> after_dump files x call tmp !! q = files !! q.
Proof.
  intros Hq. unfold after_dump, after_unlink.
  destruct ((lib_dump x call tmp).2), (host_unlink_permitted tmp);
    rewrite ?lookup_insert_ne, ?lookup_delete_ne by done; done.
Qed.

Lemma renamed_Some files tmp out written :
  renamed files tmp out = Some written ->
  files !! tmp = Some written /\ host_rename_permitted tmp out = true.
Proof. unfold renamed. by destruct (host_rename_permitted tmp out). Qed.

(** The part of a file's processing that stages and commits the output,
    exit path by exit path. *)
Lemma file_run_commit l em ifile files path evs n files' :
  file_run l em ifile files path evs n files' ->
  commit_outcome l files path evs n files'.
Proof.
  unfold commit_outcome.
  assert (forall p levs, Forall (fun e => loads_only e = true) levs ->
            Forall (fun e => changes_files e = false)
              (opened_events p ++ levs)) as Hpre.
  { intros p levs Hl. apply Forall_app. split; [repeat constructor|].
    eapply Forall_loads_only; [|exact Hl]. by intros []. }
  assert (forall p x levs r, orchestrate (plan l em) p x = (levs, r) ->
            Forall (fun e => loads_only e = true) levs) as Hlevs.
  { intros p x levs r Ho. pose proof (orchestrate_loads_only (plan l em) p x) as Hl.
    by rewrite Ho in Hl. }
  destruct 1 as [p Hopen|bytes p Hopen Hnew|bytes x levs p Hopen Hnew Horch
                |bytes x levs x' w0 err tmpb outb dbg p Hopen Hnew Horch Hpaths Herr
                |bytes x levs x' w0 tmpb outb p tmp out call Hopen Hnew Horch Hpaths Hok
                |bytes x levs x' w0 tmpb outb p tmp out call Hopen Hnew Horch Hpaths Hok Hren
                |bytes x levs x' w0 tmpb outb written p tmp out call Hopen Hnew Horch
                   Hpaths Hok Hren].
  - left. repeat split; [repeat constructor|simpl; auto].
  - left. repeat split; [repeat constructor|simpl; auto].
  - left. repeat split; [|simpl; auto].
    rewrite app_assoc. apply Forall_app. split; [eauto|repeat constructor].
  - left. repeat split; [|simpl; auto 6].
    rewrite app_assoc. apply Forall_app. split; [eauto|].
    constructor; [done|]. apply Forall_app. split; [|repeat constructor].
    destruct (make_paths_any _ _ _ _ _ _ _ _ _ _ _ Hpaths)
      as (_ & (dbg' & Hw & Hdbg & _) & _).
    assert (dbg' = dbg) as ->.
    { apply (f_equal trace) in Hw. simpl in Hw. by apply app_inv_head in Hw. }
    by eapply Forall_debug.
  - right.
    destruct (make_paths_any _ _ _ _ _ _ _ _ _ _ _ Hpaths) as (_ & _ & Htmp).
    specialize (Htmp eq_refl). fold tmp out in Htmp.
    eexists x', tmp, out, (opened_events p ++ levs ++ [paths_call l ifile]), _.
    cbv zeta. split; [done|]. split.
    { unfold dump_events. fold call. by list_norm. }
    split.
    { rewrite app_assoc. apply Forall_app. split; [eauto|repeat constructor]. }
    split.
    { apply after_dump_other. rewrite Htmp. intros Heq. by apply (append_tmp_ne out). }
    fold call. by repeat split.
  - right.
    destruct (make_paths_any _ _ _ _ _ _ _ _ _ _ _ Hpaths) as (_ & _ & Htmp).
    specialize (Htmp eq_refl). fold tmp out in Htmp.
    eexists x', tmp, out, (opened_events p ++ levs ++ [paths_call l ifile]), _.
    cbv zeta. split; [done|]. split.
    { unfold dump_events. fold call. by list_norm. }
    split.
    { rewrite app_assoc. apply Forall_app. split; [eauto|repeat constructor]. }
    split.
    { apply after_dump_other. rewrite Htmp. intros Heq. by apply (append_tmp_ne out). }
    fold call. by repeat split.
  - right.
    destruct (make_paths_any _ _ _ _ _ _ _ _ _ _ _ Hpaths) as (_ & _ & Htmp).
    specialize (Htmp eq_refl). fold tmp out in Htmp.
    assert (out <> tmp) as Hne.
    { rewrite Htmp. intros Heq. by apply (append_tmp_ne out). }
    eexists x', tmp, out, (opened_events p ++ levs ++ [paths_call l ifile]), _.
    cbv zeta. split; [done|]. split.
    { unfold dump_events. fold call. by list_norm. }
    split.
    { rewrite app_assoc. apply Forall_app. split; [eauto|repeat constructor]. }
    split; [by apply after_dump_other|].
    fold call. split; [done|]. split; [done|]. split; [done|].
    apply renamed_Some in Hren as [Hw _].
    exists written. split; [done|]. split; [done|].
    split; [apply lookup_insert_eq|].
    rewrite lookup_insert_ne by done. apply lookup_delete_eq.
Qed.

Lemma file_run_renamed l em ifile files path evs n files' :
  file_run l em ifile files path evs n files' ->
  (path = Success <-> exists tmp out, In (E_rename tmp out 0) evs)
  /\ (path = Success <-> n = 0) /\ (n = 0 \/ n = 1).
Proof.
  intros Hrun. pose proof (file_run_commit _ _ _ _ _ _ _ _ Hrun) as Hc.
  assert (forall fevs, Forall (fun e => changes_files e = false) fevs ->
            ~ exists tmp out, In (E_rename tmp out 0) fevs) as Hno.
  { intros fevs Hf (tmp & out & Hin). rewrite Forall_forall in Hf.
    by specialize (Hf _ (proj2 (list_elem_of_In _ _) Hin)). }
  destruct Hc as [(Hquiet & _ & -> & Hpath)|
                  (x' & tmp & out & pre & post & _ & -> & Hpre & _ & Hcase)].
  - split; [|split; [|auto]].
    + split; [intros ->; simpl in Hpath; intuition discriminate|].
      intros Hex. by destruct (Hno _ Hquiet).
    + split; [intros ->; simpl in Hpath; intuition discriminate|done].
  - assert (forall post',
      (exists tmp0 out0, In (E_rename tmp0 out0 0)
         (pre ++ E_unlink tmp
              :: E_x3f_printf INFO (dump_message (file_type l)) [ArgS (Some out)]
              :: E_x3f_dump (dump_call_of l (resolve_sgain l x')) tmp
                   (lib_dump x' (dump_call_of l (resolve_sgain l x')) tmp).1
              :: post')) ->
      exists tmp0 out0, In (E_rename tmp0 out0 0) post') as Hpost.
    { intros post' (t0 & o0 & Hin). apply in_app_iff in Hin as [Hin|Hin].
      - destruct (Hno _ Hpre). eauto.
      - simpl in Hin. destruct Hin as [|[|[|Hin]]]; try done. eauto. }
    destruct path; try done.
    + destruct Hcase as (_ & -> & -> & _). split; [|split; [|auto]].
      * split; [done|].
        intros (t0 & o0 & Hin)%Hpost. simpl in Hin. intuition discriminate.
      * split; [done|lia].
    + destruct Hcase as (_ & -> & -> & _). split; [|split; [|auto]].
      * split; [done|].
        intros (t0 & o0 & Hin)%Hpost. simpl in Hin. intuition discriminate.
      * split; [done|lia].
    + destruct Hcase as (_ & -> & -> & _). split; [|split; [|auto]].
      * split; [|done].
        intros _. exists tmp, out. apply in_app_iff. right. simpl. auto.
      * done.
Qed.

(** C1.  In every defined run that processes the input file, a file
    becomes visible at the final path exactly when the encoder returned
    [X3F_OK] and [rename] returned 0: the run then left by [Success],
    counted no error, and the final path holds what the encoder left at
    the temp path, which is gone.  The temp path is the final path
    followed by ".tmp"; it is unlinked before the encoder is called, and
    nothing changes files before that.  After a successful encoder call
    comes the [rename]; when it fails an error is counted and the files
    stay as the encoder left them.  After a failed encoder call no
    [unlink] and no [rename] follows: the files stay as the encoder left
    them, the final path as it was.  On the exit paths before the paths
    are built no file is touched. *)
Theorem commit_protocol (vm : variables_map) (w : world) (code : Z)
    (w' : world) (l : locals) :
  main vm w = Some (code, w') ->
  parse_result vm = Some l ->
  exists path evs n,
    trace w' = trace w ++ intro_events ++ parse_events vm
               ++ E_x3f_set_use_opencl (use_opencl l) :: evs ++ [summary 1 n]
    /\ code = Z.b2z (0 <? n)
    /\ commit_outcome l (fs w) path evs n (fs w')
    /\ (path = Success <-> exists tmp out, In (E_rename tmp out 0) evs)
    /\ (path = Success <-> n = 0).
Proof.
  intros Hmain Hres. apply main_run in Hmain. rewrite Hres in Hmain.
  destruct Hmain as (ifile & path & evs & n & _ & Hrun & Htrace & Hcode).
  exists path, evs, n. split; [done|]. split; [done|].
  split; [by eapply file_run_commit|].
  destruct (file_run_renamed _ _ _ _ _ _ _ _ Hrun) as (? & ? & _). by split.
Qed.

End Commit.
(** ** The spatial gain default (C5) *)

Section SpatialGain.
Context `{Host} `{X3fLib}.

Lemma not_In_changes_files evs e :
  Forall (fun e => changes_files e = false) evs -> changes_files e = true ->
  ~ In e evs.
Proof.
  intros Hf He Hin. rewrite Forall_forall in Hf.
  specialize (Hf _ (proj2 (list_elem_of_In _ _) Hin)). congruence.
Qed.

Lemma quiet_changes_files evs :
  Forall (fun e => touches_file e = false) evs ->
  Forall (fun e => changes_files e = false) evs.
Proof. intros Hl. eapply Forall_impl; [exact Hl|]. by intros []. Qed.

(** The encoder call of a run: it follows the loads, and its arguments
    are taken from the handle as the loads left it. *)
Lemma file_run_dump l em ifile files path evs n files' call tmp r :
  file_run l em ifile files path evs n files' ->
  In (E_x3f_dump call tmp r) evs ->
  exists bytes x levs x' out post,
    let p := path_of (c_str ifile) in
    (if host_readable p then files !! p else None) = Some bytes
    /\ lib_new_from_file bytes = Some x
    /\ orchestrate (plan l em) p x = (levs, Some x')
    /\ call = dump_call_of l (resolve_sgain l x')
    /\ evs = (opened_events p ++ levs ++ [paths_call l ifile])
             ++ [E_unlink tmp;
                 E_x3f_printf INFO (dump_message (file_type l)) [ArgS (Some out)];
                 E_x3f_dump call tmp r] ++ post.
Proof.
  intros Hrun Hin.
  pose proof (file_run_commit _ _ _ _ _ _ _ _ Hrun) as Hc.
  destruct Hc as [(Hquiet & _)|_].
  { by destruct (not_In_changes_files _ (E_x3f_dump call tmp r) Hquiet eq_refl Hin). }
  assert (forall p x levs r0, orchestrate (plan l em) p x = (levs, r0) ->
            Forall (fun e => changes_files e = false)
              (opened_events p ++ levs ++ [paths_call l ifile])) as Hpre.
  { intros p x levs r0 Ho. apply Forall_app. split; [repeat constructor|].
    apply Forall_app. split; [|repeat constructor].
    pose proof (orchestrate_loads_only (plan l em) p x) as Hl. rewrite Ho in Hl.
    eapply Forall_loads_only; [|exact Hl]. by intros []. }
  destruct Hrun as [p Hopen|bytes p Hopen Hnew|bytes x levs p Hopen Hnew Horch
                |bytes x levs x' w0 err tmpb outb dbg p Hopen Hnew Horch Hpaths Herr
                |bytes x levs x' w0 tmpb outb p tmp0 out call0 Hopen Hnew Horch Hpaths Hok
                |bytes x levs x' w0 tmpb outb p tmp0 out call0 Hopen Hnew Horch Hpaths Hok Hren
                |bytes x levs x' w0 tmpb outb written p tmp0 out call0 Hopen Hnew Horch
                   Hpaths Hok Hren];
    try (exfalso; revert Hin; apply not_In_changes_files; [|done];
         repeat first [apply Forall_app; split | constructor]; try done;
         fail).
  - exfalso. revert Hin. apply not_In_changes_files; [|done].
    rewrite app_assoc. apply Forall_app. split; [|repeat constructor].
    specialize (Hpre _ _ _ _ Horch). rewrite app_assoc in Hpre.
    by apply Forall_app in Hpre as [? _].
  - exfalso. revert Hin. apply not_In_changes_files; [|done].
    rewrite app_assoc. apply Forall_app.
    specialize (Hpre _ _ _ _ Horch). rewrite app_assoc in Hpre.
    apply Forall_app in Hpre as [Hpre _]. split; [done|].
    constructor; [done|]. apply Forall_app. split; [|repeat constructor].
    destruct (make_paths_any _ _ _ _ _ _ _ _ _ _ _ Hpaths)
      as (_ & (dbg' & Hw & Hdbg & _) & _).
    assert (dbg' = dbg) as ->.
    { apply (f_equal trace) in Hw. simpl in Hw. by apply app_inv_head in Hw. }
    by eapply Forall_debug.
  - specialize (Hpre _ _ _ _ Horch).
    replace (opened_events p ++ levs ++ paths_call l ifile :: dump_events l x' tmp0 out ++ _)
      with ((opened_events p ++ levs ++ [paths_call l ifile])
            ++ dump_events l x' tmp0 out
            ++ [E_x3f_printf ERR "Could not dump to %s: %s\n"
                  [ArgS (Some tmp0); ArgErr (lib_dump x' call0 tmp0).1];
                E_x3f_delete false; E_fclose]) in * by by list_norm.
    apply in_app_iff in Hin as [Hin|Hin];
      [by destruct (not_In_changes_files _ (E_x3f_dump call tmp r) Hpre eq_refl Hin)|].
    simpl in Hin. destruct Hin as [|[|[Heq|Hin]]]; try done;
      [|intuition discriminate].
    injection Heq as <- <- <-.
    eexists bytes, x, levs, x', out, _. cbv zeta.
    repeat split; try done.
  - specialize (Hpre _ _ _ _ Horch).
    replace (opened_events p ++ levs ++ paths_call l ifile :: dump_events l x' tmp0 out ++ _)
      with ((opened_events p ++ levs ++ [paths_call l ifile])
            ++ dump_events l x' tmp0 out
            ++ [E_rename tmp0 out (-1);
                E_x3f_printf ERR "Could not rename %s to %s\n"
                  [ArgS (Some tmp0); ArgS (Some out)];
                E_x3f_delete false; E_fclose]) in * by by list_norm.
    apply in_app_iff in Hin as [Hin|Hin];
      [by destruct (not_In_changes_files _ (E_x3f_dump call tmp r) Hpre eq_refl Hin)|].
    simpl in Hin. destruct Hin as [|[|[Heq|Hin]]]; try done;
      [|intuition discriminate].
    injection Heq as <- <- <-.
    eexists bytes, x, levs, x', out, _. cbv zeta.
    repeat split; try done.
  - specialize (Hpre _ _ _ _ Horch).
    replace (opened_events p ++ levs ++ paths_call l ifile :: dump_events l x' tmp0 out ++ _)
      with ((opened_events p ++ levs ++ [paths_call l ifile])
            ++ dump_events l x' tmp0 out
            ++ [E_rename tmp0 out 0; E_x3f_delete false; E_fclose]) in *
      by by list_norm.
    apply in_app_iff in Hin as [Hin|Hin];
      [by destruct (not_In_changes_files _ (E_x3f_dump call tmp r) Hpre eq_refl Hin)|].
    simpl in Hin. destruct Hin as [|[|[Heq|Hin]]]; try done;
      [|intuition discriminate].
    injection Heq as <- <- <-.
    eexists bytes, x, levs, x', out, _. cbv zeta.
    repeat split; try done.
Qed.

Lemma sgain_argument_dump_call_of l sgain s :
  sgain_argument (dump_call_of l sgain) = Some s -> s = sgain.
Proof. unfold dump_call_of. destruct (file_type l); simpl; congruence. Qed.


End SpatialGain.
(** ** The place of the path builder (C8) *)

Section PathsPlace.
Context `{Host} `{X3fLib}.

Lemma parse_events_resolved vm l :
  parse_result vm = Some l ->
  parse_events vm = help_events vm ++ output_events vm.
Proof.
  unfold parse_result, parse_events, format_events, color_events, input_events,
    format_result, color_result.
  destruct (opt_format vm) as [fmt|]; simpl.
  - destruct (format_assignments fmt); simpl; [|done].
    destruct (opt_color vm) as [spc|]; simpl.
    + destruct (color_assignment spc); simpl; [|done].
      destruct (opt_input vm); [|done]. by rewrite app_nil_r.
    + destruct (opt_input vm); [|done]. by rewrite app_nil_r.
  - destruct (opt_color vm) as [spc|]; simpl.
    + destruct (color_assignment spc); simpl; [|done].
      destruct (opt_input vm); [|done]. by rewrite app_nil_r.
    + destruct (opt_input vm); [|done]. by rewrite app_nil_r.
Qed.




End PathsPlace.
(** ** The release of the handle (C9) *)

Section Release.
Context `{Host} `{X3fLib}.

(** C9.  A run that is turned down by its options touches no file, so
    there is nothing to release.  In every other defined run, whatever
    the exit path of the processing of the file, the calls end with
    [x3f_delete], with [fclose] when the input file had been opened, and
    then the summary; before these two release calls stands the only
    part of the run that opens the file and works with the handle, and
    it releases nothing.  [x3f_delete] gets NULL exactly when no handle
    had been created. *)
Theorem handle_released (vm : variables_map) (w : world) (code : Z)
    (w' : world) :
  main vm w = Some (code, w') ->
  match parse_result vm with
  | None =>
      exists evs, trace w' = trace w ++ evs
                  /\ Forall (fun e => touches_file e = false) evs
  | Some l =>
      exists body (opened created : bool) n,
        trace w' = trace w
                   ++ (intro_events ++ parse_events vm
                       ++ [E_x3f_set_use_opencl (use_opencl l)])
                   ++ body
                   ++ E_x3f_delete (negb created)
                      :: (if opened then [E_fclose] else [])
                   ++ [summary 1 n]
        /\ Forall (fun e => touches_file e = false)
             (intro_events ++ parse_events vm
              ++ [E_x3f_set_use_opencl (use_opencl l)])
        /\ Forall (fun e => releases e = false) body
        /\ (opened = true <-> exists p, In (E_fopen p "rb" true) body)
        /\ (created = true <-> In (E_x3f_new_from_file true) body)
        /\ (created = true -> opened = true)
  end.
Proof.
  intros Hmain. apply main_run in Hmain.
  destruct (parse_result vm) as [l|].
  - destruct Hmain as (ifile & path & evs & n & Hin & Hrun & Htrace & Hcode).
    assert (forall p x levs r, orchestrate (plan l (compute_extract_meta l)) p x
                               = (levs, r) ->
              Forall (fun e => releases e = false) (opened_events p ++ levs))
      as Hpre.
    { intros p x levs r Ho. apply Forall_app. split; [repeat constructor|].
      pose proof (orchestrate_loads_only (plan l (compute_extract_meta l)) p x)
        as Hl.
      rewrite Ho in Hl. eapply Forall_loads_only; [|exact Hl]. by intros []. }
    assert (Forall (fun e => touches_file e = false)
              (intro_events ++ parse_events vm
               ++ [E_x3f_set_use_opencl (use_opencl l)])) as Hquiet.
    { apply Forall_app. split; [repeat constructor|].
      apply Forall_app. split; [apply parse_events_quiet|repeat constructor]. }
    assert (forall p levs, In (E_x3f_new_from_file true) (opened_events p ++ levs))
      as Hcreated.
    { intros p levs. apply in_app_iff. left. simpl. auto. }
    assert (forall p levs rest, exists q,
              In (E_fopen q "rb" true) ((opened_events p ++ levs) ++ rest))
      as Hopened.
    { intros p levs rest. exists p. apply in_app_iff. left.
      apply in_app_iff. left. simpl. auto. }
    destruct Hrun as [p Hopen|bytes p Hopen Hnew|bytes x levs p Hopen Hnew Horch
                  |bytes x levs x' w0 err tmpb outb dbg p Hopen Hnew Horch Hpaths Herr
                  |bytes x levs x' w0 tmpb outb p tmp0 out call0 Hopen Hnew Horch Hpaths Hok
                  |bytes x levs x' w0 tmpb outb p tmp0 out call0 Hopen Hnew Horch Hpaths
                     Hok Hren
                  |bytes x levs x' w0 tmpb outb written p tmp0 out call0 Hopen Hnew Horch
                     Hpaths Hok Hren].
    + exists [E_fopen p "rb" false;
              E_x3f_printf ERR "Could not open infile %s\n" [ArgS (Some p)]],
        false, false, 1.
      split; [rewrite Htrace; by list_norm|]. split; [done|].
      split; [repeat constructor|].
      split; [split; [done|intros (q & Hq); simpl in Hq; intuition discriminate]|].
      split; [split; [done|intros Hq; simpl in Hq; intuition discriminate]|done].
    + exists [E_fopen p "rb" true;
              E_x3f_printf INFO "READ THE X3F FILE %s\n" [ArgS (Some p)];
              E_x3f_new_from_file false;
              E_x3f_printf ERR "Could not read infile %s\n" [ArgS (Some p)]],
        true, false, 1.
      split; [rewrite Htrace; by list_norm|]. split; [done|].
      split; [repeat constructor|].
      split; [split; [intros _; exists p; simpl; auto|done]|].
      split; [split; [done|intros Hq; simpl in Hq; intuition discriminate]|done].
    + exists (opened_events p ++ levs), true, true, 1.
      split; [rewrite Htrace; by list_norm|]. split; [done|].
      split; [eauto|].
      split; [split; [intros _; exists p; apply in_app_iff; left; simpl; auto|done]|].
      split; [split; [auto|done]|done].
    + eexists ((opened_events p ++ levs) ++ paths_call l ifile :: dbg ++ [_]),
        true, true, 1.
      split; [rewrite Htrace; by list_norm|]. split; [done|].
      split.
      { apply Forall_app. split; [eauto|]. constructor; [done|].
        apply Forall_app. split; [|repeat constructor].
        destruct (make_paths_any _ _ _ _ _ _ _ _ _ _ _ Hpaths)
          as (_ & (dbg' & Hw & Hdbg & _) & _).
        assert (dbg' = dbg) as ->.
        { apply (f_equal trace) in Hw. simpl in Hw. by apply app_inv_head in Hw. }
        by eapply Forall_debug. }
      split; [split; [intros _; apply Hopened|done]|].
      split; [split; [intros _; apply in_app_iff; left; apply Hcreated|done]|done].
    + eexists ((opened_events p ++ levs)
               ++ paths_call l ifile :: dump_events l x' tmp0 out ++ [_]),
        true, true, 1.
      split; [rewrite Htrace; by list_norm|]. split; [done|].
      split; [apply Forall_app; split; [eauto|repeat constructor]|].
      split; [split; [intros _; apply Hopened|done]|].
      split; [split; [intros _; apply in_app_iff; left; apply Hcreated|done]|done].
    + eexists ((opened_events p ++ levs)
               ++ paths_call l ifile :: dump_events l x' tmp0 out ++ [_; _]),
        true, true, 1.
      split; [rewrite Htrace; by list_norm|]. split; [done|].
      split; [apply Forall_app; split; [eauto|repeat constructor]|].
      split; [split; [intros _; apply Hopened|done]|].
      split; [split; [intros _; apply in_app_iff; left; apply Hcreated|done]|done].
    + eexists ((opened_events p ++ levs)
               ++ paths_call l ifile :: dump_events l x' tmp0 out ++ [_]),
        true, true, 0.
      split; [rewrite Htrace; by list_norm|]. split; [done|].
      split; [apply Forall_app; split; [eauto|repeat constructor]|].
      split; [split; [intros _; apply Hopened|done]|].
      split; [split; [intros _; apply in_app_iff; left; apply Hcreated|done]|done].
  - destruct Hmain as (_ & _ & Htrace). eexists. split; [exact Htrace|].
    apply Forall_app. split; [repeat constructor|apply parse_events_quiet].
Qed.

End Release.
(** ** An output directory that is none (C10) *)

Section OutputDirectory.
Context `{Host} `{X3fLib}.

Lemma file_run_paths_call l em ifile files path evs n files' a b c :
  file_run l em ifile files path evs n files' ->
  In (E_make_paths a b c) evs ->
  E_make_paths a b c = paths_call l ifile.
Proof.
  intros Hrun Hin.
  assert (forall fevs, Forall (fun e => is_make_paths e = false) fevs ->
            ~ In (E_make_paths a b c) fevs) as Hno.
  { intros fevs Hf Hi. rewrite Forall_forall in Hf.
    by specialize (Hf _ (proj2 (list_elem_of_In _ _) Hi)). }
  assert (forall p x levs r, orchestrate (plan l em) p x = (levs, r) ->
            Forall (fun e => is_make_paths e = false) (opened_events p ++ levs))
    as Hpre.
  { intros p x levs r Ho. apply Forall_app. split; [repeat constructor|].
    pose proof (orchestrate_loads_only (plan l em) p x) as Hl.
    rewrite Ho in Hl. eapply Forall_loads_only; [|exact Hl]. by intros []. }
  destruct Hrun as [p Hopen|bytes p Hopen Hnew|bytes x levs p Hopen Hnew Horch
                |bytes x levs x' w0 err tmpb outb dbg p Hopen Hnew Horch Hpaths Herr
                |bytes x levs x' w0 tmpb outb p tmp0 out call0 Hopen Hnew Horch Hpaths Hok
                |bytes x levs x' w0 tmpb outb p tmp0 out call0 Hopen Hnew Horch Hpaths
                   Hok Hren
                |bytes x levs x' w0 tmpb outb written p tmp0 out call0 Hopen Hnew Horch
                   Hpaths Hok Hren].
  - simpl in Hin. intuition discriminate.
  - simpl in Hin. intuition discriminate.
  - rewrite app_assoc in Hin. apply in_app_iff in Hin as [Hin|Hin].
    + by destruct (Hno _ (Hpre _ _ _ _ Horch)).
    + simpl in Hin. intuition discriminate.
  - rewrite app_assoc in Hin. apply in_app_iff in Hin as [Hin|Hin].
    + by destruct (Hno _ (Hpre _ _ _ _ Horch)).
    + destruct Hin as [<-|Hin]; [done|]. exfalso.
      apply in_app_iff in Hin as [Hin|Hin];
        [|simpl in Hin; intuition discriminate].
      revert Hin. apply Hno.
      destruct (make_paths_any _ _ _ _ _ _ _ _ _ _ _ Hpaths)
        as (_ & (dbg' & Hw & Hdbg & _) & _).
      assert (dbg' = dbg) as ->.
      { apply (f_equal trace) in Hw. simpl in Hw. by apply app_inv_head in Hw. }
      by eapply Forall_debug.
  - rewrite app_assoc in Hin. apply in_app_iff in Hin as [Hin|Hin].
    + by destruct (Hno _ (Hpre _ _ _ _ Horch)).
    + destruct Hin as [<-|Hin]; [done|]. simpl in Hin. intuition discriminate.
  - rewrite app_assoc in Hin. apply in_app_iff in Hin as [Hin|Hin].
    + by destruct (Hno _ (Hpre _ _ _ _ Horch)).
    + destruct Hin as [<-|Hin]; [done|]. simpl in Hin. intuition discriminate.
  - rewrite app_assoc in Hin. apply in_app_iff in Hin as [Hin|Hin].
    + by destruct (Hno _ (Hpre _ _ _ _ Horch)).
    + destruct Hin as [<-|Hin]; [done|]. simpl in Hin. intuition discriminate.
Qed.


End OutputDirectory.

(** ** No input file (C6) *)

Section NoInput.
Context `{Host} `{X3fLib}.

(** What the option part can print. *)
Lemma parse_events_kinds vm :
  Forall (fun e => match e with
                   | E_cerr _ | E_stat _ _ => True
                   | E_x3f_printf ERR fmt _ => fmt = "Could not find outdir %s\n"
                   | _ => False
                   end) (parse_events vm).
Proof.
  unfold parse_events.
  apply Forall_app; split;
    [unfold help_events; repeat case_match; repeat constructor|].
  apply Forall_app; split;
    [unfold format_events; repeat case_match; repeat constructor|].
  destruct (format_result vm initial_locals) as [l1|]; [|constructor].
  apply Forall_app; split;
    [unfold color_events; repeat case_match; repeat constructor|].
  destruct (color_result vm l1) as [l2|]; [|constructor].
  apply Forall_app; split;
    [unfold output_events|unfold input_events];
    repeat case_match; repeat constructor.
Qed.

(** The exit status is 0 or 1, and it is 0 exactly when the run ends
    with the summary of one file processed without error, which takes an
    input file. *)
Lemma exit_status vm w code w' :
  main vm w = Some (code, w') ->
  exists evs,
    trace w' = trace w ++ evs
    /\ (code = 0 \/ code = 1)
    /\ (code = 0 <-> last evs = Some (summary 1 0))
    /\ (code = 0 -> is_Some (opt_input vm)).
Proof.
  intros Hmain. apply main_run in Hmain.
  destruct (parse_result vm) as [l|].
  - destruct Hmain as (ifile & path & evs & n & Hin & Hrun & Htrace & ->).
    eexists. split; [exact Htrace|].
    replace (intro_events ++ parse_events vm
             ++ E_x3f_set_use_opencl (use_opencl l) :: evs ++ [summary 1 n])
      with ((intro_events ++ parse_events vm
             ++ E_x3f_set_use_opencl (use_opencl l) :: evs) ++ [summary 1 n])
      by by list_norm.
    rewrite last_snoc.
    destruct (file_run_renamed _ _ _ _ _ _ _ _ Hrun) as (_ & _ & [-> | ->]);
      (split; [auto|]); (split; [|by rewrite Hin]); done.
  - destruct Hmain as (-> & _ & Htrace). eexists. split; [exact Htrace|].
    split; [auto|]. split; [|done]. split; [done|].
    intros Hlast. exfalso. apply last_Some in Hlast as [pre Hpre].
    assert (In (summary 1 0) (intro_events ++ parse_events vm)) as Hs
      by (rewrite Hpre; apply in_app_iff; right; simpl; auto).
    apply in_app_iff in Hs as [Hs|Hs].
    + simpl in Hs. intuition discriminate.
    + pose proof (parse_events_kinds vm) as Hk. rewrite Forall_forall in Hk.
      by specialize (Hk _ (proj2 (list_elem_of_In _ _) Hs)).
Qed.

(** C6 at the failing input.  Without an input file the run is defined
    and returns 1, but what it reports is not what the claim says: the
    message "No files given" is not printed, no summary with the counts
    is printed, and for acceptable format and color tokens the run ends
    with the usage text and the message "Could not find outdir". *)
Theorem no_input_reports_outdir (vm : variables_map) (w : world) :
  opt_input vm = None ->
  exists w' evs,
    main vm w = Some (1, w') /\ fs w' = fs w
    /\ trace w' = trace w ++ evs
    /\ ~ In (E_x3f_printf ERR "No files given\n" []) evs
    /\ (forall files errors, ~ In (summary files errors) evs)
    /\ (is_Some (table_lookup (default "dng" (opt_format vm)) format_table) ->
        (forall spc, opt_color vm = Some spc ->
                     is_Some (table_lookup spc color_table)) ->
        exists pre,
          evs = pre ++ [E_cerr [Desc; Endl];
                        E_x3f_printf ERR "Could not find outdir %s\n"
                          [ArgS (path_of <$> (c_str <$> opt_output vm))]]).
Proof.
  intros Hin.
  assert (parse_result vm = None) as Hres.
  { unfold parse_result. destruct (format_result vm initial_locals); [|done].
    simpl. destruct (color_result vm _); [|done]. simpl. by rewrite Hin. }
  destruct (main_rejects vm w Hres) as [g Hmain].
  eexists _, _. split; [exact Hmain|]. split; [done|]. split; [done|].
  assert (forall e, In e (intro_events ++ parse_events vm) ->
            match e with
            | E_cerr _ | E_stat _ _ | E_setvbuf _ => True
            | E_x3f_printf ERR fmt _ => fmt = "Could not find outdir %s\n"
            | E_x3f_printf INFO fmt _ => fmt = "X3F TOOLS VERSION = %s\n\n"
            | _ => False
            end) as Hkinds.
  { intros e [He|He]%in_app_iff.
    - simpl in He. destruct He as [<-|[<-|[<-|[]]]]; done.
    - pose proof (parse_events_kinds vm) as Hk. rewrite Forall_forall in Hk.
      specialize (Hk e (proj2 (list_elem_of_In _ _) He)).
      destruct e as [[] | | | | | | | | | | | | | | | | | | | ]; done. }
  split; [intros He%Hkinds; discriminate|].
  split; [intros files errors He%Hkinds; discriminate|].
  intros [row Hrow] Hcolor.
  pose proof (parse_result_table vm) as Ht. rewrite Hrow in Ht.
  destruct row as [kind [[jpg dec] undec]].
  unfold parse_events, input_events.
  assert (exists l1, format_result vm initial_locals = Some l1
                     /\ outdir l1 = None
                     /\ (if opt_format vm is Some fmt
                         then format_assignments fmt <> None else True))
    as (l1 & Hf & Ho1 & Hfa).
  { unfold format_result.
    destruct (opt_format vm) as [fmt|]; [|by eexists].
    pose proof (format_assignments_table fmt) as Hfa. simpl in Hrow.
    rewrite Hrow in Hfa. destruct Hfa as (al & -> & Hfields).
    eexists. split; [done|]. split; [apply Hfields|done]. }
  rewrite Hf.
  assert (format_events vm = []) as ->.
  { unfold format_events. destruct (opt_format vm) as [fmt|]; [|done].
    by destruct (format_assignments fmt). }
  assert (exists l2, color_result vm l1 = Some l2 /\ outdir l2 = None
                     /\ (if opt_color vm is Some spc
                         then color_assignment spc <> None else True))
    as (l2 & Hc & Ho2 & Hca).
  { pose proof (color_result_fields vm l1) as Hcf. unfold color_result in *.
    destruct (opt_color vm) as [spc|].
    - destruct (Hcolor spc eq_refl) as [c Hc].
      rewrite color_assignment_table, Hc in *. simpl in *.
      eexists. split; [done|].
      destruct (Hcf _ eq_refl) as (_ & _ & _ & _ & _ & _ & _ & -> & _). done.
    - eexists. split; [done|]. done. }
  rewrite Hc, Hin.
  assert (color_events vm = []) as ->.
  { unfold color_events. destruct (opt_color vm) as [spc|]; [|done].
    by destruct (color_assignment spc). }
  pose proof (parse_switches_fields vm l2) as Hsw.
  pose proof (output_result_fields vm (parse_switches vm l2)) as Hor.
  cbv zeta in Hsw, Hor.
  destruct Hsw as (_ & _ & _ & _ & _ & _ & Hso & _).
  destruct Hor as (_ & _ & _ & _ & _ & _ & _ & _ & Hoo).
  rewrite Hoo, Hso, Ho2.
  replace (if opt_output vm is Some d then Some (c_str d) else None)
    with (c_str <$> opt_output vm) by by destruct (opt_output vm).
  exists (intro_events ++ help_events vm ++ output_events vm).
  by list_norm.
Qed.

End NoInput.

(** * The example runs *)

Section Examples.
#[local] Existing Instance example_host.
#[local] Existing Instance example_lib.

(** [x3f_extract photo.x3f] leaves [photo.x3f.dng] and returns 0. *)
Lemma commit_protocol_witness :
  exists code w' l,
    main example_vm example_world = Some (code, w')
    /\ parse_result example_vm = Some l
    /\ exists path evs n,
         trace w' = trace example_world ++ intro_events
                    ++ parse_events example_vm
                    ++ E_x3f_set_use_opencl (use_opencl l) :: evs
                    ++ [summary 1 n]
         /\ code = Z.b2z (0 <? n)
         /\ commit_outcome l (fs example_world) path evs n (fs w')
         /\ (path = Success <-> exists tmp out, In (E_rename tmp out 0) evs)
         /\ (path = Success <-> n = 0).
Proof.
  eexists _, _, _.
  split; [vm_compute; reflexivity|]. split; [vm_compute; reflexivity|].
  apply (commit_protocol example_vm example_world); vm_compute; reflexivity.
Defined.

(** The default request is a DNG request, which needs the metadata. *)
Lemma extract_meta_derived_witness :
  exists l,
    parse_result example_vm = Some l
    /\ let extract_meta := compute_extract_meta l in
       (extract_meta = 1 \/ extract_meta = 0)
       /\ (extract_meta = 1 <->
             file_type l = META \/ file_type l = DNG
             \/ (extract_raw l = 1
                 /\ (crop l = 1
                     \/ (color_encoding l <> UNPROCESSED
                         /\ color_encoding l <> QTOP))))
       /\ (extract_raw l = 1 \/ extract_raw l = 0)
       /\ (crop l = 1 \/ crop l = 0)
       /\ (crop l = 1 <-> opt_noCrop example_vm = false)
       /\ (In Metadata (plan l extract_meta) <-> extract_meta = 1)
       /\ (forall vm' l',
             parse_result vm' = Some l' ->
             opt_format vm' = opt_format example_vm ->
             opt_color vm' = opt_color example_vm ->
             opt_noCrop vm' = opt_noCrop example_vm ->
             compute_extract_meta l' = extract_meta).
Proof.
  eexists. split; [vm_compute; reflexivity|].
  apply (extract_meta_derived example_vm). vm_compute; reflexivity.
Defined.





(** The metadata and the decoded raw data of the example file. *)
Lemma load_orchestrator_order_witness :
  exists l,
    parse_result example_vm = Some l
    /\ plan l 1 = [Metadata; RawDecoded]
    /\ sublist (plan l 1) fixed_order /\ NoDup (plan l 1)
    /\ let x : @x3f_t example_lib := 196608 in
       exists g,
         load_sections l 1 "photo.x3f" x example_world
         = Some ((orchestrate (plan l 1) "photo.x3f" x).2,
                 upd example_world (orchestrate (plan l 1) "photo.x3f" x).1 g).
Proof.
  eexists. split; [vm_compute; reflexivity|].
  split; [vm_compute; reflexivity|].
  match goal with
  | |- sublist (plan ?l 1) _ /\ _ =>
      destruct (load_orchestrator_order l 1 "photo.x3f"
                  (196608 : @x3f_t example_lib) example_world)
        as (Hrun & Hsub & Hnodup & _)
  end.
  split; [exact Hsub|]. split; [exact Hnodup|]. exact Hrun.
Defined.



Lemma handle_released_witness :
  exists code w',
    main example_vm example_world = Some (code, w')
    /\ match parse_result example_vm with
       | None =>
           exists evs, trace w' = trace example_world ++ evs
                       /\ Forall (fun e => touches_file e = false) evs
       | Some l =>
           exists body (opened created : bool) n,
             trace w' = trace example_world
                        ++ (intro_events ++ parse_events example_vm
                            ++ [E_x3f_set_use_opencl (use_opencl l)])
                        ++ body
                        ++ E_x3f_delete (negb created)
                           :: (if opened then [E_fclose] else [])
                        ++ [summary 1 n]
             /\ Forall (fun e => touches_file e = false)
                  (intro_events ++ parse_events example_vm
                   ++ [E_x3f_set_use_opencl (use_opencl l)])
             /\ Forall (fun e => releases e = false) body
             /\ (opened = true <-> exists p, In (E_fopen p "rb" true) body)
             /\ (created = true <-> In (E_x3f_new_from_file true) body)
             /\ (created = true -> opened = true)
       end.
Proof.
  eexists _, _. split; [vm_compute; reflexivity|].
  apply (handle_released example_vm example_world 0). vm_compute; reflexivity.
Defined.


(** [x3f_extract -f tiff], without input file. *)
Lemma no_input_reports_outdir_witness :
  opt_input example_vm_no_input = None
  /\ exists w' evs,
       main example_vm_no_input example_world = Some (1, w')
       /\ fs w' = fs example_world
       /\ trace w' = trace example_world ++ evs
       /\ ~ In (E_x3f_printf ERR "No files given\n" []) evs
       /\ (forall files errors, ~ In (summary files errors) evs)
       /\ (is_Some (table_lookup
                      (default "dng" (opt_format example_vm_no_input))
                      format_table) ->
           (forall spc, opt_color example_vm_no_input = Some spc ->
                        is_Some (table_lookup spc color_table)) ->
           exists pre,
             evs = pre ++ [E_cerr [Desc; Endl];
                           E_x3f_printf ERR "Could not find outdir %s\n"
                             [ArgS (path_of <$>
                                    (c_str <$> opt_output example_vm_no_input))]]).
Proof.
  split; [reflexivity|].
  exact (no_input_reports_outdir example_vm_no_input example_world eq_refl).
Defined.

End Examples.

(** * Further properties of the program *)

(** ** The two checked string operations *)

(** X1.  [safecpy] on a destination array of more than [dst_size] cells.
    A source that holds a terminated string is copied, terminator
    included, exactly when the string has at most [dst_size] characters:
    the call then returns 0, prints nothing, and the cells of the
    destination behind the terminator keep their contents; a longer
    string makes it return 1 with the destination untouched and one
    DEBUG message.  A source without terminator is turned down in the
    same way when it has more than [dst_size] cells, and is read past its
    end otherwise. *)
Theorem safecpy_copies_or_refuses (dst s r : list ascii) (dst_size : nat)
    (w : world) :
  (dst_size < length dst)%nat -> nonnul s ->
  safecpy dst (s ++ NUL :: r) dst_size w
  = Some (if (length s <=? dst_size)%nat
          then ((0, s ++ NUL :: drop (S (length s)) dst), w)
          else ((1, dst), log w [dbg_cpy]))
  /\ safecpy dst s dst_size w
     = (if (dst_size <? length s)%nat
        then Some ((1, dst), log w [dbg_cpy]) else None).
Proof.
  intros Hdst Hs. split.
  - unfold safecpy. rewrite strnlen_app by done. msimpl.
    destruct (Nat.leb_spec (length s) dst_size) as [Hle|Hlt].
    + destruct (Nat.ltb_spec dst_size (length s `min` (dst_size + 1)))
        as [?|_]; [lia|].
      unfold strcpy. rewrite strlen_app by done. simpl.
      destruct (Nat.leb_spec (length s + 1) (length dst)) as [_|?]; [|lia].
      simpl. rewrite take_app_length. by rewrite Nat.add_1_r.
    + by destruct (Nat.ltb_spec dst_size (length s `min` (dst_size + 1)))
        as [_|?]; [|lia].
  - unfold safecpy. rewrite strnlen_nonnul by done.
    destruct (Nat.ltb_spec dst_size (length s)) as [Hlt|Hle].
    + destruct (Nat.leb_spec (dst_size + 1) (length s)) as [_|?]; [|lia].
      msimpl.
      by destruct (Nat.ltb_spec dst_size (dst_size + 1)) as [_|?]; [|lia].
    + by destruct (Nat.leb_spec (dst_size + 1) (length s)) as [?|_]; [lia|].
Qed.

(** X2.  [safecat] on a destination array of more than [dst_size] cells.
    When the destination holds a terminated string, the source string is
    appended, terminator included, exactly when the two strings together
    have at most [dst_size] characters: the call then returns 0, prints
    nothing, and the cells behind the new terminator keep their contents;
    otherwise it returns 1 with the destination untouched and one DEBUG
    message.  A destination without terminator is never written to: the
    call returns 1. *)
Theorem safecat_appends_or_refuses (d rd s r : list ascii) (dst_size : nat)
    (w : world) :
  nonnul d -> nonnul s ->
  ((dst_size < length (d ++ NUL :: rd))%nat ->
   safecat (d ++ NUL :: rd) (s ++ NUL :: r) dst_size w
   = Some (if (length d + length s <=? dst_size)%nat
           then ((0, d ++ s ++ NUL
                       :: drop (S (length d + length s)) (d ++ NUL :: rd)), w)
           else ((1, d ++ NUL :: rd), log w [dbg_cat])))
  /\ ((dst_size < length d)%nat ->
      safecat d (s ++ NUL :: r) dst_size w = Some ((1, d), log w [dbg_cat])).
Proof.
  intros Hd Hs. split.
  - intros Hdst. unfold safecat. rewrite !strnlen_app by done. msimpl.
    destruct (Nat.leb_spec (length d + length s) dst_size) as [Hle|Hlt].
    + destruct (Nat.ltb_spec dst_size
                  (length d `min` (dst_size + 1) + length s `min` (dst_size + 1)))
        as [?|_]; [lia|].
      unfold strcat. rewrite !strlen_app by done. simpl.
      destruct (Nat.leb_spec (length d + length s + 1) (length (d ++ NUL :: rd)))
        as [_|Hc]; [|lia].
      simpl. rewrite !take_app_length. by rewrite Nat.add_1_r.
    + by destruct (Nat.ltb_spec dst_size
                     (length d `min` (dst_size + 1)
                      + length s `min` (dst_size + 1))) as [_|?]; [|lia].
  - intros Hdst. unfold safecat.
    rewrite strnlen_nonnul, strnlen_app by done.
    destruct (Nat.leb_spec (dst_size + 1) (length d)) as [_|?]; [|lia].
    msimpl.
    by destruct (Nat.ltb_spec dst_size
                   (dst_size + 1 + length s `min` (dst_size + 1)))
      as [_|?]; [|lia].
Qed.

(** ** The path builder *)

(** A call of [make_paths] that returns 0 has built the final path and
    the temporary path, and printed nothing. *)
Lemma make_paths_result p inpath ext rin rext tmpb outb outdir w t o w' :
  nonnul inpath -> nonnul ext ->
  length tmpb = S MAXTMPPATH -> length outb = S MAXOUTPATH ->
  (forall m, outdir = Some m -> exists d rd, m = d ++ NUL :: rd /\ nonnul d) ->
  make_paths p (inpath ++ NUL :: rin) outdir (ext ++ NUL :: rext) tmpb outb w
    = Some ((0, t, o), w') ->
  let final := final_path p inpath (cstring <$> outdir) ext in
  w' = w /\ (length final <= MAXOUTPATH)%nat
  /\ holds o MAXOUTPATH final
  /\ holds t MAXTMPPATH (final ++ list_ascii_of_string ".tmp").
Proof.
  intros Hin Hext Htmpb Houtb Hdir Hrun final.
  pose proof (make_paths_zero p _ _ rin rext tmpb outb Hin Hext Htmpb Houtb
                outdir w t o w' Hdir Hrun) as Hfit.
  destruct (make_paths_fits p _ _ rin rext tmpb outb Hin Hext Htmpb Houtb
              outdir w Hdir Hfit) as (t' & o' & Hrun' & Ho & Ht).
  rewrite Hrun' in Hrun. by injection Hrun as <- <- <-.
Qed.

(** Behind the offset of the base name there is no separator, and just
    before it, if it is not 0, there is one. *)
Lemma after_last_sep_drop seps s :
  Forall (fun c => is_sep seps c = false) (drop (after_last_sep seps s) s).
Proof.
  induction s as [|c s IH]; simpl; [constructor|].
  destruct (after_last_sep seps s) as [|k] eqn:Hk; simpl.
  - destruct (is_sep seps c) eqn:Hc; simpl; [done|].
    constructor; [done|]. by rewrite drop_0 in IH.
  - done.
Qed.

Lemma after_last_sep_take seps s :
  after_last_sep seps s = 0%nat
  \/ exists pre c, take (after_last_sep seps s) s = pre ++ [c]
                   /\ is_sep seps c = true.
Proof.
  induction s as [|c s IH]; simpl; [by left|].
  destruct (after_last_sep seps s) as [|k] eqn:Hk.
  - destruct (is_sep seps c) eqn:Hc; [|by left].
    right. by exists [], c.
  - right. destruct IH as [?|(pre & c' & Htake & Hc')]; [done|].
    exists (c :: pre), c'. simpl. by rewrite Htake.
Qed.

Lemma string_of_list_ascii_inj a b :
  string_of_list_ascii a = string_of_list_ascii b -> a = b.
Proof.
  intros Heq. apply (f_equal list_ascii_of_string) in Heq.
  by rewrite !list_ascii_of_string_of_list_ascii in Heq.
Qed.

Lemma string_length_list s : String.length s = length (list_ascii_of_string s).
Proof.
  by rewrite <- length_string_of_list_ascii, string_of_list_ascii_of_string.
Qed.

Lemma extension_nonnul ft : nonnul (list_ascii_of_string (extension ft)).
Proof. destruct ft; repeat constructor. Qed.

Lemma extension_length ft :
  (1 <= length (list_ascii_of_string (extension ft)) <= EXTMAX)%nat.
Proof. destruct ft; simpl; unfold EXTMAX; lia. Qed.

Lemma base_name_length p s : (length (base_name p s) <= length s)%nat.
Proof. unfold base_name. rewrite length_drop. lia. Qed.

(** X3.  With an output directory that is not empty, a call of
    [make_paths] that returns 0 has cut the input path behind its last
    separator: what comes before the cut is empty or ends in a separator,
    what comes behind holds no separator, and the final path is the
    directory, one separator unless the directory ends in one, what
    comes behind the cut, and the extension.  The directory part of the
    input path plays no role. *)
Theorem make_paths_keeps_base_name_only (p : platform) (inpath d ext : string)
    (tmpb outb : list ascii) (w w' : world) (t o : list ascii) :
  nul_free inpath -> nul_free ext -> nul_free d -> d <> "" ->
  length tmpb = S MAXTMPPATH -> length outb = S MAXOUTPATH ->
  make_paths p (c_str inpath) (Some (c_str d)) (c_str ext) tmpb outb w
    = Some ((0, t, o), w') ->
  exists pre base,
    inpath = pre +:+ base
    /\ Forall (fun c => is_sep (seps_of p) c = false) (list_ascii_of_string base)
    /\ (pre = ""
        \/ exists pre' c, pre = pre' +:+ String c ""
                          /\ is_sep (seps_of p) c = true)
    /\ path_of o
       = d +:+ (if ends_in_sep p (list_ascii_of_string d) then "" else PATHSEP p)
           +:+ base +:+ ext.
Proof.
  intros Hin Hext Hd Hne Htmpb Houtb Hrun.
  assert (forall m, Some (c_str d) = Some m ->
                    exists d' rd, m = d' ++ NUL :: rd /\ nonnul d') as Hdir.
  { intros m [= <-]. by exists (list_ascii_of_string d), []. }
  destruct (make_paths_result p _ _ [] [] tmpb outb _ w t o w'
              Hin Hext Htmpb Houtb Hdir Hrun) as (_ & _ & Ho & _).
  set (s := list_ascii_of_string inpath) in *.
  set (k := after_last_sep (seps_of p) s).
  exists (string_of_list_ascii (take k s)), (string_of_list_ascii (drop k s)).
  split; [|split; [|split]].
  - rewrite <- string_of_list_ascii_app, take_drop. unfold s.
    by rewrite string_of_list_ascii_of_string.
  - rewrite list_ascii_of_string_of_list_ascii. apply after_last_sep_drop.
  - destruct (after_last_sep_take (seps_of p) s) as [H0|(pre & c & Htake & Hc)].
    + left. unfold k. by rewrite H0, take_0.
    + right. exists (string_of_list_ascii pre), c. split; [|done].
      unfold k. by rewrite Htake, string_of_list_ascii_app.
  - rewrite (holds_path_of _ _ _ Ho). simpl.
    rewrite cstring_c_str by done.
    destruct (list_ascii_of_string d) as [|c d'] eqn:Hd'.
    { destruct d; [done|discriminate]. }
    simpl final_path. unfold final_in_dir, base_name. fold k.
    rewrite !string_of_list_ascii_app. rewrite <- Hd'.
    rewrite string_of_list_ascii_of_string.
    f_equal. f_equal.
    + destruct (ends_in_sep p (list_ascii_of_string d)); [done|].
      apply string_of_list_ascii_of_string.
    + f_equal. apply string_of_list_ascii_of_string.
Qed.

(** X4.  The bounds suffice.  An input path of at most [MAXPATH]
    characters, or an output directory and an input path of at most
    [MAXPATH - 1] characters together, never overflow, whatever the file
    type: [make_paths] returns 0, the final path has at most [MAXOUTPATH]
    characters and the temporary path at most [MAXTMPPATH]. *)
Theorem make_paths_fits_within_MAXPATH (p : platform) (inpath : string)
    (outdir : option string) (ft : output_file_type_t)
    (tmpb outb : list ascii) (w : world) :
  nul_free inpath -> (forall d, outdir = Some d -> nul_free d) ->
  length tmpb = S MAXTMPPATH -> length outb = S MAXOUTPATH ->
  (String.length inpath
   + (if outdir is Some d then String.length d + 1 else 0) <= MAXPATH)%nat ->
  exists t o,
    make_paths p (c_str inpath) (c_str <$> outdir) (c_str (extension ft))
      tmpb outb w = Some ((0, t, o), w)
    /\ (String.length (path_of o) <= MAXOUTPATH)%nat
    /\ (String.length (path_of t) <= MAXTMPPATH)%nat.
Proof.
  intros Hin Hdir Htmpb Houtb Hlen.
  assert (forall m, c_str <$> outdir = Some m ->
                    exists d rd, m = d ++ NUL :: rd /\ nonnul d) as Hdir'.
  { intros m Hm. destruct outdir as [d|]; [|done]. injection Hm as <-.
    exists (list_ascii_of_string d), []. split; [done|]. by apply Hdir. }
  pose proof (extension_length ft) as Hext. unfold EXTMAX in Hext.
  assert (length (final_path p (list_ascii_of_string inpath)
                    (cstring <$> (c_str <$> outdir))
                    (list_ascii_of_string (extension ft))) <= MAXOUTPATH)%nat
    as Hfit.
  { unfold MAXOUTPATH, MAXPATH, EXTMAX in *.
    destruct outdir as [d|]; simpl.
    - rewrite cstring_c_str by by apply Hdir.
      rewrite !string_length_list in Hlen.
      destruct (list_ascii_of_string d) as [|c d'] eqn:Hd.
      + rewrite length_app. simpl in Hlen. lia.
      + unfold final_in_dir.
        pose proof (base_name_length p (list_ascii_of_string inpath)).
        rewrite !length_app.
        assert (length (if ends_in_sep p (c :: d') then []
                        else list_ascii_of_string (PATHSEP p)) <= 1)%nat
          by (destruct (ends_in_sep p (c :: d')), p; simpl; lia).
        lia.
    - rewrite string_length_list in Hlen. rewrite length_app. lia. }
  destruct (make_paths_fits p _ _ [] [] tmpb outb Hin (extension_nonnul ft)
              Htmpb Houtb (c_str <$> outdir) w Hdir' Hfit)
    as (t & o & Hrun & Ho & Ht).
  exists t, o. split; [exact Hrun|].
  rewrite (holds_path_of _ _ _ Ho), (holds_path_of _ _ _ Ht).
  rewrite !length_string_of_list_ascii.
  split; [done|]. by apply holds_length in Ht.
Qed.

(** X5.  Two file types give the same final path for the same input and
    output directory exactly when they are equal or are the two PPM
    types, whose entries in [extension[]] are both ".ppm". *)
Theorem same_final_path_iff_ppm (p : platform) (inpath : string)
    (outdir : option string) (ft1 ft2 : output_file_type_t)
    (tmpb outb t1 o1 t2 o2 : list ascii) (w w1 w2 : world) :
  nul_free inpath -> (forall d, outdir = Some d -> nul_free d) ->
  length tmpb = S MAXTMPPATH -> length outb = S MAXOUTPATH ->
  make_paths p (c_str inpath) (c_str <$> outdir) (c_str (extension ft1))
    tmpb outb w = Some ((0, t1, o1), w1) ->
  make_paths p (c_str inpath) (c_str <$> outdir) (c_str (extension ft2))
    tmpb outb w = Some ((0, t2, o2), w2) ->
  path_of o1 = path_of o2
  <-> ft1 = ft2 \/ (ft1 = PPMP3 /\ ft2 = PPMP6) \/ (ft1 = PPMP6 /\ ft2 = PPMP3).
Proof.
  intros Hin Hdir Htmpb Houtb Hrun1 Hrun2.
  assert (forall m, c_str <$> outdir = Some m ->
                    exists d rd, m = d ++ NUL :: rd /\ nonnul d) as Hdir'.
  { intros m Hm. destruct outdir as [d|]; [|done]. injection Hm as <-.
    exists (list_ascii_of_string d), []. split; [done|]. by apply Hdir. }
  destruct (make_paths_result p _ _ [] [] tmpb outb _ w t1 o1 w1
              Hin (extension_nonnul ft1) Htmpb Houtb Hdir' Hrun1)
    as (_ & _ & Ho1 & _).
  destruct (make_paths_result p _ _ [] [] tmpb outb _ w t2 o2 w2
              Hin (extension_nonnul ft2) Htmpb Houtb Hdir' Hrun2)
    as (_ & _ & Ho2 & _).
  rewrite (holds_path_of _ _ _ Ho1), (holds_path_of _ _ _ Ho2).
  assert (exists stem, forall ext,
            final_path p (list_ascii_of_string inpath)
              (cstring <$> (c_str <$> outdir)) ext = stem ++ ext)
    as [stem Hstem].
  { unfold final_path, final_in_dir.
    destruct (cstring <$> (c_str <$> outdir)) as [[|c d]|].
    - by eexists.
    - eexists. intros ext. by rewrite !app_assoc.
    - by eexists. }
  rewrite !Hstem. split.
  - intros Heq%string_of_list_ascii_inj%app_inv_head.
    destruct ft1, ft2; simpl in Heq; try discriminate; auto.
  - intros [->|[[-> ->]|[-> ->]]]; done.
Qed.

(** ** Which files a run changes *)

Lemma c_str_terminated s :
  exists d rd, c_str s = d ++ NUL :: rd /\ nonnul d.
Proof.
  destruct (mem_cases (c_str s)) as [(d & rd & Heq & Hd)|Hnn]; [by eauto|].
  unfold c_str in Hnn. apply nonnul_app in Hnn as [_ Hnn].
  by inversion Hnn.
Qed.

Lemma length_uninitialised cells n : length (uninitialised cells n) = n.
Proof. unfold uninitialised. by rewrite length_map, length_seq. Qed.

Lemma extension_no_sep p ft :
  Forall (fun c => is_sep (seps_of p) c = false)
    (list_ascii_of_string (extension ft) ++ list_ascii_of_string ".tmp").
Proof. destruct p, ft; repeat constructor. Qed.

(** A path that is looked for behind a separator, with a tail without
    separators, is not the path itself. *)
Lemma in_dir_ne p s dir e :
  dir <> [] -> e <> [] -> Forall (fun c => is_sep (seps_of p) c = false) e ->
  dir ++ base_name p s ++ e <> s.
Proof.
  intros Hdir He Hsep Heq. unfold base_name in Heq.
  set (k := after_last_sep (seps_of p) s) in *.
  pose proof (after_last_sep_le (seps_of p) s) as Hk. fold k in Hk.
  pose proof (after_last_sep_drop (seps_of p) s) as Hdrop. fold k in Hdrop.
  assert (k = length dir + length e)%nat as Hk'.
  { apply (f_equal length) in Heq. rewrite !length_app, length_drop in Heq. lia. }
  assert (0 < length dir)%nat by (destruct dir; [done|simpl; lia]).
  assert (0 < length e)%nat by (destruct e; [done|simpl; lia]).
  destruct (after_last_sep_take (seps_of p) s) as [Hz|(pre & c & Htake & Hc)];
    [fold k in Hz; lia|fold k in Htake].
  assert (s !! (k - 1)%nat = Some c) as Hlook.
  { rewrite <- (lookup_take_lt s k) by lia. rewrite Htake.
    assert (length pre = k - 1)%nat as <-.
    { apply (f_equal length) in Htake.
      rewrite length_take, length_app in Htake. simpl in Htake. lia. }
    by rewrite list_lookup_middle. }
  remember (drop k s) as b eqn:Hb.
  rewrite <- Heq in Hlook. rewrite lookup_app_r in Hlook by lia.
  apply list_elem_of_lookup_2 in Hlook.
  assert (Forall (fun c => is_sep (seps_of p) c = false) (b ++ e)) as Hall
    by by apply Forall_app.
  rewrite Forall_forall in Hall. specialize (Hall _ Hlook). congruence.
Qed.

Lemma final_path_ne p s outdir e :
  e <> [] -> Forall (fun c => is_sep (seps_of p) c = false) e ->
  final_path p s outdir [] ++ e <> s.
Proof.
  intros He Hsep. unfold final_path.
  destruct outdir as [[|c d]|].
  - rewrite app_nil_r. intros Heq. apply (f_equal length) in Heq.
    rewrite length_app in Heq. destruct e; [done|simpl in Heq; lia].
  - unfold final_in_dir. rewrite app_nil_r, <- !app_assoc, app_assoc.
    apply in_dir_ne; [|done..]. by destruct (ends_in_sep p (c :: d)).
  - rewrite app_nil_r. intros Heq. apply (f_equal length) in Heq.
    rewrite length_app in Heq. destruct e; [done|simpl in Heq; lia].
Qed.

Lemma final_path_app p s outdir e :
  final_path p s outdir e = final_path p s outdir [] ++ e.
Proof.
  unfold final_path, final_in_dir.
  destruct outdir as [[|c d]|]; by rewrite ?app_nil_r, <- ?app_assoc.
Qed.

Section OtherFiles.
Context `{Host} `{X3fLib}.

(** The paths a call of [make_paths] from [main] builds when it returns
    0. *)
Lemma main_paths l ifile w0 tmpb outb w1 :
  (forall m, outdir l = Some m -> exists d rd, m = d ++ NUL :: rd /\ nonnul d) ->
  make_paths pf (c_str ifile) (outdir l) (c_str (extension (file_type l)))
    (uninitialised tmpfile_cells (MAXTMPPATH + 1))
    (uninitialised outfile_cells (MAXOUTPATH + 1)) w0
  = Some ((0, tmpb, outb), w1) ->
  let out := final_path_of pf (path_of (c_str ifile)) (path_of <$> outdir l)
               (extension (file_type l)) in
  path_of outb = out /\ path_of tmpb = out +:+ ".tmp".
Proof.
  intros Hdir Hrun out.
  destruct (c_str_terminated ifile) as (s & rin & Hs & Hnn).
  rewrite Hs in Hrun.
  assert (length (uninitialised tmpfile_cells (MAXTMPPATH + 1)) = S MAXTMPPATH)
    as Htl by (by rewrite length_uninitialised, Nat.add_1_r).
  assert (length (uninitialised outfile_cells (MAXOUTPATH + 1)) = S MAXOUTPATH)
    as Hol by (by rewrite length_uninitialised, Nat.add_1_r).
  destruct (make_paths_result pf s _ rin [] _ _ _ w0 tmpb outb w1 Hnn
              (extension_nonnul (file_type l)) Htl Hol Hdir Hrun)
    as (_ & _ & Ho & Ht).
  assert (out = string_of_list_ascii
                  (final_path pf s (cstring <$> outdir l)
                     (list_ascii_of_string (extension (file_type l))))) as Hout.
  { unfold out, final_path_of, path_of. rewrite Hs, cstring_app by done.
    rewrite list_ascii_of_string_of_list_ascii. do 2 f_equal.
    destruct (outdir l) as [m|]; [|done]. simpl.
    by rewrite list_ascii_of_string_of_list_ascii. }
  rewrite (holds_path_of _ _ _ Ho), (holds_path_of _ _ _ Ht), Hout.
  split; [done|]. by rewrite string_of_list_ascii_app.
Qed.

(** Neither path is the path of the input file. *)
Lemma input_path_not_built (p : platform) (ifile : string)
    (dir : option string) (ft : output_file_type_t) :
  let out := final_path_of p (path_of (c_str ifile)) dir (extension ft) in
  path_of (c_str ifile) <> out /\ path_of (c_str ifile) <> out +:+ ".tmp".
Proof.
  intros out.
  destruct (c_str_terminated ifile) as (s & rin & Hs & Hnn).
  unfold out, final_path_of, path_of. rewrite Hs, cstring_app by done.
  rewrite list_ascii_of_string_of_list_ascii.
  pose proof (extension_no_sep p ft) as Hsep.
  apply Forall_app in Hsep as Hsep'. destruct Hsep' as [Hsep1 _].
  pose proof (extension_length ft) as Hlen.
  split.
  - intros Heq%string_of_list_ascii_inj. symmetry in Heq. revert Heq.
    rewrite final_path_app. apply final_path_ne; [|done].
    intros Hnil. rewrite Hnil in Hlen. simpl in Hlen. lia.
  - rewrite <- (string_of_list_ascii_of_string ".tmp") at 1.
    rewrite <- string_of_list_ascii_app.
    intros Heq%string_of_list_ascii_inj. symmetry in Heq. revert Heq.
    rewrite final_path_app, <- app_assoc. apply final_path_ne; [|done].
    intros Hnil. apply (f_equal length) in Hnil.
    rewrite length_app in Hnil. simpl in Hnil. lia.
Qed.

(** The processing of a file leaves every path but the final path and
    the temporary path as it was. *)
Lemma file_run_other_files l em ifile files path evs n files' q :
  (forall m, outdir l = Some m -> exists d rd, m = d ++ NUL :: rd /\ nonnul d) ->
  file_run l em ifile files path evs n files' ->
  let out := final_path_of pf (path_of (c_str ifile)) (path_of <$> outdir l)
               (extension (file_type l)) in
  q <> out -> q <> out +:+ ".tmp" -> files' !! q = files !! q.
Proof.
  intros Hdir Hrun out Hq1 Hq2.
  destruct Hrun as [p Hopen|bytes p Hopen Hnew|bytes x levs p Hopen Hnew Horch
                |bytes x levs x' w0 err tmpb outb dbg p Hopen Hnew Horch Hpaths Herr
                |bytes x levs x' w0 tmpb outb p tmp0 out0 call0 Hopen Hnew Horch
                   Hpaths Hok
                |bytes x levs x' w0 tmpb outb p tmp0 out0 call0 Hopen Hnew Horch
                   Hpaths Hok Hren
                |bytes x levs x' w0 tmpb outb written p tmp0 out0 call0 Hopen Hnew
                   Horch Hpaths Hok Hren]; try done.
  - destruct (main_paths _ _ _ _ _ _ Hdir Hpaths) as (Ho & Ht).
    apply after_dump_other. unfold tmp0. rewrite Ht. exact Hq2.
  - destruct (main_paths _ _ _ _ _ _ Hdir Hpaths) as (Ho & Ht).
    apply after_dump_other. unfold tmp0. rewrite Ht. exact Hq2.
  - destruct (main_paths _ _ _ _ _ _ Hdir Hpaths) as (Ho & Ht).
    fold out in Ho, Ht.
    assert (q <> tmp0) by (unfold tmp0; by rewrite Ht).
    assert (q <> out0) by (unfold out0; by rewrite Ho).
    rewrite lookup_insert_ne, lookup_delete_ne by done.
    by apply after_dump_other.
Qed.

(** X6.  A run changes no file but the final path and the temporary
    path, and neither of the two is the path of the input file: the
    input file is never removed, overwritten or renamed. *)
Theorem main_keeps_other_files (vm : variables_map) (w : world) (code : Z)
    (w' : world) (l : locals) (ifile : string) :
  main vm w = Some (code, w') ->
  parse_result vm = Some l -> opt_input vm = Some ifile ->
  let p := path_of (c_str ifile) in
  let out := final_path_of pf p (path_of <$> outdir l)
               (extension (file_type l)) in
  p <> out /\ p <> out +:+ ".tmp"
  /\ (forall q, q <> out -> q <> out +:+ ".tmp" -> fs w' !! q = fs w !! q)
  /\ fs w' !! p = fs w !! p.
Proof.
  intros Hmain Hres Hin p out.
  assert (forall m, outdir l = Some m ->
                    exists d rd, m = d ++ NUL :: rd /\ nonnul d) as Hdir.
  { intros m Hm.
    destruct (parse_result_Some vm l Hres)
      as (? & ? & ? & ? & _ & _ & _ & _ & _ & _ & _ & _ & _ & Ho & _).
    rewrite Ho in Hm. destruct (opt_output vm) as [d|]; [|done].
    injection Hm as <-. apply c_str_terminated. }
  apply main_run in Hmain. rewrite Hres in Hmain.
  destruct Hmain as (ifile' & path & evs & n & Hin' & Hrun & _).
  rewrite Hin in Hin'. injection Hin' as <-.
  assert (forall q, q <> out -> q <> out +:+ ".tmp" -> fs w' !! q = fs w !! q)
    as Hother.
  { intros q Hq1 Hq2. by eapply file_run_other_files. }
  destruct (input_path_not_built pf ifile (path_of <$> outdir l) (file_type l))
    as [Hp1 Hp2].
  split; [done|]. split; [done|]. split; [done|]. by apply Hother.
Qed.

End OtherFiles.

(** ** The globals of the library *)

Lemma performs_ret {A} (v : A) : performs (ret v) v [] (fun g => g).
Proof. intros w. unfold ret, upd. by rewrite app_nil_r; destruct w. Qed.

Lemma performs_emit e : performs (emit e) tt [e] (fun g => g).
Proof. by intros w. Qed.

Lemma performs_set_glob f : performs (set_glob f) tt [] f.
Proof. intros w. unfold set_glob, upd. by rewrite app_nil_r. Qed.

Lemma performs_bind {A B} (m : M A) (k : A -> M B) a e1 f1 b e2 f2 :
  performs m a e1 f1 -> performs (k a) b e2 f2 ->
  performs (bind m k) b (e1 ++ e2) (fun g => f2 (f1 g)).
Proof.
  intros Hm Hk w. unfold bind. rewrite Hm, Hk. unfold upd. simpl.
  by rewrite app_assoc.
Qed.

Lemma performs_eq {A} (m : M A) v evs f v' evs' f' :
  performs m v evs f -> v = v' -> evs = evs' -> (forall g, f g = f' g) ->
  performs m v' evs' f'.
Proof. intros Hm -> -> Hf w. by rewrite Hm, Hf. Qed.

Lemma performs_denotes {A} (m : M A) v evs :
  denotes m v evs -> keeps_glob m -> performs m v evs (fun g => g).
Proof.
  intros Hd Hk w. destruct (Hd w) as [g Hw]. rewrite Hw.
  apply Hk in Hw. simpl in Hw. by rewrite Hw.
Qed.

Lemma keeps_ret {A} (v : A) : keeps_glob (ret v).
Proof. by intros w a w' [= <- <-]. Qed.

Lemma keeps_emit e : keeps_glob (emit e).
Proof. by intros w a w' [= <- <-]. Qed.

Lemma keeps_get_fs : keeps_glob get_fs.
Proof. by intros w a w' [= <- <-]. Qed.

Lemma keeps_set_fs f : keeps_glob (set_fs f).
Proof. by intros w a w' [= <- <-]. Qed.

Lemma keeps_access {A} (o : option A) : keeps_glob (access o).
Proof. destruct o; [apply keeps_ret|]. by intros w a w'. Qed.

Lemma keeps_bind {A B} (m : M A) (k : A -> M B) :
  keeps_glob m -> (forall a, keeps_glob (k a)) -> keeps_glob (bind m k).
Proof.
  intros Hm Hk w b w' Hrun. apply bind_inv in Hrun as (a & w1 & H1 & H2).
  apply Hm in H1. apply Hk in H2. congruence.
Qed.

Ltac keeps_step :=
  first
    [ apply keeps_ret | apply keeps_emit | apply keeps_get_fs
    | apply keeps_set_fs | apply keeps_access
    | match goal with H : context [keeps_glob] |- _ => apply H end
    | apply keeps_bind; [|intros]
    | match goal with
      | |- keeps_glob (match ?x with _ => _ end) => destruct x
      end ].

Ltac keeps := repeat keeps_step.

Lemma keeps_safecpy dst src n : keeps_glob (safecpy dst src n).
Proof. unfold safecpy, x3f_printf. keeps. Qed.

Lemma keeps_safecat dst src n : keeps_glob (safecat dst src n).
Proof. unfold safecat, x3f_printf. keeps. Qed.

Lemma keeps_make_paths p inpath outdir ext tmpb outb :
  keeps_glob (make_paths p inpath outdir ext tmpb outb).
Proof.
  intros w [[err t] o] w' Hrun.
  destruct (make_paths_any _ _ _ _ _ _ _ _ _ _ _ Hrun)
    as (_ & (dbg & -> & _) & _).
  done.
Qed.

Section Globals.
Context `{Host} `{X3fLib}.

Lemma keeps_load_sections l em infile x : keeps_glob (load_sections l em infile x).
Proof.
  unfold load_sections, bind_exit, load_jpg, load_meta, load_raw,
    load_unconverted_raw, goto_found_error, x3f_get_thumb_jpeg, x3f_get_prop,
    x3f_get_camf, x3f_get_raw, x3f_load_data, x3f_load_image_block, x3f_printf.
  keeps.
Qed.

Lemma keeps_dump_and_commit l infile x errors :
  keeps_glob (dump_and_commit l infile x errors).
Proof.
  pose proof keeps_make_paths as Hmp.
  unfold dump_and_commit, goto_found_error, unlink, dispatch, rename, x3f_dump,
    x3f_printf.
  keeps.
Qed.

Lemma keeps_extract_file l em ifile errors :
  keeps_glob (extract_file l em ifile errors).
Proof.
  pose proof keeps_load_sections as Hls.
  pose proof keeps_dump_and_commit as Hdc.
  unfold extract_file, found_error, clean_up, fopen, fclose, x3f_new_from_file,
    x3f_delete, bind_exit, x3f_printf.
  keeps.
Qed.

Lemma parse_help_performs vm :
  performs (parse_help vm) tt (help_events vm) (fun g => g).
Proof.
  unfold parse_help, help_events, cerr.
  destruct (opt_help vm); [apply performs_emit|apply performs_ret].
Qed.

Lemma parse_format_performs vm l :
  performs (parse_format vm l) (format_result vm l) (format_events vm)
    (fun g => g).
Proof.
  unfold parse_format, format_result, format_events, cerr.
  destruct (opt_format vm) as [fmt|]; [|apply performs_ret].
  destruct (format_assignments fmt); [apply performs_ret|].
  intros w. unfold bind, emit, ret, upd. simpl. by rewrite <- app_assoc.
Qed.

Lemma parse_color_performs vm l :
  performs (parse_color vm l) (color_result vm l) (color_events vm) (fun g => g).
Proof.
  unfold parse_color, color_result, color_events, cerr.
  destruct (opt_color vm) as [spc|]; [|apply performs_ret].
  destruct (color_assignment spc); [apply performs_ret|].
  intros w. unfold bind, emit, ret, upd. simpl. by rewrite <- app_assoc.
Qed.

Lemma parse_output_performs vm l :
  performs (parse_output vm l) (output_result vm l) (output_events vm)
    (fun g => g).
Proof.
  apply performs_denotes; [apply parse_output_denotes|].
  unfold parse_output, check_dir, stat, cerr.
  keeps.
Qed.

Lemma parse_input_performs vm l :
  performs (parse_input vm l) (if opt_input vm is None then None else Some l)
    (input_events vm l) (fun g => g).
Proof.
  unfold parse_input, input_events, cerr, x3f_printf.
  destruct (opt_input vm); [apply performs_ret|].
  intros w. unfold bind, emit, ret, upd. simpl. by rewrite <- app_assoc.
Qed.

(** Lines 276-277 and 289-295 together set the globals as the options
    ask. *)
Lemma parse_verbosity_tuning_performs vm :
  performs (parse_verbosity vm ;; parse_tuning vm) tt [] (options_globals vm).
Proof.
  intros w. unfold parse_verbosity, parse_tuning, options_globals, bind, set_glob,
    ret, upd.
  destruct w as [files tr [lvl auto off mx]]. simpl.
  rewrite app_nil_r.
  by destruct (opt_debug vm), (opt_quiet vm), (opt_offset vm), (opt_matrixmax vm).
Qed.

Lemma format_accepted vm l :
  (if opt_format vm is Some fmt
   then (if format_assignments fmt is Some _ then true else false) else true)
  = (if format_result vm l is Some _ then true else false).
Proof.
  unfold format_result. destruct (opt_format vm) as [fmt|]; [|done].
  by destruct (format_assignments fmt).
Qed.

Lemma color_accepted vm l :
  (if opt_color vm is Some spc
   then (if color_assignment spc is Some _ then true else false) else true)
  = (if color_result vm l is Some _ then true else false).
Proof.
  unfold color_result. destruct (opt_color vm) as [spc|]; [|done].
  by destruct (color_assignment spc).
Qed.

(** What lines 242-307 do, as a function of the options. *)
Lemma parse_options_performs vm :
  performs (parse_options vm) (parse_result vm) (parse_events vm)
    (fun g => if tokens_accepted vm then options_globals vm g else g).
Proof.
  intros w. unfold parse_options, bind_exit.
  rewrite (bind_eq _ _ _ _ _ (parse_help_performs vm w)).
  rewrite (bind_eq _ _ _ _ _ (parse_format_performs vm _ _)).
  unfold parse_result, parse_events, tokens_accepted.
  rewrite (format_accepted vm initial_locals).
  destruct (format_result vm initial_locals) as [l1|]; simpl.
  2: { unfold ret. by rewrite !upd_upd, ?app_nil_r, <- ?app_assoc. }
  rewrite (bind_eq _ _ _ _ _ (parse_color_performs vm _ _)).
  rewrite (color_accepted vm l1).
  destruct (color_result vm l1) as [l2|]; simpl.
  2: { unfold ret. by rewrite !upd_upd, ?app_nil_r, <- ?app_assoc. }
  pose proof (parse_verbosity_tuning_performs vm
                (upd (upd (upd w (help_events vm) (glob w)) (format_events vm)
                        (glob w)) (color_events vm) (glob w))) as Hvt.
  unfold bind in Hvt |- *.
  destruct (parse_verbosity vm _) as [[[] w1]|]; [|done].
  rewrite Hvt, parse_output_performs, parse_input_performs.
  rewrite !upd_upd. simpl. by rewrite ?app_nil_r, <- ?app_assoc.
Qed.

(** X7.  What a run leaves in the globals of the library.  After an
    unknown format or color token they are as they were, since [main]
    returns before the lines that set them.  In every other run, also
    one without input file, they are set from the options: the level of
    [x3f_printf] is ERR with [--quiet], whether or not [--debug] is
    given too, DEBUG with [--debug] alone, and untouched otherwise;
    [--offset] sets the offset and switches the automatic offset off;
    [--matrixmax] sets the number of printed matrix elements to its
    value converted to [uint32_t], so that a negative value leaves the
    value plus 2^32.  The processing of the file never changes them. *)
Theorem main_sets_globals (vm : variables_map) (w : world) (code : Z)
    (w' : world) :
  main vm w = Some (code, w') ->
  glob w' = (if tokens_accepted vm then options_globals vm (glob w) else glob w)
  /\ (tokens_accepted vm = true ->
      x3f_printf_level (glob w')
      = (if opt_quiet vm then Some ERR
         else if opt_debug vm then Some DEBUG else x3f_printf_level (glob w))
      /\ (forall n, opt_offset vm = Some n ->
                    auto_legacy_offset (glob w') = 0
                    /\ legacy_offset (glob w') = n)
      /\ (opt_offset vm = None ->
          auto_legacy_offset (glob w') = auto_legacy_offset (glob w)
          /\ legacy_offset (glob w') = legacy_offset (glob w))
      /\ (forall n, opt_matrixmax vm = Some n ->
                    max_printed_matrix_elements (glob w') = n mod 2 ^ 32
                    /\ 0 <= max_printed_matrix_elements (glob w') < 2 ^ 32
                    /\ (- 2 ^ 32 <= n < 0 ->
                        max_printed_matrix_elements (glob w') = n + 2 ^ 32))
      /\ (opt_matrixmax vm = None ->
          max_printed_matrix_elements (glob w')
          = max_printed_matrix_elements (glob w))).
Proof.
  intros Hmain.
  assert (glob w' = (if tokens_accepted vm then options_globals vm (glob w)
                     else glob w)) as Hglob.
  { unfold main in Hmain.
    rewrite (bind_eq _ _ _ _ _ (x3f_printf_eq _ _ _ _)) in Hmain.
    unfold setvbuf in Hmain.
    rewrite (bind_eq _ _ _ _ _ (emit_eq _ _)) in Hmain.
    rewrite (bind_eq _ _ _ _ _ (emit_eq _ _)) in Hmain.
    rewrite (bind_eq _ _ _ _ _ (parse_options_performs vm _)) in Hmain.
    simpl in Hmain.
    destruct (parse_result vm) as [l|].
    - unfold x3f_set_use_opencl in Hmain.
      rewrite (bind_eq _ _ _ _ _ (emit_eq _ _)) in Hmain.
      apply bind_inv in Hmain as (ifile & w1 & Hacc & Hmain).
      apply keeps_access in Hacc.
      apply bind_inv in Hmain as (errors & w2 & Hfile & Hmain).
      apply keeps_extract_file in Hfile.
      unfold bind, ret, x3f_printf, emit in Hmain. simpl in Hmain.
      injection Hmain as <- <-. simpl. by rewrite Hfile, Hacc.
    - by injection Hmain as <- <-. }
  split; [done|]. intros Hacc. rewrite Hglob, Hacc. simpl.
  split; [done|]. split; [by intros n ->|]. split; [by intros ->|].
  split; [|by intros ->].
  intros n ->. simpl. unfold to_uint32.
  pose proof (Z.mod_pos_bound n (2 ^ 32) ltac:(lia)) as Hb.
  split; [done|]. split; [done|]. intros Hn.
  symmetry. apply Z.mod_unique with (q := -1); lia.
Qed.

End Globals.

(** ** Options that a format does not use *)

(** The format chain leaves the other locals as they were
    initialised. *)
Lemma format_result_keeps vm l1 :
  format_result vm initial_locals = Some l1 ->
  crop l1 = 1 /\ fix_bad l1 = 1 /\ denoise l1 = 1 /\ apply_sgain l1 = -1
  /\ color_encoding l1 = SRGB /\ wb l1 = None /\ compress l1 = 0
  /\ use_opencl l1 = 0 /\ outdir l1 = None.
Proof.
  unfold format_result. destruct (opt_format vm) as [fmt|].
  - unfold format_assignments.
    repeat case_match; simpl; intros [= <-]; done.
  - by intros [= <-].
Qed.

(** The locals at line 308, field by field. *)
Lemma parse_result_locals vm l :
  parse_result vm = Some l ->
  exists l1,
    format_result vm initial_locals = Some l1
    /\ l = {| extract_jpg := extract_jpg l1;
              extract_raw := extract_raw l1;
              extract_unconverted_raw := extract_unconverted_raw l1;
              crop := if opt_noCrop vm then 0 else 1;
              fix_bad := if opt_noFixBad vm then 0 else 1;
              denoise := if opt_noDenoise vm then 0 else 1;
              apply_sgain := if opt_sgain vm then 1
                             else if opt_noSGain vm then 0 else -1;
              file_type := file_type l1;
              color_encoding := default SRGB (opt_color vm ≫= color_assignment);
              log_hist := log_hist l1;
              wb := c_str <$> opt_whiteBalance vm;
              compress := if opt_compress vm then 1 else 0;
              use_opencl := if opt_ocl vm then 1 else 0;
              outdir := c_str <$> opt_output vm |}.
Proof.
  unfold parse_result.
  destruct (format_result vm initial_locals) as [l1|] eqn:Hf; [|done]. simpl.
  destruct (format_result_keeps vm l1 Hf)
    as (Hc & Hb & Hd & Hs & He & Hw & Hz & Ho & Hdir).
  destruct l1 as [j r u c f d s t e h wb0 z o dir]. simpl in *. subst.
  intros Hres. exists (Build_locals j r u 1 1 1 (-1) t SRGB h None 0 0 None).
  split; [done|]. simpl.
  unfold color_result in Hres. unfold parse_switches, output_result in Hres.
  destruct (opt_color vm) as [spc|]; simpl in Hres |- *;
    [destruct (color_assignment spc) as [c|]; simpl in Hres; [|done]|];
    (destruct (opt_input vm); [|done]); injection Hres as <-;
    destruct (opt_noCrop vm), (opt_noFixBad vm), (opt_noDenoise vm),
      (opt_noSGain vm), (opt_sgain vm), (opt_whiteBalance vm),
      (opt_compress vm), (opt_ocl vm), (opt_output vm); reflexivity.
Qed.

Section UnusedOptions.
Context `{Host} `{X3fLib}.

(** Two command lines that print the same in the option part, set the
    same globals and resolve to locals under which the file is processed
    in the same way, give the same run. *)
Lemma main_congruence vm vm' w :
  parse_events vm = parse_events vm' ->
  tokens_accepted vm = tokens_accepted vm' ->
  (forall g, options_globals vm g = options_globals vm' g) ->
  opt_input vm = opt_input vm' ->
  match parse_result vm, parse_result vm' with
  | Some l, Some l' =>
      use_opencl l = use_opencl l'
      /\ compute_extract_meta l = compute_extract_meta l'
      /\ extract_file l = extract_file l'
  | None, None => True
  | _, _ => False
  end ->
  main vm w = main vm' w.
Proof.
  intros Hev Hacc Hglob Hin Hres. unfold main.
  apply bind_cong_r. intros _ w1.
  apply bind_cong_r. intros _ w2.
  apply bind_cong_r. intros _ w3.
  rewrite (bind_eq _ _ _ _ _ (parse_options_performs vm w3)).
  rewrite (bind_eq _ _ _ _ _ (parse_options_performs vm' w3)).
  rewrite Hev, Hacc, Hglob.
  destruct (parse_result vm) as [l|], (parse_result vm') as [l'|]; try done.
  destruct Hres as (-> & -> & ->). by rewrite Hin.
Qed.

Lemma same_request_events vm vm' :
  same_request vm vm' ->
  (forall spc, opt_color vm = Some spc -> is_Some (color_assignment spc)) ->
  (forall spc, opt_color vm' = Some spc -> is_Some (color_assignment spc)) ->
  parse_events vm = parse_events vm'
  /\ tokens_accepted vm = tokens_accepted vm'
  /\ (forall g, options_globals vm g = options_globals vm' g)
  /\ (parse_result vm = None <-> parse_result vm' = None).
Proof.
  intros (Hh & Ho & Hd & Hq & Hf & Hocl & Hoff & Hmx & Hin) Hc Hc'.
  assert (color_events vm = [] /\ color_events vm' = []) as [Hce Hce'].
  { unfold color_events. split.
    - destruct (opt_color vm) as [spc|]; [|done].
      by destruct (Hc spc eq_refl) as [c ->].
    - destruct (opt_color vm') as [spc|]; [|done].
      by destruct (Hc' spc eq_refl) as [c ->]. }
  assert (forall l, exists l2 l2', color_result vm l = Some l2
                                   /\ color_result vm' l = Some l2'
                                   /\ outdir l2 = outdir l
                                   /\ outdir l2' = outdir l) as Hcr.
  { intros l. unfold color_result.
    destruct (opt_color vm) as [spc|], (opt_color vm') as [spc'|];
      try destruct (Hc spc eq_refl) as [c ->];
      try destruct (Hc' spc' eq_refl) as [c' ->];
      simpl; eexists _, _; (split; [done|]); (split; [done|]);
      by destruct l. }
  assert (format_result vm initial_locals = format_result vm' initial_locals)
    as Hfr by (unfold format_result; by rewrite Hf).
  split; [|split; [|split]].
  - unfold parse_events, help_events, format_events.
    rewrite Hh, Hf, Hfr.
    destruct (format_result vm' initial_locals) as [l1|]; [|done].
    rewrite Hce, Hce'.
    destruct (Hcr l1) as (l2 & l2' & -> & -> & Ho2 & Ho2').
    unfold output_events, input_events. rewrite Ho, Hin.
    do 4 f_equal.
    destruct (opt_input vm'); [done|]. do 3 f_equal.
    pose proof (parse_switches_fields vm l2) as F1.
    pose proof (parse_switches_fields vm' l2') as F2.
    pose proof (output_result_fields vm (parse_switches vm l2)) as G1.
    pose proof (output_result_fields vm' (parse_switches vm' l2')) as G2.
    cbv zeta in F1, F2, G1, G2.
    destruct F1 as (_ & _ & _ & _ & _ & _ & F1 & _).
    destruct F2 as (_ & _ & _ & _ & _ & _ & F2 & _).
    destruct G1 as (_ & _ & _ & _ & _ & _ & _ & _ & G1).
    destruct G2 as (_ & _ & _ & _ & _ & _ & _ & _ & G2).
    rewrite G1, G2, F1, F2, Ho, Ho2, Ho2'. done.
  - unfold tokens_accepted. rewrite Hf. f_equal.
    destruct (opt_color vm) as [spc|], (opt_color vm') as [spc'|];
      try destruct (Hc spc eq_refl) as [c ->];
      try destruct (Hc' spc' eq_refl) as [c' ->]; done.
  - intros g. unfold options_globals. by rewrite Hd, Hq, Hoff, Hmx.
  - unfold parse_result. rewrite Hfr, Hin.
    destruct (format_result vm' initial_locals) as [l1|]; [|done]. simpl.
    destruct (Hcr l1) as (l2 & l2' & -> & -> & _). simpl.
    by destruct (opt_input vm').
Qed.

(** X8.  For DNG output, which is also the default, the color encoding
    and the crop play no role: two command lines that differ only in a
    color token the program knows, or in [--noCrop], give the same run,
    call by call and file by file. *)
Theorem dng_ignores_color_and_crop (vm vm' : variables_map) (w : world) :
  default "dng" (opt_format vm) = "dng" ->
  same_request vm vm' -> same_processing vm vm' ->
  (forall spc, opt_color vm = Some spc -> is_Some (color_assignment spc)) ->
  (forall spc, opt_color vm' = Some spc -> is_Some (color_assignment spc)) ->
  main vm w = main vm' w.
Proof.
  intros Hdng Hreq Hproc Hc Hc'.
  destruct (same_request_events vm vm' Hreq Hc Hc') as (Hev & Hacc & Hg & Hnone).
  pose proof Hreq as (Hh & Ho & Hd & Hq & Hf & Hocl & Hoff & Hmx & Hin).
  destruct Hproc as (Hnd & Hns & Hs & Hnf & Hwb & Hz).
  apply main_congruence; try done.
  destruct (parse_result vm) as [l|] eqn:Hres,
           (parse_result vm') as [l'|] eqn:Hres'; try done.
  - destruct (parse_result_locals vm l Hres) as (l1 & Hf1 & ->).
    destruct (parse_result_locals vm' l' Hres') as (l1' & Hf1' & ->).
    assert (l1 = Build_locals 0 1 0 1 1 1 (-1) DNG SRGB 0 None 0 0 None) as ->.
    { unfold format_result in Hf1.
      destruct (opt_format vm) as [fmt|]; simpl in Hdng; [subst fmt|];
        by injection Hf1 as <-. }
    assert (l1' = Build_locals 0 1 0 1 1 1 (-1) DNG SRGB 0 None 0 0 None) as ->.
    { unfold format_result in Hf1'. rewrite <- Hf in Hf1'.
      destruct (opt_format vm) as [fmt|]; simpl in Hdng; [subst fmt|];
        by injection Hf1' as <-. }
    simpl. rewrite Hocl, Hnd, Hns, Hs, Hnf, Hwb, Hz, Ho.
    split; [done|]. split; [done|]. reflexivity.
  - discriminate (proj2 Hnone eq_refl).
  - discriminate (proj1 Hnone eq_refl).
Qed.

(** X9.  For the formats [meta], [jpg] and [raw] none of the switches
    for the processing of the raw data plays a role: two command lines
    that differ only in a color token the program knows, in [--noCrop],
    [--noDenoise], [--noSGain], [--sgain], [--noFixBad],
    [--whiteBalance] or [--compress] give the same run. *)
Theorem unprocessed_formats_ignore_switches (vm vm' : variables_map)
    (w : world) :
  opt_format vm = Some "meta" \/ opt_format vm = Some "jpg"
  \/ opt_format vm = Some "raw" ->
  same_request vm vm' ->
  (forall spc, opt_color vm = Some spc -> is_Some (color_assignment spc)) ->
  (forall spc, opt_color vm' = Some spc -> is_Some (color_assignment spc)) ->
  main vm w = main vm' w.
Proof.
  intros Hfmt Hreq Hc Hc'.
  destruct (same_request_events vm vm' Hreq Hc Hc') as (Hev & Hacc & Hg & Hnone).
  pose proof Hreq as (Hh & Ho & Hd & Hq & Hf & Hocl & Hoff & Hmx & Hin).
  apply main_congruence; try done.
  destruct (parse_result vm) as [l|] eqn:Hres,
           (parse_result vm') as [l'|] eqn:Hres'; try done.
  - destruct (parse_result_locals vm l Hres) as (l1 & Hf1 & ->).
    destruct (parse_result_locals vm' l' Hres') as (l1' & Hf1' & ->).
    unfold format_result in Hf1, Hf1'. rewrite <- Hf in Hf1'.
    destruct Hfmt as [Hfmt|[Hfmt|Hfmt]]; rewrite Hfmt in Hf1, Hf1';
      injection Hf1 as <-; injection Hf1' as <-;
      simpl; rewrite Hocl, Ho; (split; [done|]); (split; [done|]); reflexivity.
  - discriminate (proj2 Hnone eq_refl).
  - discriminate (proj1 Hnone eq_refl).
Qed.

End UnusedOptions.

(** ** Error reports and the exit status *)

Lemma error_reports_app a b :
  error_reports (a ++ b) = (error_reports a + error_reports b)%nat.
Proof. unfold error_reports. by rewrite List.filter_app, length_app. Qed.

Lemma error_reports_debug dbg : Forall is_debug dbg -> error_reports dbg = 0%nat.
Proof.
  induction 1 as [|e dbg He _ IH]; [done|].
  change (e :: dbg) with ([e] ++ dbg). rewrite error_reports_app, IH.
  by destruct e as [[] | | | | | | | | | | | | | | | | | | | ].
Qed.

Section Reports.
Context `{Host} `{X3fLib}.

(** A section that is loaded makes no error report, one that fails makes
    one; the branch for [files == 0] is not among them. *)
Lemma load_one_reports sec infile x :
  error_reports (load_one sec infile x).1
  = (if (load_one sec infile x).2 is Some _ then 0 else 1)%nat
  /\ Forall (fun e => no_files_report e = false) (load_one sec infile x).1.
Proof.
  destruct sec; unfold load_one, load_raw_with, loaded; simpl.
  - destruct (lib_load_data x (lib_get_thumb_jpeg x)) as [[] x'];
      simpl; split; try done; repeat constructor.
  - destruct (lib_load_data x (lib_get_camf x)) as [[] x']; simpl.
    + destruct (lib_get_prop x) as [de|]; simpl.
      * destruct (lib_load_data x' (Some de)) as [[] x'']; simpl;
          split; try done; repeat constructor.
      * split; [done|repeat constructor].
    + destruct (lib_get_prop x); split; try done; repeat constructor.
  - destruct (lib_get_raw x) as [de|]; simpl.
    + destruct (lib_load_data x (Some de)) as [[] x'];
        simpl; split; try done; repeat constructor.
    + split; [done|repeat constructor].
  - destruct (lib_get_raw x) as [de|]; simpl.
    + destruct (lib_load_image_block x (Some de)) as [[] x'];
        simpl; split; try done; repeat constructor.
    + split; [done|repeat constructor].
Qed.

Lemma orchestrate_reports secs infile x :
  error_reports (orchestrate secs infile x).1
  = (if (orchestrate secs infile x).2 is Some _ then 0 else 1)%nat
  /\ Forall (fun e => no_files_report e = false) (orchestrate secs infile x).1.
Proof.
  revert x. induction secs as [|sec secs IH]; intros x; simpl; [done|].
  destruct (load_one_reports sec infile x) as [Hn Hf].
  destruct (load_one sec infile x) as [evs [x'|]]; simpl in *; [|done].
  destruct (IH x') as [Hn' Hf'].
  destruct (orchestrate secs infile x') as [evs' res']. simpl in *.
  rewrite error_reports_app, Hn, Hn'. split; [done|]. by apply Forall_app.
Qed.

Lemma debug_no_files_report dbg :
  Forall is_debug dbg -> Forall (fun e => no_files_report e = false) dbg.
Proof.
  intros Hd. eapply Forall_impl; [exact Hd|].
  by intros [[] | | | | | | | | | | | | | | | | | | | ].
Qed.

(** The processing of the file makes as many error reports as it adds
    to [errors], and none of the branch for [files == 0]. *)
Lemma file_run_reports l em ifile files path evs n files' :
  file_run l em ifile files path evs n files' ->
  Z.of_nat (error_reports evs) = n
  /\ Forall (fun e => no_files_report e = false) evs.
Proof.
  intros Hrun.
  destruct Hrun as [p Hopen|bytes p Hopen Hnew|bytes x levs p Hopen Hnew Horch
                |bytes x levs x' w0 err tmpb outb dbg p Hopen Hnew Horch Hpaths Herr
                |bytes x levs x' w0 tmpb outb p tmp0 out0 call0 Hopen Hnew Horch
                   Hpaths Hok
                |bytes x levs x' w0 tmpb outb p tmp0 out0 call0 Hopen Hnew Horch
                   Hpaths Hok Hren
                |bytes x levs x' w0 tmpb outb written p tmp0 out0 call0 Hopen Hnew
                   Horch Hpaths Hok Hren];
    try (split; [done|repeat constructor]);
    destruct (orchestrate_reports (plan l em) p x) as [Hn Hf];
    rewrite Horch in Hn, Hf; simpl in Hn, Hf.
  - rewrite !error_reports_app, Hn. split; [done|].
    repeat (apply Forall_app; split); try done; repeat constructor.
  - destruct (make_paths_any _ _ _ _ _ _ _ _ _ _ _ Hpaths)
      as (_ & (dbg' & Hw & Hdbg & _) & _).
    assert (dbg' = dbg) as ->.
    { apply (f_equal trace) in Hw. simpl in Hw. by apply app_inv_head in Hw. }
    change (paths_call l ifile :: dbg ++ ?t) with ([paths_call l ifile] ++ dbg ++ t).
    rewrite !error_reports_app, Hn, (error_reports_debug _ Hdbg).
    split; [done|].
    repeat (apply Forall_app; split); try done; repeat constructor;
      by apply debug_no_files_report.
  - change (paths_call l ifile :: ?a ++ ?t) with ([paths_call l ifile] ++ a ++ t).
    rewrite !error_reports_app, Hn. split; [done|].
    repeat (apply Forall_app; split); try done; repeat constructor;
      by destruct (file_type l).
  - change (paths_call l ifile :: ?a ++ ?t) with ([paths_call l ifile] ++ a ++ t).
    rewrite !error_reports_app, Hn. split; [done|].
    repeat (apply Forall_app; split); try done; repeat constructor;
      by destruct (file_type l).
  - change (paths_call l ifile :: ?a ++ ?t) with ([paths_call l ifile] ++ a ++ t).
    rewrite !error_reports_app, Hn. split; [done|].
    repeat (apply Forall_app; split); try done; repeat constructor;
      by destruct (file_type l).
Qed.

(** The option part makes one error report when it turns the request
    down, and none otherwise. *)
Lemma parse_events_reports vm :
  error_reports (parse_events vm)
  = (if parse_result vm is Some _ then 0 else 1)%nat
  /\ Forall (fun e => no_files_report e = false) (parse_events vm).
Proof.
  unfold parse_events, parse_result, help_events, format_events, format_result,
    color_events, color_result, output_events, input_events.
  split.
  - rewrite !error_reports_app.
    destruct (opt_help vm), (opt_format vm) as [fmt|];
      try destruct (format_assignments fmt); simpl; try done;
      rewrite ?error_reports_app;
      destruct (opt_color vm) as [spc|];
      try destruct (color_assignment spc); simpl; try done;
      rewrite ?error_reports_app;
      destruct (opt_output vm) as [d|], (opt_input vm); simpl; try done;
      by destruct (check_dir_result _ =? 0).
  - destruct (opt_help vm), (opt_format vm) as [fmt|];
      try destruct (format_assignments fmt); simpl; repeat constructor;
      destruct (opt_color vm) as [spc|];
      try destruct (color_assignment spc); simpl; repeat constructor;
      destruct (opt_output vm) as [d|], (opt_input vm); simpl;
      repeat constructor;
      destruct (check_dir_result _ =? 0); repeat constructor.
Qed.

(** X10.  The exit status is the number of error reports of the run,
    which is 0 or 1: a run that reports nothing at level ERR and no
    unknown token returns 0, and a run returns 1 after exactly one such
    report, whatever went wrong. *)
Theorem exit_status_counts_error_reports (vm : variables_map) (w : world)
    (code : Z) (w' : world) :
  main vm w = Some (code, w') ->
  exists evs,
    trace w' = trace w ++ evs
    /\ code = Z.of_nat (error_reports evs)
    /\ (code = 0 \/ code = 1).
Proof.
  intros Hmain. apply main_run in Hmain.
  destruct (parse_events_reports vm) as [Hpe _].
  destruct (parse_result vm) as [l|].
  - destruct Hmain as (ifile & path & evs & n & Hin & Hrun & Htrace & ->).
    destruct (file_run_reports _ _ _ _ _ _ _ _ Hrun) as [Hn _].
    destruct (file_run_renamed _ _ _ _ _ _ _ _ Hrun) as (_ & _ & Hn01).
    eexists. split; [exact Htrace|].
    change (E_x3f_set_use_opencl (use_opencl l) :: evs ++ [summary 1 n])
      with ([E_x3f_set_use_opencl (use_opencl l)] ++ evs ++ [summary 1 n]).
    rewrite !error_reports_app, Hpe.
    change (error_reports intro_events) with 0%nat.
    change (error_reports [E_x3f_set_use_opencl (use_opencl l)]) with 0%nat.
    change (error_reports [summary 1 n]) with 0%nat.
    destruct Hn01 as [-> | ->]; split; try (by auto); simpl in *; lia.
  - destruct Hmain as (-> & _ & Htrace).
    eexists. split; [exact Htrace|].
    rewrite error_reports_app, Hpe. split; [done|]. by right.
Qed.

(** X11.  The branch for [files == 0] at the end of [main] is dead: no
    run prints "No files given" or writes the usage text with
    [fprintf]. *)
Theorem no_files_branch_is_dead (vm : variables_map) (w : world) (code : Z)
    (w' : world) :
  main vm w = Some (code, w') ->
  exists evs,
    trace w' = trace w ++ evs
    /\ ~ In (E_x3f_printf ERR "No files given\n" []) evs
    /\ forall stream fmt, ~ In (E_fprintf stream fmt) evs.
Proof.
  intros Hmain. apply main_run in Hmain.
  destruct (parse_events_reports vm) as [_ Hpe].
  assert (forall evs, Forall (fun e => no_files_report e = false) evs ->
            ~ In (E_x3f_printf ERR "No files given\n" []) evs
            /\ forall stream fmt, ~ In (E_fprintf stream fmt) evs) as Hdead.
  { intros evs Hf. rewrite Forall_forall in Hf. split.
    - intros Hin%list_elem_of_In%Hf. discriminate.
    - intros stream fmt Hin%list_elem_of_In%Hf. discriminate. }
  destruct (parse_result vm) as [l|].
  - destruct Hmain as (ifile & path & evs & n & Hin & Hrun & Htrace & ->).
    destruct (file_run_reports _ _ _ _ _ _ _ _ Hrun) as [_ Hf].
    eexists. split; [exact Htrace|]. apply Hdead.
    apply Forall_app. split; [repeat constructor|].
    apply Forall_app. split; [done|].
    constructor; [done|]. apply Forall_app. split; [done|repeat constructor].
  - destruct Hmain as (-> & _ & Htrace).
    eexists. split; [exact Htrace|]. apply Hdead.
    apply Forall_app. split; [repeat constructor|done].
Qed.

End Reports.

(** ** The output directory and the explicit spatial gain *)

Section Further.
Context `{Host} `{X3fLib}.

(** X12.  [check_dir] makes one [stat] call and nothing else; it returns
    0 exactly when the path exists and is a directory, and -1 otherwise:
    a path that exists without being a directory counts like one that
    does not exist.  With [--output], [main] sets [outdir] to the
    string given in either case, and prints the usage text exactly when
    [check_dir] did not return 0. *)
Theorem output_option_checks_directory (vm : variables_map) (l : locals)
    (d : string) (w : world) :
  opt_output vm = Some d ->
  let p := path_of (c_str d) in
  let called := E_stat p (if host_stat p is Some _ then 0 else -1) in
  exists r,
    check_dir p w = Some (r, log w [called])
    /\ (r = 0 <-> host_stat p = Some true) /\ (r = 0 \/ r = -1)
    /\ parse_output vm l w
       = Some (l <: [set_outdir (Some (c_str d))],
               log w (called :: if decide (r = 0) then []
                                else [E_cerr [Desc; Endl]])).
Proof.
  intros Hout p called.
  unfold parse_output, check_dir, stat, cerr. rewrite Hout. fold p.
  unfold called.
  destruct (host_stat p) as [[]|]; eexists; (split; [reflexivity|]);
    (split; [done|]); (split; [by auto|]);
    unfold bind, emit, ret, log; simpl; by rewrite <- ?app_assoc.
Qed.

(** X13.  An explicit spatial gain switch decides alone: with [--sgain]
    every encoder that takes the spatial gain is called with 1, also
    when [--noSGain] is given too, and with [--noSGain] alone it is
    called with 0; the header version of the container plays no
    role. *)
Theorem explicit_spatial_gain_wins (vm : variables_map) (w : world) (code : Z)
    (w' : world) (l : locals) :
  main vm w = Some (code, w') ->
  parse_result vm = Some l ->
  opt_sgain vm = true \/ opt_noSGain vm = true ->
  let forced := if opt_sgain vm then 1 else 0 in
  apply_sgain l = forced
  /\ exists evs,
       trace w' = trace w ++ evs
       /\ forall call tmp r,
            In (E_x3f_dump call tmp r) evs ->
            call = dump_call_of l forced
            /\ forall s, sgain_argument call = Some s -> s = forced.
Proof.
  intros Hmain Hres Hgiven forced.
  assert (apply_sgain l = forced) as Hforced.
  { destruct (parse_result_Some vm l Hres)
      as (? & ? & ? & ? & _ & _ & _ & _ & _ & _ & _ & _ & Hs & _).
    rewrite Hs. unfold forced.
    destruct (opt_sgain vm); [done|]. by destruct Hgiven as [?| ->]. }
  split; [done|].
  apply main_run in Hmain. rewrite Hres in Hmain.
  destruct Hmain as (ifile & path & evs & n & Hin & Hrun & Htrace & Hcode).
  eexists. split; [exact Htrace|].
  intros call tmp r Hdump.
  assert (In (E_x3f_dump call tmp r) evs) as Hdump'.
  { apply in_app_iff in Hdump as [Hdump|Hdump].
    { simpl in Hdump. intuition discriminate. }
    apply in_app_iff in Hdump as [Hdump|Hdump].
    { pose proof (parse_events_quiet vm) as Hq. rewrite Forall_forall in Hq.
      by specialize (Hq _ (proj2 (list_elem_of_In _ _) Hdump)). }
    destruct Hdump as [Hdump|Hdump]; [discriminate|].
    apply in_app_iff in Hdump as [Hdump|Hdump]; [done|].
    simpl in Hdump. intuition discriminate. }
  destruct (file_run_dump _ _ _ _ _ _ _ _ _ _ _ Hrun Hdump')
    as (bytes & x & levs & x' & out & post & _ & Hnew & Horch & Hcall & Hevs).
  assert (resolve_sgain l x' = forced) as Hsgain.
  { unfold resolve_sgain. rewrite Hforced. unfold forced.
    by destruct (opt_sgain vm). }
  rewrite Hsgain in Hcall. split; [done|].
  intros s. rewrite Hcall. apply sgain_argument_dump_call_of.
Qed.

End Further.

(** ** [--help] *)

Lemma framed_ret {A} (v : A) : framed (ret v).
Proof.
  intros w. right. exists v, (fs w), [], (glob w). intros t.
  unfold ret, with_trace. by rewrite app_nil_r.
Qed.

Lemma framed_emit e : framed (emit e).
Proof. intros w. right. by exists tt, (fs w), [e], (glob w). Qed.

Lemma framed_get_fs : framed get_fs.
Proof.
  intros w. right. exists (fs w), (fs w), [], (glob w). intros t.
  unfold get_fs, with_trace. simpl. by rewrite app_nil_r.
Qed.

Lemma framed_set_fs f : framed (set_fs f).
Proof.
  intros w. right. exists tt, f, [], (glob w). intros t.
  unfold set_fs, with_trace. simpl. by rewrite app_nil_r.
Qed.

Lemma framed_set_glob f : framed (set_glob f).
Proof.
  intros w. right. exists tt, (fs w), [], (f (glob w)). intros t.
  unfold set_glob, with_trace. simpl. by rewrite app_nil_r.
Qed.

Lemma framed_access {A} (o : option A) : framed (access o).
Proof. destruct o; [apply framed_ret|]. intros w. by left. Qed.

Lemma framed_bind {A B} (m : M A) (k : A -> M B) :
  framed m -> (forall a, framed (k a)) -> framed (bind m k).
Proof.
  intros Hm Hk w. destruct (Hm w) as [Hn|(a & f & evs & g & Hs)].
  - left. intros t. unfold bind. by rewrite Hn.
  - destruct (Hk a {| fs := f; trace := []; glob := g |})
      as [Hn|(b & f' & evs' & g' & Hs')].
    + left. intros t. unfold bind. rewrite Hs. apply (Hn (t ++ evs)).
    + right. exists b, f', (evs ++ evs'), g'. intros t. unfold bind.
      rewrite Hs. specialize (Hs' (t ++ evs)). unfold with_trace in Hs'.
      simpl in Hs'. by rewrite Hs', app_assoc.
Qed.

Ltac framed_step :=
  first
    [ apply framed_ret | apply framed_emit | apply framed_get_fs
    | apply framed_set_fs | apply framed_set_glob | apply framed_access
    | match goal with H : context [framed] |- _ => apply H end
    | apply framed_bind; [|intros]
    | match goal with
      | |- framed (match ?x with _ => _ end) => destruct x
      end ].

Ltac framed_all := repeat framed_step.

Lemma framed_make_paths p inpath outdir ext tmpb outb :
  framed (make_paths p inpath outdir ext tmpb outb).
Proof.
  assert (forall dst src n, framed (safecpy dst src n)) as Hcpy
    by (intros; unfold safecpy, x3f_printf; framed_all).
  assert (forall dst src n, framed (safecat dst src n)) as Hcat
    by (intros; unfold safecat, x3f_printf; framed_all).
  unfold make_paths. framed_all.
Qed.

Section Help.
Context `{Host} `{X3fLib}.

Lemma framed_extract_file l em ifile errors :
  framed (extract_file l em ifile errors).
Proof.
  pose proof framed_make_paths as Hmp.
  assert (forall l em infile x, framed (load_sections l em infile x)) as Hls.
  { intros. clear Hmp.
    unfold load_sections, bind_exit, load_jpg, load_meta, load_raw,
      load_unconverted_raw, goto_found_error, x3f_get_thumb_jpeg, x3f_get_prop,
      x3f_get_camf, x3f_get_raw, x3f_load_data, x3f_load_image_block, x3f_printf.
    framed_all. }
  assert (forall l infile x errors, framed (dump_and_commit l infile x errors))
    as Hdc.
  { intros. clear Hls.
    unfold dump_and_commit, goto_found_error, unlink, dispatch, rename, x3f_dump,
      x3f_printf.
    framed_all. }
  clear Hmp.
  unfold extract_file, found_error, clean_up, fopen, fclose, x3f_new_from_file,
    x3f_delete, bind_exit, x3f_printf.
  framed_all.
Qed.

(** X14.  [--help] does not end the run: it only adds the usage text,
    written to [std::cerr] right after the version line and the two
    [setvbuf] calls.  The run with [--help] is defined exactly when the
    run without is, and then it has the same exit status, leaves the
    same files and globals, and makes the same calls in the same
    order. *)
Theorem help_only_prints_usage (vm : variables_map) (w : world) :
  opt_help vm = false ->
  match main vm w with
  | None => main (with_help vm) w = None
  | Some (code, w1) =>
      exists evs,
        trace w1 = trace w ++ intro_events ++ evs
        /\ main (with_help vm) w
           = Some (code, {| fs := fs w1;
                            trace := trace w ++ intro_events
                                     ++ E_cerr [Desc] :: evs;
                            glob := glob w1 |})
  end.
Proof.
  intros Hhelp. unfold main.
  match goal with
  | |- context [bind (parse_options vm) ?k] => set (K := k)
  end.
  assert (forall r, framed (K r)) as HK.
  { intros r. pose proof framed_extract_file as Hef. unfold K.
    unfold x3f_set_use_opencl, fprintf, x3f_printf. framed_all. }
  change (bind (parse_options (with_help vm)) _) with
    (bind (parse_options (with_help vm)) K).
  rewrite !(bind_eq _ _ _ _ _ (x3f_printf_eq _ _ _ _)).
  unfold setvbuf.
  rewrite !(bind_eq _ _ _ _ _ (emit_eq _ _)).
  rewrite !log_log. simpl app. fold intro_events.
  rewrite (bind_eq _ _ _ _ _ (parse_options_performs vm _)).
  rewrite (bind_eq _ _ _ _ _ (parse_options_performs (with_help vm) _)).
  change (parse_result (with_help vm)) with (parse_result vm).
  change (tokens_accepted (with_help vm)) with (tokens_accepted vm).
  change (options_globals (with_help vm)) with (options_globals vm).
  assert (parse_events (with_help vm) = E_cerr [Desc] :: parse_events vm) as ->.
  { unfold parse_events at 2. unfold help_events. by rewrite Hhelp. }
  set (g := if tokens_accepted vm then _ else _).
  destruct (HK (parse_result vm) {| fs := fs w; trace := []; glob := g |})
    as [Hn|(a & f & evs & g' & Hs)].
  - pose proof (Hn (trace w ++ intro_events ++ parse_events vm)) as Hn1.
    pose proof (Hn (trace w ++ intro_events ++ E_cerr [Desc] :: parse_events vm))
      as Hn2.
    unfold with_trace in Hn1, Hn2. cbn [fs glob] in Hn1, Hn2.
    unfold upd, log. cbn [fs trace glob]. rewrite <- !app_assoc.
    by rewrite Hn1, Hn2.
  - pose proof (Hs (trace w ++ intro_events ++ parse_events vm)) as Hs1.
    pose proof (Hs (trace w ++ intro_events ++ E_cerr [Desc] :: parse_events vm))
      as Hs2.
    unfold with_trace in Hs1, Hs2. cbn [fs glob] in Hs1, Hs2.
    unfold upd, log. cbn [fs trace glob]. rewrite <- !app_assoc.
    rewrite Hs1, Hs2.
    exists (parse_events vm ++ evs). cbn [fs trace glob].
    split; [by rewrite <- !app_assoc|].
    do 3 f_equal. by rewrite <- !app_assoc.
Qed.

End Help.

(** * The further properties on the example runs *)

Section FurtherExamples.
#[local] Existing Instance example_host.
#[local] Existing Instance example_lib.

(** "ab" fits into four cells with [dst_size] 3, and the fourth cell
    keeps its 'x'. *)
Lemma safecpy_copies_or_refuses_witness :
  let dst := ["x"; "x"; "x"; "x"]%char in
  let s := ["a"; "b"]%char in
  (3 < length dst)%nat /\ nonnul s
  /\ safecpy dst (s ++ NUL :: []) 3 example_world
     = Some (if (length s <=? 3)%nat
             then ((0, s ++ NUL :: drop (S (length s)) dst), example_world)
             else ((1, dst), log example_world [dbg_cpy]))
  /\ safecpy dst s 3 example_world
     = (if (3 <? length s)%nat
        then Some ((1, dst), log example_world [dbg_cpy]) else None).
Proof.
  intros dst s.
  assert (3 < length dst)%nat as Hdst by (simpl; lia).
  assert (nonnul s) as Hs by repeat constructor.
  split; [exact Hdst|]. split; [exact Hs|].
  exact (safecpy_copies_or_refuses dst s [] 3 example_world Hdst Hs).
Defined.

(** "cd" is appended to "ab" in six cells with [dst_size] 5. *)
Lemma safecat_appends_or_refuses_witness :
  let d := ["a"; "b"]%char in
  let rd := ["x"; "x"; "x"]%char in
  let s := ["c"; "d"]%char in
  nonnul d /\ nonnul s
  /\ ((5 < length (d ++ NUL :: rd))%nat ->
      safecat (d ++ NUL :: rd) (s ++ NUL :: []) 5 example_world
      = Some (if (length d + length s <=? 5)%nat
              then ((0, d ++ s ++ NUL
                          :: drop (S (length d + length s)) (d ++ NUL :: rd)),
                    example_world)
              else ((1, d ++ NUL :: rd), log example_world [dbg_cat])))
  /\ ((5 < length d)%nat ->
      safecat d (s ++ NUL :: []) 5 example_world
      = Some ((1, d), log example_world [dbg_cat])).
Proof.
  intros d rd s.
  assert (nonnul d) as Hd by repeat constructor.
  assert (nonnul s) as Hs by repeat constructor.
  split; [exact Hd|]. split; [exact Hs|].
  exact (safecat_appends_or_refuses d rd s [] 5 example_world Hd Hs).
Defined.

(** [/in/photo.x3f] into [/out]: the cut is behind [/in/]. *)
Lemma make_paths_keeps_base_name_only_witness :
  exists t o w',
    make_paths Posix (c_str "/in/photo.x3f") (Some (c_str "/out")) (c_str ".dng")
      example_tmpfile example_outfile example_world = Some ((0, t, o), w')
    /\ exists pre base,
         "/in/photo.x3f" = pre +:+ base
         /\ Forall (fun c => is_sep (seps_of Posix) c = false)
              (list_ascii_of_string base)
         /\ (pre = ""
             \/ exists pre' c, pre = pre' +:+ String c ""
                               /\ is_sep (seps_of Posix) c = true)
         /\ path_of o
            = "/out" +:+ (if ends_in_sep Posix (list_ascii_of_string "/out")
                          then "" else PATHSEP Posix)
                +:+ base +:+ ".dng".
Proof.
  eexists _, _, _. split; [vm_compute; reflexivity|].
  eapply (make_paths_keeps_base_name_only Posix "/in/photo.x3f" "/out" ".dng"
            example_tmpfile example_outfile example_world);
    [repeat constructor|repeat constructor|repeat constructor|discriminate
    |reflexivity|reflexivity|vm_compute; reflexivity].
Defined.

(** A short input path fits for the histogram type. *)
Lemma make_paths_fits_within_MAXPATH_witness :
  exists t o,
    make_paths Posix (c_str "photo.x3f") (c_str <$> Some "/out")
      (c_str (extension HISTOGRAM)) example_tmpfile example_outfile example_world
    = Some ((0, t, o), example_world)
    /\ (String.length (path_of o) <= MAXOUTPATH)%nat
    /\ (String.length (path_of t) <= MAXTMPPATH)%nat.
Proof.
  apply (make_paths_fits_within_MAXPATH Posix "photo.x3f" (Some "/out")
           HISTOGRAM example_tmpfile example_outfile example_world).
  - repeat constructor.
  - intros d [= <-]. repeat constructor.
  - reflexivity.
  - reflexivity.
  - apply Nat.leb_le. vm_compute. reflexivity.
Defined.

(** The two PPM types write to the same final path. *)
Lemma same_final_path_iff_ppm_witness :
  exists t1 o1 w1 t2 o2 w2,
    make_paths Posix (c_str "photo.x3f") (c_str <$> None)
      (c_str (extension PPMP3)) example_tmpfile example_outfile example_world
    = Some ((0, t1, o1), w1)
    /\ make_paths Posix (c_str "photo.x3f") (c_str <$> None)
         (c_str (extension PPMP6)) example_tmpfile example_outfile example_world
       = Some ((0, t2, o2), w2)
    /\ (path_of o1 = path_of o2
        <-> PPMP3 = PPMP6 \/ (PPMP3 = PPMP3 /\ PPMP6 = PPMP6)
            \/ (PPMP3 = PPMP6 /\ PPMP6 = PPMP3)).
Proof.
  eexists _, _, _, _, _, _.
  split; [vm_compute; reflexivity|]. split; [vm_compute; reflexivity|].
  eapply (same_final_path_iff_ppm Posix "photo.x3f" None PPMP3 PPMP6
            example_tmpfile example_outfile _ _ _ _ example_world);
    [repeat constructor|discriminate|reflexivity|reflexivity
    |vm_compute; reflexivity|vm_compute; reflexivity].
Defined.

(** In the example run [photo.x3f] is as it was. *)
Lemma main_keeps_other_files_witness :
  exists code w' l,
    main example_vm example_world = Some (code, w')
    /\ parse_result example_vm = Some l
    /\ opt_input example_vm = Some "photo.x3f"
    /\ let p := path_of (c_str "photo.x3f") in
       let out := final_path_of pf p (path_of <$> outdir l)
                    (extension (file_type l)) in
       p <> out /\ p <> out +:+ ".tmp"
       /\ (forall q, q <> out -> q <> out +:+ ".tmp" ->
                     fs w' !! q = fs example_world !! q)
       /\ fs w' !! p = fs example_world !! p.
Proof.
  eexists _, _, _.
  split; [vm_compute; reflexivity|]. split; [vm_compute; reflexivity|].
  split; [reflexivity|].
  apply (main_keeps_other_files example_vm example_world 0);
    vm_compute; reflexivity.
Defined.

(** With [-d -q --offset 7 --matrixmax -1] the level is ERR, the offset
    7 and the number of printed matrix elements 4294967295. *)
Lemma main_sets_globals_witness :
  exists code w',
    main example_vm_tuning example_world = Some (code, w')
    /\ max_printed_matrix_elements (glob w') = 4294967295
    /\ glob w' = (if tokens_accepted example_vm_tuning
                  then options_globals example_vm_tuning (glob example_world)
                  else glob example_world)
    /\ (tokens_accepted example_vm_tuning = true ->
        x3f_printf_level (glob w')
        = (if opt_quiet example_vm_tuning then Some ERR
           else if opt_debug example_vm_tuning then Some DEBUG
                else x3f_printf_level (glob example_world))
        /\ (forall n, opt_offset example_vm_tuning = Some n ->
                      auto_legacy_offset (glob w') = 0
                      /\ legacy_offset (glob w') = n)
        /\ (opt_offset example_vm_tuning = None ->
            auto_legacy_offset (glob w') = auto_legacy_offset (glob example_world)
            /\ legacy_offset (glob w') = legacy_offset (glob example_world))
        /\ (forall n, opt_matrixmax example_vm_tuning = Some n ->
                      max_printed_matrix_elements (glob w') = n mod 2 ^ 32
                      /\ 0 <= max_printed_matrix_elements (glob w') < 2 ^ 32
                      /\ (- 2 ^ 32 <= n < 0 ->
                          max_printed_matrix_elements (glob w') = n + 2 ^ 32))
        /\ (opt_matrixmax example_vm_tuning = None ->
            max_printed_matrix_elements (glob w')
            = max_printed_matrix_elements (glob example_world))).
Proof.
  eexists _, _. split; [vm_compute; reflexivity|]. split; [reflexivity|].
  apply (main_sets_globals example_vm_tuning example_world 0).
  vm_compute; reflexivity.
Defined.

(** [-c qtop --noCrop] changes nothing for the default format. *)
Lemma dng_ignores_color_and_crop_witness :
  default "dng" (opt_format example_vm) = "dng"
  /\ same_request example_vm example_vm_color
  /\ same_processing example_vm example_vm_color
  /\ main example_vm example_world = main example_vm_color example_world.
Proof.
  assert (same_request example_vm example_vm_color) as Hreq
    by (repeat split; reflexivity).
  assert (same_processing example_vm example_vm_color) as Hproc
    by (repeat split; reflexivity).
  split; [reflexivity|]. split; [exact Hreq|]. split; [exact Hproc|].
  apply (dng_ignores_color_and_crop example_vm example_vm_color example_world
           eq_refl Hreq Hproc).
  - intros spc [=].
  - intros spc [= <-]. by eexists.
Defined.

(** The switches change nothing for [-f jpg]. *)
Lemma unprocessed_formats_ignore_switches_witness :
  same_request example_vm_jpg example_vm_jpg_switches
  /\ main example_vm_jpg example_world
     = main example_vm_jpg_switches example_world.
Proof.
  assert (same_request example_vm_jpg example_vm_jpg_switches) as Hreq
    by (repeat split; reflexivity).
  split; [exact Hreq|].
  apply (unprocessed_formats_ignore_switches example_vm_jpg
           example_vm_jpg_switches example_world
           (or_intror (or_introl eq_refl)) Hreq).
  - intros spc [=].
  - intros spc [= <-]. by eexists.
Defined.

(** Without any file the run reports once and returns 1. *)
Lemma exit_status_counts_error_reports_witness :
  exists code w',
    main example_vm example_empty_world = Some (code, w')
    /\ code = 1
    /\ exists evs,
         trace w' = trace example_empty_world ++ evs
         /\ code = Z.of_nat (error_reports evs)
         /\ (code = 0 \/ code = 1).
Proof.
  eexists _, _. split; [vm_compute; reflexivity|]. split; [reflexivity|].
  apply (exit_status_counts_error_reports example_vm example_empty_world).
  vm_compute; reflexivity.
Defined.

Lemma no_files_branch_is_dead_witness :
  exists code w',
    main example_vm_no_input example_world = Some (code, w')
    /\ exists evs,
         trace w' = trace example_world ++ evs
         /\ ~ In (E_x3f_printf ERR "No files given\n" []) evs
         /\ forall stream fmt, ~ In (E_fprintf stream fmt) evs.
Proof.
  eexists _, _. split; [vm_compute; reflexivity|].
  apply (no_files_branch_is_dead example_vm_no_input example_world 1).
  vm_compute; reflexivity.
Defined.

(** [/nowhere] does not exist: [check_dir] returns -1 and the usage text
    is printed. *)
Lemma output_option_checks_directory_witness :
  opt_output example_vm_outdir = Some "/nowhere"
  /\ let p := path_of (c_str "/nowhere") in
     let called := E_stat p (if host_stat p is Some _ then 0 else -1) in
     exists r,
       check_dir p example_world = Some (r, log example_world [called])
       /\ (r = 0 <-> host_stat p = Some true) /\ (r = 0 \/ r = -1)
       /\ parse_output example_vm_outdir initial_locals example_world
          = Some (initial_locals <: [set_outdir (Some (c_str "/nowhere"))],
                  log example_world
                    (called :: if decide (r = 0) then []
                               else [E_cerr [Desc; Endl]])).
Proof.
  split; [reflexivity|].
  exact (output_option_checks_directory example_vm_outdir initial_locals
           "/nowhere" example_world eq_refl).
Defined.

(** With [--noSGain --sgain] the encoder is called with 1. *)
Lemma explicit_spatial_gain_wins_witness :
  exists code w' l,
    main example_vm_both example_world = Some (code, w')
    /\ parse_result example_vm_both = Some l
    /\ (opt_sgain example_vm_both = true \/ opt_noSGain example_vm_both = true)
    /\ let forced := if opt_sgain example_vm_both then 1 else 0 in
       apply_sgain l = forced
       /\ exists evs,
            trace w' = trace example_world ++ evs
            /\ forall call tmp r,
                 In (E_x3f_dump call tmp r) evs ->
                 call = dump_call_of l forced
                 /\ forall s, sgain_argument call = Some s -> s = forced.
Proof.
  eexists _, _, _.
  split; [vm_compute; reflexivity|]. split; [vm_compute; reflexivity|].
  split; [by left|].
  apply (explicit_spatial_gain_wins example_vm_both example_world 0);
    [vm_compute; reflexivity|vm_compute; reflexivity|by left].
Defined.

Lemma help_only_prints_usage_witness :
  opt_help example_vm = false
  /\ match main example_vm example_world with
     | None => main (with_help example_vm) example_world = None
     | Some (code, w1) =>
         exists evs,
           trace w1 = trace example_world ++ intro_events ++ evs
           /\ main (with_help example_vm) example_world
              = Some (code, {| fs := fs w1;
                               trace := trace example_world ++ intro_events
                                        ++ E_cerr [Desc] :: evs;
                               glob := glob w1 |})
     end.
Proof.
  pose proof (help_only_prints_usage example_vm example_world eq_refl) as Hrun.
  split; [reflexivity|exact Hrun].
Defined.

End FurtherExamples.

(** ** Stale temporary files and dirty arrays *)

Lemma nonnul_replicate n c : is_nul c = false -> nonnul (replicate n c).
Proof. intros Hc. induction n; constructor; done. Qed.

Lemma nonnul_uninitialised cells n :
  (forall i, is_nul (cells i) = false) -> nonnul (uninitialised cells n).
Proof.
  intros Hc. unfold uninitialised, nonnul. apply Forall_map, Forall_forall.
  intros i _. apply Hc.
Qed.

(** X15.  Without output directory, an input path of more than
    [MAXOUTPATH] characters makes [make_paths] read the [outpath] array
    past its end when the array holds no NUL: the first copy is turned
    down and leaves the array as it was, and the length check of the
    copy into [tmppath] then looks at up to [MAXTMPPATH + 1] cells of an
    array of [MAXOUTPATH + 1]. *)
Theorem make_paths_overruns_dirty_outpath (p : platform) (inpath ext : string)
    (tmpb outb : list ascii) (w : world) :
  nul_free inpath -> nul_free ext ->
  length tmpb = S MAXTMPPATH -> length outb = S MAXOUTPATH ->
  nonnul outb ->
  (MAXOUTPATH < String.length inpath)%nat ->
  make_paths p (c_str inpath) None (c_str ext) tmpb outb w = None.
Proof.
  intros Hin Hext Htmpb Houtb Hdirty Hlong.
  rewrite string_length_list in Hlong.
  unfold c_str.
  rewrite make_paths_nodir_given by (try done; by left).
  unfold bind at 1. unfold bind at 1.
  rewrite (safecpy_too_large outb _ [] MAXOUTPATH w Hin Hlong).
  unfold ret at 1. unfold make_paths_tail.
  rewrite (bind_eq _ _ _ _ _
             (safecat_unterminated outb _ [] MAXOUTPATH _ Hdirty Houtb Hext)).
  unfold bind at 1. unfold safecpy, bind at 1.
  rewrite strnlen_nonnul by done. rewrite Houtb.
  by destruct (Nat.leb_spec (MAXTMPPATH + 1) (S MAXOUTPATH)) as [Hc|_];
    [unfold MAXTMPPATH, MAXOUTPATH, EXTMAX in Hc; lia|].
Qed.

Section Fresh.
Context `{Host} `{X3fLib}.

(** X16.  What a run that returns 0 leaves at the final path, when the
    host lets [main] unlink the temporary path: exactly the bytes the
    encoder wrote in this run, that is, for the handle made from the
    input file as [fopen] found it and taken through the loads of the
    plan; and nothing at the temporary path.  A stale temporary file of
    an earlier run never becomes the output. *)
Theorem committed_output_is_fresh (vm : variables_map) (w w' : world)
    (l : locals) (ifile : string) :
  main vm w = Some (0, w') ->
  parse_result vm = Some l -> opt_input vm = Some ifile ->
  let out := final_path_of pf (path_of (c_str ifile)) (path_of <$> outdir l)
               (extension (file_type l)) in
  let tmp := out +:+ ".tmp" in
  host_unlink_permitted tmp = true ->
  exists stream x levs x' bytes,
    let p := path_of (c_str ifile) in
    (if host_readable p then fs w !! p else None) = Some stream
    /\ lib_new_from_file stream = Some x
    /\ orchestrate (plan l (compute_extract_meta l)) p x = (levs, Some x')
    /\ lib_dump x' (dump_call_of l (resolve_sgain l x')) tmp
       = (X3F_OK, Some bytes)
    /\ fs w' !! out = Some bytes /\ fs w' !! tmp = None.
Proof.
  intros Hmain Hres Hin out tmp Hunlink.
  assert (forall m, outdir l = Some m ->
                    exists d rd, m = d ++ NUL :: rd /\ nonnul d) as Hdir.
  { intros m Hm.
    destruct (parse_result_Some vm l Hres)
      as (? & ? & ? & ? & _ & _ & _ & _ & _ & _ & _ & _ & _ & Ho & _).
    rewrite Ho in Hm. destruct (opt_output vm) as [d|]; [|done].
    injection Hm as <-. apply c_str_terminated. }
  apply main_run in Hmain. rewrite Hres in Hmain.
  destruct Hmain as (ifile' & path & evs & n & Hin' & Hrun & _ & Hcode).
  rewrite Hin in Hin'. injection Hin' as <-.
  destruct (file_run_renamed _ _ _ _ _ _ _ _ Hrun) as (_ & _ & [-> | ->]);
    [|discriminate].
  remember 0 as n eqn:Hn. 
  destruct Hrun as [p Hopen|bytes p Hopen Hnew|bytes x levs p Hopen Hnew Horch
                |bytes x levs x' w0 err tmpb outb dbg p Hopen Hnew Horch Hpaths Herr
                |bytes x levs x' w0 tmpb outb p tmp0 out0 call0 Hopen Hnew Horch
                   Hpaths Hok
                |bytes x levs x' w0 tmpb outb p tmp0 out0 call0 Hopen Hnew Horch
                   Hpaths Hok Hren
                |bytes x levs x' w0 tmpb outb written p tmp0 out0 call0 Hopen Hnew
                   Horch Hpaths Hok Hren]; try discriminate.
  destruct (main_paths _ _ _ _ _ _ Hdir Hpaths) as (Ho & Ht).
  fold out in Ho, Ht. fold tmp in Ht.
  unfold tmp0, out0 in *. rewrite Ho, Ht in *. clear Ho Ht.
  apply renamed_Some in Hren as [Hstaged _].
  unfold call0 in *.
  unfold after_dump in Hstaged |- *.
  destruct (lib_dump x' (dump_call_of l (resolve_sgain l x')) tmp)
    as [r [bytes'|]] eqn:Hdump; simpl in *.
  - rewrite lookup_insert_eq in Hstaged. injection Hstaged as <-.
    exists bytes, x, levs, x', bytes'. rewrite Hdump.
    destruct r; [|done].
    split; [done|]. split; [done|]. split; [done|].
    split; [done|]. split; [by rewrite lookup_insert_eq|].
    rewrite lookup_insert_ne by (symmetry; apply append_tmp_ne).
    by rewrite lookup_delete_eq.
  - unfold after_unlink in Hstaged. rewrite Hunlink in Hstaged.
    by rewrite lookup_delete_eq in Hstaged.
Qed.

End Fresh.

Section FurtherExamples2.
#[local] Existing Instance example_host.
#[local] Existing Instance example_lib.

(** 1011 characters and an array full of 'x'. *)
Lemma make_paths_overruns_dirty_outpath_witness :
  nul_free example_long_path /\ nonnul example_dirty_outfile
  /\ (MAXOUTPATH < String.length example_long_path)%nat
  /\ make_paths Posix (c_str example_long_path) None (c_str ".dng")
       example_tmpfile example_dirty_outfile example_world = None.
Proof.
  assert (nul_free example_long_path) as Hin.
  { unfold nul_free, example_long_path.
    rewrite list_ascii_of_string_of_list_ascii. by apply nonnul_replicate. }
  assert (nonnul example_dirty_outfile) as Hdirty
    by by apply nonnul_uninitialised.
  assert (MAXOUTPATH < String.length example_long_path)%nat as Hlong.
  { unfold example_long_path.
    rewrite length_string_of_list_ascii, length_replicate. lia. }
  split; [exact Hin|]. split; [exact Hdirty|]. split; [exact Hlong|].
  apply (make_paths_overruns_dirty_outpath Posix example_long_path ".dng"
           example_tmpfile example_dirty_outfile example_world Hin);
    [repeat constructor|reflexivity| |exact Hdirty|exact Hlong].
  unfold example_dirty_outfile. by rewrite length_uninitialised, Nat.add_1_r.
Defined.

(** The example run leaves the byte of the encoder at [photo.x3f.dng]. *)
Lemma committed_output_is_fresh_witness :
  exists w' l,
    main example_vm example_world = Some (0, w')
    /\ parse_result example_vm = Some l
    /\ opt_input example_vm = Some "photo.x3f"
    /\ let out := final_path_of pf (path_of (c_str "photo.x3f"))
                    (path_of <$> outdir l) (extension (file_type l)) in
       let tmp := out +:+ ".tmp" in
       host_unlink_permitted tmp = true
       /\ exists stream x levs x' bytes,
            let p := path_of (c_str "photo.x3f") in
            (if host_readable p then fs example_world !! p else None)
            = Some stream
            /\ lib_new_from_file stream = Some x
            /\ orchestrate (plan l (compute_extract_meta l)) p x
               = (levs, Some x')
            /\ lib_dump x' (dump_call_of l (resolve_sgain l x')) tmp
               = (X3F_OK, Some bytes)
            /\ fs w' !! out = Some bytes /\ fs w' !! tmp = None.
Proof.
  eexists _, _.
  split; [vm_compute; reflexivity|]. split; [vm_compute; reflexivity|].
  split; [reflexivity|]. split; [reflexivity|].
  apply (committed_output_is_fresh example_vm example_world);
    vm_compute; reflexivity.
Defined.

End FurtherExamples2.

(** * The resolved request in [main], and the path builder again *)



Section Resolved.
Context `{Host} `{X3fLib}.

(** [main] on a request that the option part resolves: after the
    options it sets the OpenCL switch and processes the input file,
    starting with no error counted, prints the summary for one file and
    returns whether an error was counted. *)
Lemma main_resolved vm l ifile w :
  parse_result vm = Some l -> opt_input vm = Some ifile ->
  main vm w
  = (do errors <- extract_file l (compute_extract_meta l) ifile 0;
     x3f_printf INFO "Files processed: %d\terrors: %d\n"
       [ArgD 1; ArgD errors] ;;
     ret (Z.b2z (0 <? errors)))
      (upd w (intro_events ++ parse_events vm
              ++ [E_x3f_set_use_opencl (use_opencl l)])
         (if tokens_accepted vm then options_globals vm (glob w) else glob w)).
Proof.
  intros Hres Hin. unfold main.
  rewrite (bind_eq _ _ _ _ _ (x3f_printf_eq _ _ _ _)).
  unfold setvbuf.
  rewrite (bind_eq _ _ _ _ _ (emit_eq _ _)).
  rewrite (bind_eq _ _ _ _ _ (emit_eq _ _)).
  rewrite !log_log. simpl app. fold intro_events.
  rewrite (bind_eq _ _ _ _ _ (parse_options_performs vm _)).
  rewrite Hres. unfold x3f_set_use_opencl.
  rewrite (bind_eq _ _ _ _ _ (emit_eq _ _)).
  rewrite Hin, (bind_access _ _ _ _ eq_refl).
  unfold upd, log. cbn [fs trace glob]. rewrite <- !app_assoc.
  apply bind_cong_r. intros errors w1. reflexivity.
Qed.


Lemma parse_result_outdir vm l :
  parse_result vm = Some l ->
  outdir l = c_str <$> opt_output vm
  /\ forall m, outdir l = Some m -> exists d rd, m = d ++ NUL :: rd /\ nonnul d.
Proof.
  intros Hres.
  destruct (parse_result_Some vm l Hres)
    as (? & ? & ? & ? & _ & _ & _ & _ & _ & _ & _ & _ & _ & Ho & _).
  split; [done|]. intros m Hm.
  rewrite Ho in Hm. destruct (opt_output vm) as [d|]; [|done].
  injection Hm as <-. apply c_str_terminated.
Qed.

End Resolved.

(** ** The path builder (C4) *)

Section PathBuilder.
Context `{Host} `{X3fLib}.


End PathBuilder.

(** ** The plan resolver in [main] (C3) *)

Section PlanResolver.
Context `{Host} `{X3fLib}.

(** C3.  [parse_options], the option part of [main], resolves the format
    token by the fixed table, [dng] standing in when no format is given:
    with a format token of the table, a color token of the table if one
    is given, and an input file, it returns locals with the output kind
    and the section flags of the row, having touched no file; [main]
    goes on to process the input file under these locals; and
    [load_sections] under them loads exactly the sections of the row, in
    the fixed order, the metadata being added when [extract_meta] asks
    for it.  A format or color token outside the tables makes [main]
    return 1 after the message that names the token, having only
    printed: no file is opened, read, written, removed or renamed. *)
Theorem plan_resolver_table (vm : variables_map) :
  (forall kind jpg dec undec ifile,
      table_lookup (default "dng" (opt_format vm)) format_table
        = Some (kind, (jpg, dec, undec)) ->
      (forall spc, opt_color vm = Some spc ->
                   is_Some (table_lookup spc color_table)) ->
      opt_input vm = Some ifile ->
      exists l,
        (forall w, exists g,
            parse_options vm w = Some (Some l, upd w (parse_events vm) g))
        /\ Forall (fun e => touches_file e = false) (parse_events vm)
        /\ file_type l = kind /\ extract_jpg l = jpg /\ extract_raw l = dec
        /\ extract_unconverted_raw l = undec
        /\ (forall w, exists g,
              main vm w
              = (do errors <- extract_file l (compute_extract_meta l) ifile 0;
                 x3f_printf INFO "Files processed: %d\terrors: %d\n"
                   [ArgD 1; ArgD errors] ;;
                 ret (Z.b2z (0 <? errors)))
                  (upd w (intro_events ++ parse_events vm
                          ++ [E_x3f_set_use_opencl (use_opencl l)]) g))
        /\ (forall em infile x w,
              let secs := (if jpg =? 1 then [Preview] else [])
                          ++ (if truthy em then [Metadata] else [])
                          ++ (if dec =? 1 then [RawDecoded] else [])
                          ++ (if undec =? 1 then [RawUndecoded] else []) in
              exists g,
                load_sections l em infile x w
                = Some ((orchestrate secs infile x).2,
                        upd w (orchestrate secs infile x).1 g)))
  /\ (forall fmt,
        opt_format vm = Some fmt -> table_lookup fmt format_table = None ->
        forall w, exists w' evs,
          main vm w = Some (1, w') /\ fs w' = fs w
          /\ trace w' = trace w ++ evs
          /\ In (E_cerr [Text "Unknown format : "; Text fmt; Endl]) evs
          /\ Forall (fun e => touches_file e = false) evs)
  /\ (forall spc,
        opt_color vm = Some spc -> table_lookup spc color_table = None ->
        forall w, exists w' evs,
          main vm w = Some (1, w') /\ fs w' = fs w
          /\ trace w' = trace w ++ evs
          /\ (is_Some (table_lookup (default "dng" (opt_format vm)) format_table) ->
              In (E_cerr [Text "Unknown color encoding: "; Text spc; Endl]) evs)
          /\ Forall (fun e => touches_file e = false) evs).
Proof.
  pose proof (parse_result_table vm) as Ht.
  assert (parse_result vm = None ->
          forall w, exists w' evs,
            main vm w = Some (1, w') /\ fs w' = fs w
            /\ trace w' = trace w ++ evs
            /\ evs = intro_events ++ parse_events vm
            /\ Forall (fun e => touches_file e = false) evs) as Hrej.
  { intros Hres w. destruct (main_rejects vm w Hres) as [g Hmain].
    eexists _, _. split; [exact Hmain|]. split; [done|]. split; [done|].
    split; [done|].
    apply Forall_app. split; [apply intro_events_quiet|apply parse_events_quiet]. }
  split; [|split].
  - intros kind jpg dec undec ifile Hrow Hcolor Hifile.
    destruct (parse_result_accepts vm) as [l Hres];
      [by rewrite Hrow|done|by rewrite Hifile|].
    exists l.
    destruct (parse_result_Some vm l Hres)
      as (k & j & d & u & Hin & Hrow' & Hk & Hj & Hd & Hu & _).
    rewrite Hrow in Hrow'. injection Hrow' as <- <- <- <-.
    split.
    { intros w. eexists. rewrite parse_options_performs. by rewrite Hres. }
    split; [apply parse_events_quiet|].
    split; [done|]. split; [done|]. split; [done|]. split; [done|].
    split.
    { intros w. eexists. by apply main_resolved. }
    intros em infile x w secs.
    destruct (load_sections_denotes l em infile x w) as [g Hload].
    exists g. rewrite Hload. rewrite plan_unfold, Hj, Hd, Hu.
    unfold secs, truthy.
    unfold format_table in Hin. simpl in Hin.
    repeat (destruct Hin as [[= _ _ <- <- <-]|Hin]; [done|]). done.
  - intros fmt Hfmt Hnone w. rewrite Hfmt in Ht. simpl in Ht. rewrite Hnone in Ht.
    destruct (Hrej Ht w) as (w' & evs & Hmain & Hfs & Htr & -> & Hq).
    exists w', (intro_events ++ parse_events vm).
    split; [done|]. split; [done|]. split; [done|]. split; [|done].
    pose proof (format_assignments_table fmt) as Hfa. rewrite Hnone in Hfa.
    unfold parse_events, format_events. rewrite Hfmt, Hfa.
    apply in_app_iff. right. apply in_app_iff. right.
    apply in_app_iff. left. simpl. auto.
  - intros spc Hspc Hnone w. rewrite Hspc in Ht. cbn [mbind option_bind] in Ht.
    rewrite Hnone in Ht.
    assert (parse_result vm = None) as Hres.
    { by destruct (table_lookup (default "dng" (opt_format vm)) format_table)
        as [[kind [[jpg dec] undec]]|]. }
    destruct (Hrej Hres w) as (w' & evs & Hmain & Hfs & Htr & -> & Hq).
    exists w', (intro_events ++ parse_events vm).
    split; [done|]. split; [done|]. split; [done|]. split; [|done].
    intros [row Hrow].
    unfold parse_events, color_events, color_result, format_result.
    assert (exists l1, (match opt_format vm with
                        | Some fmt => (fun al => initial_locals <: Z_macro <: al)
                                        <$> format_assignments fmt
                        | None => Some initial_locals
                        end) = Some l1) as [l1 ->].
    { destruct (opt_format vm) as [fmt|]; [|by eexists].
      pose proof (format_assignments_table fmt) as Hfa. simpl in Hrow.
      rewrite Hrow in Hfa. destruct row as [kind [[jpg dec] undec]].
      destruct Hfa as (al & -> & _). by eexists. }
    rewrite Hspc, color_assignment_table, Hnone.
    apply in_app_iff. right. apply in_app_iff. right. apply in_app_iff. right.
    apply in_app_iff. left. simpl. auto.
Qed.

End PlanResolver.

(** ** The spatial gain default (C5) *)

Section SpatialGainDefault.
Context `{Host} `{X3fLib}.

(** C5.  When neither [--noSGain] nor [--sgain] is given, the resolved
    request still carries the tri-state -1, and the value is chosen only
    when the encoder is dispatched: in every defined run, the encoder
    call follows the [unlink] of the temp file directly, after all loads,
    and its spatial gain argument is 1 when the header version of the
    container is below [X3F_VERSION_4_0], and 0 otherwise.  The
    container is the one of this run: the handle is made from the input
    file as [fopen] found it and is taken through the loads of the
    plan. *)
Theorem spatial_gain_default (vm : variables_map) (w : world) (code : Z)
    (w' : world) (l : locals) :
  main vm w = Some (code, w') ->
  parse_result vm = Some l ->
  opt_noSGain vm = false -> opt_sgain vm = false ->
  apply_sgain l = -1
  /\ exists ifile evs,
       opt_input vm = Some ifile
       /\ trace w' = trace w ++ intro_events ++ parse_events vm
                     ++ E_x3f_set_use_opencl (use_opencl l) :: evs
       /\ forall call tmp r,
            In (E_x3f_dump call tmp r) evs ->
            exists stream x levs x' out post,
              let p := path_of (c_str ifile) in
              let sgain :=
                if decide (header_version x' < X3F_VERSION_4_0) then 1 else 0 in
              (if host_readable p then fs w !! p else None) = Some stream
              /\ lib_new_from_file stream = Some x
              /\ orchestrate (plan l (compute_extract_meta l)) p x
                 = (levs, Some x')
              /\ call = dump_call_of l sgain
              /\ (forall s, sgain_argument call = Some s -> s = sgain)
              /\ evs = (opened_events p ++ levs ++ [paths_call l ifile])
                       ++ [E_unlink tmp;
                           E_x3f_printf INFO (dump_message (file_type l))
                             [ArgS (Some out)];
                           E_x3f_dump call tmp r] ++ post.
Proof.
  intros Hmain Hres Hno Hyes.
  assert (apply_sgain l = -1) as Hauto.
  { destruct (parse_result_Some vm l Hres)
      as (? & ? & ? & ? & _ & _ & _ & _ & _ & _ & _ & _ & Hs & _).
    by rewrite Hs, Hno, Hyes. }
  split; [done|].
  apply main_run in Hmain. rewrite Hres in Hmain.
  destruct Hmain as (ifile & path & evs & n & Hin & Hrun & Htrace & Hcode).
  exists ifile, (evs ++ [summary 1 n]). split; [done|]. split; [done|].
  intros call tmp r Hdump.
  apply in_app_iff in Hdump as [Hdump|Hdump];
    [|simpl in Hdump; intuition discriminate].
  destruct (file_run_dump _ _ _ _ _ _ _ _ _ _ _ Hrun Hdump)
    as (bytes & x & levs & x' & out & post & Hopen & Hnew & Horch & Hcall & Hevs).
  exists bytes, x, levs, x', out, (post ++ [summary 1 n]). cbv zeta.
  assert (resolve_sgain l x'
          = if decide (header_version x' < X3F_VERSION_4_0) then 1 else 0)
    as Hsgain.
  { unfold resolve_sgain. rewrite Hauto. simpl.
    destruct (decide _) as [Hlt|Hge].
    - by apply Z.ltb_lt in Hlt as ->.
    - by apply Z.ltb_nlt in Hge as ->. }
  rewrite <- Hsgain. repeat split; try done.
  - intros s. rewrite Hcall. apply sgain_argument_dump_call_of.
  - rewrite Hevs. by list_norm.
Qed.

End SpatialGainDefault.

(** ** The place of the path builder (C8) *)

Section PathsPlaced.
Context `{Host} `{X3fLib}.


End PathsPlaced.

(** ** An output directory that is none (C10) *)

Section InvalidOutdir.
Context `{Host} `{X3fLib}.

(** C10.  When [--output] names a path that does not exist or is no
    directory, [check_dir] returns a value other than 0 after its one
    [stat] call, and all that [main] does about it is to print the usage
    text: [parse_output] sets [outdir] to the string given and returns,
    the option part resolves the request as with any other directory
    string, and [main] goes on to process the input file with no error
    counted so far, so that the exit status is the one of the processing
    of the file alone; in every defined run the path builder is called
    with the string given. *)
Theorem invalid_outdir_only_prints (vm : variables_map) (d : string)
    (l : locals) (ifile : string) (w : world) :
  opt_output vm = Some d ->
  host_stat (path_of (c_str d)) <> Some true ->
  parse_result vm = Some l -> opt_input vm = Some ifile ->
  let p := path_of (c_str d) in
  let called := E_stat p (if host_stat p is Some _ then 0 else -1) in
  (exists r, check_dir p w = Some (r, log w [called]) /\ r <> 0)
  /\ (forall l0 w0,
        parse_output vm l0 w0
        = Some (l0 <: [set_outdir (Some (c_str d))],
                log w0 [called; E_cerr [Desc; Endl]]))
  /\ outdir l = Some (c_str d)
  /\ (exists g,
        parse_options vm w
        = Some (Some l,
                upd w (help_events vm ++ [called; E_cerr [Desc; Endl]]) g))
  /\ (exists g,
        main vm w
        = (do errors <- extract_file l (compute_extract_meta l) ifile 0;
           x3f_printf INFO "Files processed: %d\terrors: %d\n"
             [ArgD 1; ArgD errors] ;;
           ret (Z.b2z (0 <? errors)))
            (upd w (intro_events ++ help_events vm
                    ++ [called; E_cerr [Desc; Endl];
                        E_x3f_set_use_opencl (use_opencl l)]) g))
  /\ (forall code w',
        main vm w = Some (code, w') ->
        exists path evs n,
          file_run l (compute_extract_meta l) ifile (fs w) path evs n (fs w')
          /\ trace w' = trace w ++ intro_events ++ help_events vm
                        ++ [called; E_cerr [Desc; Endl];
                            E_x3f_set_use_opencl (use_opencl l)]
                        ++ evs ++ [summary 1 n]
          /\ code = Z.b2z (0 <? n) /\ (path = Success <-> n = 0)
          /\ (forall a b c, In (E_make_paths a b c) evs -> b = Some p)).
Proof.
  intros Hout Hdir Hres Hifile p called. fold p in Hdir.
  assert (output_events vm = [called; E_cerr [Desc; Endl]]) as Hevents.
  { unfold output_events, check_dir_result. rewrite Hout. fold p.
    unfold called. by destruct (host_stat p) as [[]|]. }
  assert (outdir l = Some (c_str d)) as Hl.
  { destruct (parse_result_outdir vm l Hres) as [Ho _]. by rewrite Ho, Hout. }
  pose proof (parse_events_resolved vm l Hres) as Hpe. rewrite Hevents in Hpe.
  split; [|split; [|split; [|split; [|split]]]].
  - unfold check_dir, stat, called. fold p.
    destruct (host_stat p) as [[]|]; [done|..]; by eexists.
  - intros l0 w0. rewrite parse_output_performs, Hevents.
    unfold output_result. rewrite Hout. by rewrite <- log_upd.
  - done.
  - eexists. by rewrite parse_options_performs, Hres, Hpe.
  - eexists. rewrite (main_resolved vm l ifile w Hres Hifile), Hpe.
    by rewrite <- !app_assoc.
  - intros code w' Hmain. apply main_run in Hmain. rewrite Hres in Hmain.
    destruct Hmain as (ifile' & path & evs & n & Hin & Hrun & Htrace & Hcode).
    rewrite Hifile in Hin. injection Hin as <-.
    exists path, evs, n. split; [done|].
    split; [rewrite Htrace, Hpe; by list_norm|].
    split; [done|].
    split; [by destruct (file_run_renamed _ _ _ _ _ _ _ _ Hrun) as (_ & ? & _)|].
    intros a b c Hpc.
    apply (file_run_paths_call _ _ _ _ _ _ _ _ _ _ _ Hrun) in Hpc.
    injection Hpc as _ -> _. by rewrite Hl.
Qed.

End InvalidOutdir.

(** * The example runs of the resolved request *)

Section ResolvedExamples.
#[local] Existing Instance example_host.
#[local] Existing Instance example_lib.

(** [-f jpg] gives the row of [jpg]; [-f bmp] is turned down. *)
Lemma plan_resolver_table_witness :
  (exists l,
      (forall w, exists g,
          parse_options example_vm_jpg w
          = Some (Some l, upd w (parse_events example_vm_jpg) g))
      /\ Forall (fun e => touches_file e = false) (parse_events example_vm_jpg)
      /\ file_type l = JPEG /\ extract_jpg l = 1 /\ extract_raw l = 0
      /\ extract_unconverted_raw l = 0
      /\ (forall w, exists g,
            main example_vm_jpg w
            = (do errors <- extract_file l (compute_extract_meta l)
                              "photo.x3f" 0;
               x3f_printf INFO "Files processed: %d\terrors: %d\n"
                 [ArgD 1; ArgD errors] ;;
               ret (Z.b2z (0 <? errors)))
                (upd w (intro_events ++ parse_events example_vm_jpg
                        ++ [E_x3f_set_use_opencl (use_opencl l)]) g))
      /\ (forall em infile x w,
            let secs := (if 1 =? 1 then [Preview] else [])
                        ++ (if truthy em then [Metadata] else [])
                        ++ (if 0 =? 1 then [RawDecoded] else [])
                        ++ (if 0 =? 1 then [RawUndecoded] else []) in
            exists g,
              load_sections l em infile x w
              = Some ((orchestrate secs infile x).2,
                      upd w (orchestrate secs infile x).1 g)))
  /\ (exists w' evs,
        main example_vm_bmp example_world = Some (1, w')
        /\ fs w' = fs example_world
        /\ trace w' = trace example_world ++ evs
        /\ In (E_cerr [Text "Unknown format : "; Text "bmp"; Endl]) evs
        /\ Forall (fun e => touches_file e = false) evs).
Proof.
  split.
  - apply (proj1 (plan_resolver_table example_vm_jpg) JPEG 1 0 0 "photo.x3f");
      [reflexivity|intros spc [=]|reflexivity].
  - apply (proj1 (proj2 (plan_resolver_table example_vm_bmp)) "bmp");
      reflexivity.
Defined.



(** The sensor of the example file predates version 4.0: the encoder is
    called with the spatial gain on. *)
Lemma spatial_gain_default_witness :
  exists code w' l,
    main example_vm example_world = Some (code, w')
    /\ parse_result example_vm = Some l
    /\ opt_noSGain example_vm = false /\ opt_sgain example_vm = false
    /\ In (E_x3f_dump (dump_raw_data_as_dng 1 1 1 None 0) "photo.x3f.dng.tmp"
             X3F_OK) (trace w')
    /\ apply_sgain l = -1
    /\ exists ifile evs,
         opt_input example_vm = Some ifile
         /\ trace w' = trace example_world ++ intro_events
                       ++ parse_events example_vm
                       ++ E_x3f_set_use_opencl (use_opencl l) :: evs
         /\ forall call tmp r,
              In (E_x3f_dump call tmp r) evs ->
              exists stream x levs x' out post,
                let p := path_of (c_str ifile) in
                let sgain :=
                  if decide (header_version x' < X3F_VERSION_4_0)
                  then 1 else 0 in
                (if host_readable p then fs example_world !! p else None)
                = Some stream
                /\ lib_new_from_file stream = Some x
                /\ orchestrate (plan l (compute_extract_meta l)) p x
                   = (levs, Some x')
                /\ call = dump_call_of l sgain
                /\ (forall s, sgain_argument call = Some s -> s = sgain)
                /\ evs = (opened_events p ++ levs ++ [paths_call l ifile])
                         ++ [E_unlink tmp;
                             E_x3f_printf INFO (dump_message (file_type l))
                               [ArgS (Some out)];
                             E_x3f_dump call tmp r] ++ post.
Proof.
  eexists _, _, _.
  split; [vm_compute; reflexivity|]. split; [vm_compute; reflexivity|].
  split; [reflexivity|]. split; [reflexivity|].
  split; [vm_compute; tauto|].
  apply (spatial_gain_default example_vm example_world 0);
    vm_compute; reflexivity.
Defined.



(** [x3f_extract -o /nowhere photo.x3f] on a host without directories:
    the run goes on and returns 0. *)
Lemma invalid_outdir_only_prints_witness :
  exists w' l,
    main example_vm_outdir example_world = Some (0, w')
    /\ fs w' !! "/nowhere/photo.x3f.dng" = Some [Byte.x2a]
    /\ opt_output example_vm_outdir = Some "/nowhere"
    /\ host_stat (path_of (c_str "/nowhere")) <> Some true
    /\ parse_result example_vm_outdir = Some l
    /\ opt_input example_vm_outdir = Some "photo.x3f"
    /\ let p := path_of (c_str "/nowhere") in
       let called := E_stat p (if host_stat p is Some _ then 0 else -1) in
       (exists r, check_dir p example_world
                  = Some (r, log example_world [called]) /\ r <> 0)
       /\ (forall l0 w0,
             parse_output example_vm_outdir l0 w0
             = Some (l0 <: [set_outdir (Some (c_str "/nowhere"))],
                     log w0 [called; E_cerr [Desc; Endl]]))
       /\ outdir l = Some (c_str "/nowhere")
       /\ (exists g,
             parse_options example_vm_outdir example_world
             = Some (Some l,
                     upd example_world
                       (help_events example_vm_outdir
                        ++ [called; E_cerr [Desc; Endl]]) g))
       /\ (exists g,
             main example_vm_outdir example_world
             = (do errors <- extract_file l (compute_extract_meta l)
                               "photo.x3f" 0;
                x3f_printf INFO "Files processed: %d\terrors: %d\n"
                  [ArgD 1; ArgD errors] ;;
                ret (Z.b2z (0 <? errors)))
                 (upd example_world
                    (intro_events ++ help_events example_vm_outdir
                     ++ [called; E_cerr [Desc; Endl];
                         E_x3f_set_use_opencl (use_opencl l)]) g))
       /\ (forall code w'',
             main example_vm_outdir example_world = Some (code, w'') ->
             exists path evs n,
               file_run l (compute_extract_meta l) "photo.x3f"
                 (fs example_world) path evs n (fs w'')
               /\ trace w'' = trace example_world ++ intro_events
                              ++ help_events example_vm_outdir
                              ++ [called; E_cerr [Desc; Endl];
                                  E_x3f_set_use_opencl (use_opencl l)]
                              ++ evs ++ [summary 1 n]
               /\ code = Z.b2z (0 <? n) /\ (path = Success <-> n = 0)
               /\ (forall a b c, In (E_make_paths a b c) evs -> b = Some p)).
Proof.
  assert (host_stat (path_of (c_str "/nowhere")) <> Some true) as Hdir
    by discriminate.
  eexists _, _.
  split; [vm_compute; reflexivity|]. split; [vm_compute; reflexivity|].
  split; [reflexivity|]. split; [exact Hdir|].
  split; [vm_compute; reflexivity|]. split; [reflexivity|].
  match goal with
  | |- context [outdir ?l = Some _] =>
      pose proof (invalid_outdir_only_prints example_vm_outdir "/nowhere" l
                    "photo.x3f" example_world eq_refl Hdir eq_refl eq_refl)
        as Hrun
  end.
  exact Hrun.
Defined.

End ResolvedExamples.
